(** * chat-web5 relay server: webhook manager, message router, presence and
    credential encryption, embedded from the JavaScript sources

    - [WebhookManager]   : src/server/webhook/WebhookManager.js
    - [DIDCommService]   : src/server/didcomm/DIDCommService.js
    - [WebSocketServer]  : the WebSocket server (class WebSocketServer), with
                           its message router, its handlers and the periodic
                           cleanup
    - [CredentialCryptoService] : src/server/crypto/CredentialCryptoService.js

    JavaScript [Map]s are finite maps ([gmap]) over the keys a [Map] tells
    apart, the [Set] of sockets is a list in insertion order (the order
    [forEach] visits it), exceptions are an explicit [completion] type, and
    the clock, the random generator and the remote HTTP endpoint are explicit
    arguments.

    What a client sends is JSON, and the server reads [did], [chatId] and the
    other properties of a message without looking at their type: they are
    [value]s here.  The one exception is the [webhook] object of a
    [register_webhook] message, which is a record ([WebhookInput]): a [url]
    and a [secret] that are strings, [retryAttempts] and [timeout] that are
    integers, and [headers] that map strings to strings. *)

From stdpp Require Import base strings gmap list pretty.
From Stdlib Require Import ZArith Lia Ascii String.

Set Warnings "-register-all".

Local Open Scope string_scope.
Local Open Scope list_scope.

(** ** JavaScript values and exceptions *)

Module JS.

(** Values that travel through [JSON.stringify] / [JSON.parse]; numbers are
    the integers. *)
Inductive value : Type :=
| VUndefined
| VNull
| VBool (b : bool)
| VNum (n : Z)
| VStr (s : string)
| VArr (items : list value)
| VObj (fields : list (string * value)).

(** [!!v] *)
Definition truthy (v : value) : bool :=
  match v with
  | VUndefined | VNull => false
  | VBool b => b
  | VNum n => negb (n =? 0)%Z
  | VStr s => negb (String.eqb s "")
  | VArr _ | VObj _ => true
  end.

(** [!!s] for a property that is a string when present. *)
Definition truthy_str (s : option string) : bool :=
  match s with
  | Some s => negb (String.eqb s "")
  | None => false
  end.

Definition of_str (s : option string) : value :=
  match s with Some s => VStr s | None => VUndefined end.

(** [a || b] on an optional string / number property. *)
Definition or_str (a : option string) (b : string) : string :=
  match a with
  | Some s => if String.eqb s "" then b else s
  | None => b
  end.

Definition or_num (a : option Z) (b : Z) : Z :=
  match a with
  | Some n => if (n =? 0)%Z then b else n
  | None => b
  end.

Inductive exn : Type :=
| Error (message : string)
| TypeError (message : string)
| ReferenceError (message : string)
| RangeError (message : string).

Definition message (e : exn) : string :=
  match e with
  | Error m | TypeError m | ReferenceError m | RangeError m => m
  end.

(** Outcome of evaluating a block: a value, or a thrown exception. *)
Inductive completion (A : Type) : Type :=
| Return (a : A)
| Throw (e : exn).
Arguments Return {A} a.
Arguments Throw {A} e.

#[global] Instance completion_ret : MRet completion := fun A a => Return a.

#[global] Instance completion_bind : MBind completion := fun A B k c =>
  match c with
  | Return a => k a
  | Throw e => Throw e
  end.

(** [try { c } catch (error) { h error }] *)
Definition try_catch {A} (c : completion A) (h : exn → A) : A :=
  match c with
  | Return a => a
  | Throw e => h e
  end.

(** The exception a block ended with, if it threw. *)
Definition thrown {A} (c : completion A) : option exn :=
  match c with
  | Return _ => None
  | Throw e => Some e
  end.

(** [k in o] for an object that came out of [JSON.parse] or an object
    literal: [k] is one of its own properties. *)
Definition has_own (k : string) (fields : list (string * value)) : bool :=
  existsb (fun kv : string * value => String.eqb kv.1 k) fields.

(** Whether [`${v}`] evaluates.  Converting an object to a string calls its
    [toString]; an own property of that name hides the inherited method and,
    coming from JSON, is no function, and the inherited [valueOf] returns the
    object itself: the conversion throws a [TypeError].  An array joins the
    conversions of its items.  Every other value converts. *)
Fixpoint interpolates (v : value) : bool :=
  match v with
  | VObj fields => negb (has_own "toString" fields)
  | VArr items => forallb interpolates items
  | VUndefined | VNull | VBool _ | VNum _ | VStr _ => true
  end.

Definition cannot_convert : exn :=
  TypeError "Cannot convert object to primitive value".

(** A template literal with the substitutions [vs], evaluated for a log
    line: what is printed is not modelled, whether it throws is. *)
Definition log (vs : list value) : completion unit :=
  if forallb interpolates vs then Return tt else Throw cannot_convert.

(** What a [Map] tells apart as keys, and what [===] tells apart: primitive
    values by their value, objects and arrays by which object they are. *)
Inductive Key : Type :=
| KUndefined
| KNull
| KBool (b : bool)
| KNum (n : Z)
| KStr (s : string)
| KObject (object_id : nat).

#[global] Instance Key_eq_dec : EqDecision Key.
Proof. solve_decision. Defined.

#[global] Instance Key_countable : Countable Key.
Proof.
  refine (inj_countable'
    (fun k => match k with
              | KUndefined => inl (inl tt)
              | KNull => inl (inr tt)
              | KBool b => inr (inl b)
              | KNum n => inr (inr (inl n))
              | KStr s => inr (inr (inr (inl s)))
              | KObject i => inr (inr (inr (inr i)))
              end)
    (fun x => match x with
              | inl (inl _) => KUndefined
              | inl (inr _) => KNull
              | inr (inl b) => KBool b
              | inr (inr (inl n)) => KNum n
              | inr (inr (inr (inl s))) => KStr s
              | inr (inr (inr (inr i))) => KObject i
              end) _).
  by intros [].
Defined.

(** A value as the running program holds it: the JSON it carries and, when
    it is an object or an array, which object it is.  Every [JSON.parse]
    makes new objects, so two messages never carry the same object; two
    objects with the same JSON are different keys. *)
Record Held := {
  json : value;
  object_id : nat
}.

Definition key (h : Held) : Key :=
  match json h with
  | VUndefined => KUndefined
  | VNull => KNull
  | VBool b => KBool b
  | VNum n => KNum n
  | VStr s => KStr s
  | VArr _ | VObj _ => KObject (object_id h)
  end.

(** [a === b] *)
Definition same (a b : Held) : bool := bool_decide (key a = key b).

(** A string, held. *)
Definition str (s : string) : Held := {| json := VStr s; object_id := 0 |}.

(** [undefined], held: a property that is absent. *)
Definition absent : Held := {| json := VUndefined; object_id := 0 |}.

End JS.

Import JS.

(** ** The platform: Node.js built-ins the sources call *)

Record URL := {
  protocol : string;
  hostname : string;
  port : string;
  pathname : string;
  search : string
}.

(** [JSON], [crypto], [URL] and the header checks of [http] are taken as an
    interface; the sources only call them.
    - [hmac_sha256_hex secret data] is
      [createHmac('sha256', secret).update(data).digest('hex')];
    - [sha256_hex data] is [createHash('sha256').update(data).digest('hex')];
    - [pbkdf2 password salt iterations keylen digest] is the derived key;
    - [createCipher_hex algorithm key plaintext] is [createCipher(algorithm,
      key)] followed by [update(plaintext,'utf8','hex') + final('hex')];
    - [createDecipher_utf8 algorithm key encrypted] is [createDecipher]
      followed by [update(encrypted,'hex','utf8') + final('utf8')], [None]
      when [final] throws;
    - [JSON_parse] and [new_URL] are [None] when they throw;
    - [valid_header_name name] and [valid_header_value value] say whether
      [http.request] accepts a header of that name, and that content: it
      throws on a name that is not an HTTP token and on a value with a
      character that may not occur in a header. *)
Class Platform := {
  JSON_stringify : value → string;
  JSON_parse : string → option value;
  hmac_sha256_hex : string → string → string;
  sha256_hex : string → string;
  pbkdf2 : string → list Byte.byte → Z → Z → string → list Byte.byte;
  createCipher_hex : string → list Byte.byte → string → string;
  createDecipher_utf8 : string → list Byte.byte → string → option string;
  new_URL : string → option URL;
  valid_header_name : string → bool;
  valid_header_value : string → bool
}.

(** [{...o, k: v}]: an existing property keeps its position and takes the
    new value, a new property goes last. *)
Fixpoint obj_set (o : list (string * value)) (k : string) (v : value)
  : list (string * value) :=
  match o with
  | [] => [(k, v)]
  | (k', v') :: o' =>
      if String.eqb k' k then (k, v) :: o' else (k', v') :: obj_set o' k v
  end.



(** ** WebhookManager.js *)

Module WebhookManager.

(** The [webhook] object a client sends with [register_webhook]; the
    properties the server reads.  [in_headers] is empty when the object has
    no [headers], [in_events] is [undefined] when it has no [events]. *)
Record WebhookInput := {
  in_url : string;
  in_secret : option string;
  in_retryAttempts : option Z;
  in_timeout : option Z;
  in_headers : gmap string string;
  in_events : value
}.

(** An entry of [this.webhooks]. *)
Record WebhookConfig := {
  url : string;
  headers : gmap string string;
  chatId : Held;
  ownerDid : Held;
  registeredAt : string;
  secret : string;
  active : bool;
  retryAttempts : Z;
  timeout : Z
}.

(** [this.webhooks]: chatId -> webhook config.  The key is whatever
    [message.chatId] was, [undefined] included. *)
Abbreviation webhooks_t := (gmap Key WebhookConfig).

(** [registerWebhook(chatId, ownerDid, webhookConfig)]: the table
    afterwards and the completion.  [now] is the clock, [generated] the
    value [generateSecret()] returns when it is called.  The log line that
    prints [chatId] and [ownerDid] comes after [this.webhooks.set]: when it
    throws, the configuration is already stored. *)
Definition registerWebhook (webhooks : webhooks_t) (chatId ownerDid : Held)
    (webhookConfig : option WebhookInput) (now generated : string)
  : webhooks_t * completion WebhookConfig :=
  match webhookConfig with
  | None =>
      (webhooks,
       Throw (TypeError "Cannot read properties of undefined (reading 'secret')"))
  | Some c =>
      let config := {|
        url := in_url c;
        headers := in_headers c;
        chatId := chatId;
        ownerDid := ownerDid;
        registeredAt := now;
        secret := or_str (in_secret c) generated;
        active := true;
        retryAttempts := or_num (in_retryAttempts c) 3;
        timeout := or_num (in_timeout c) 5000
      |} in
      (<[key chatId := config]> webhooks,
       _ ← log [json chatId; json ownerDid];
       Return config)
  end.

(** [removeWebhook(chatId, requestingDid)]; the log line comes after
    [this.webhooks.delete]. *)
Definition removeWebhook (webhooks : webhooks_t) (chatId requestingDid : Held)
  : webhooks_t * completion bool :=
  match webhooks !! key chatId with
  | None => (webhooks, Throw (Error "Webhook não encontrado"))
  | Some webhook =>
      if negb (same (ownerDid webhook) requestingDid)
      then (webhooks,
            Throw (Error "Apenas o dono da sala pode remover o webhook"))
      else (delete (key chatId) webhooks,
            _ ← log [json chatId; json requestingDid];
            Return true)
  end.

(** [canConfigureWebhook(chatId, did)] *)
Definition canConfigureWebhook (webhooks : webhooks_t) (chatId did : Held)
  : bool :=
  match webhooks !! key chatId with
  | None => true
  | Some webhook => same (ownerDid webhook) did
  end.

(** What the remote endpoint does with one request. *)
Inductive Outcome :=
| Response (statusCode : Z) (data : string)
| RequestError (message : string)
| RequestTimeout.

(** The [options] object and body handed to [http.request]. *)
Record HttpRequest := {
  req_https : bool;
  req_hostname : string;
  req_port : string;
  req_path : string;
  req_method : string;
  req_headers : gmap string string;
  req_timeout : Z;
  req_body : string
}.

(** Observable steps of a delivery: an HTTP request written to the wire, a
    retry timer armed, with the delay in milliseconds it runs for. *)
Inductive DeliveryEvent :=
| HttpPost (req : HttpRequest)
| SetTimeout (delay : Z).

Definition posted (r : option HttpRequest) : list DeliveryEvent :=
  match r with Some req => [HttpPost req] | None => [] end.

Definition posts (evs : list DeliveryEvent) : list HttpRequest :=
  omap (fun e => match e with HttpPost r => Some r | SetTimeout _ => None end) evs.

(** The longest delay a Node.js timer takes: [2^31 - 1] ms. *)
Definition TIMEOUT_MAX : Z := 2147483647.

(** [setTimeout(callback, delay)] runs the timer for [delay] ms when
    [1 <= delay <= TIMEOUT_MAX], and for 1 ms otherwise. *)
Definition timer_duration (delay : Z) : Z :=
  if (1 <=? delay)%Z && (delay <=? TIMEOUT_MAX)%Z then delay else 1%Z.

Section Delivery.
Context `{Platform}.

(** [generateSignature(data, secret)] *)
Definition generateSignature (data secret : string) : string :=
  hmac_sha256_hex secret data.

(** The [headers] of the request: the configured headers are spread last
    and replace the computed ones of the same name. *)
Definition request_headers (webhook : WebhookConfig) (jsonPayload : string)
  : gmap string string :=
  headers webhook ∪
  (<["Content-Type" := "application/json"]>
   (<["Content-Length" := pretty (String.length jsonPayload)]>
    (<["X-Webhook-Signature" := generateSignature jsonPayload (secret webhook)]>
     (<["User-Agent" := "ChatWeb5-Webhook/1.0"]> ∅)))).

(** [http.request] accepts every header of the request. *)
Definition accepted_headers (h : gmap string string) : bool :=
  forallb (fun kv : string * string =>
             valid_header_name kv.1 && valid_header_value kv.2)
          (map_to_list h).

(** [http.request(options, callback)] checks its options before it opens a
    connection and throws when it rejects them: a [timeout] that is
    negative, a header it does not accept.  Which of the two errors a
    request with both gets is not told apart here; the callers only log the
    message. *)
Definition request (options : HttpRequest) : completion unit :=
  if (req_timeout options <? 0)%Z then
    Throw (RangeError "The value of timeout is out of range")
  else if negb (accepted_headers (req_headers options)) then
    Throw (TypeError "Invalid header")
  else Return tt.

(** [sendWebhookRequest(webhook, payload)], run against the endpoint's
    [reply].  The first component is the request issued, if any ([new URL]
    and [http.request] throw inside the promise executor before anything is
    sent); the second is the promise's settlement. *)
Definition sendWebhookRequest (webhook : WebhookConfig) (payload : value)
    (reply : Outcome) : option HttpRequest * completion (Z * string) :=
  let jsonPayload := JSON_stringify payload in
  match new_URL (url webhook) with
  | None => (None, Throw (TypeError "Invalid URL"))
  | Some u =>
      let isHttps := String.eqb (protocol u) "https:" in
      let options := {|
        req_https := isHttps;
        req_hostname := hostname u;
        req_port :=
          if String.eqb (port u) "" then (if isHttps then "443" else "80")
          else port u;
        req_path := pathname u +:+ search u;
        req_method := "POST";
        req_headers := request_headers webhook jsonPayload;
        req_timeout := if (timeout webhook =? 0)%Z then 5000%Z else timeout webhook;
        req_body := jsonPayload
      |} in
      match request options with
      | Throw e => (None, Throw e)
      | Return _ =>
          (Some options,
           match reply with
           | Response statusCode data =>
               if (200 <=? statusCode)%Z && (statusCode <? 300)%Z
               then Return (statusCode, data)
               else Throw (Error ("HTTP " +:+ pretty statusCode +:+ ": " +:+ data))
           | RequestError m => Throw (Error m)
           | RequestTimeout => Throw (Error "Request timeout")
           end)
      end
  end.

(** The timer chain of [addToRetryQueue]: [fuel] is the number of values
    [attempt, attempt+1, ...] that are still [<= retryAttempts]; [n] counts
    the requests the endpoint has received so far.  [attempt] is 1 in the
    first call and one more in each next one, so [Math.pow(2, attempt) *
    1000] is the integer [2 ^ attempt * 1000] as long as a timer can run
    that long. *)
Fixpoint retryLoop (fuel : nat) (webhook : WebhookConfig) (payload : value)
    (attempt : Z) (n : nat) (endpoint : nat → Outcome) : list DeliveryEvent :=
  match fuel with
  | O => []
  | S fuel' =>
      let retryDelay := (2 ^ attempt * 1000)%Z in
      let '(req, settled) := sendWebhookRequest webhook payload (endpoint n) in
      SetTimeout (timer_duration retryDelay) :: posted req ++
      match settled with
      | Return _ => []
      | Throw _ =>
          retryLoop fuel' webhook payload (attempt + 1)
                    (n + List.length (posted req)) endpoint
      end
  end.

(** [addToRetryQueue(webhook, payload, attempt)] *)
Definition addToRetryQueue (webhook : WebhookConfig) (payload : value)
    (attempt : Z) (n : nat) (endpoint : nat → Outcome) : list DeliveryEvent :=
  retryLoop (Z.to_nat (retryAttempts webhook + 1 - attempt))
            webhook payload attempt n endpoint.

(** The payload [triggerWebhook] builds for an event. *)
Definition trigger_payload (chatId : Held) (eventData : value)
    (now : string) : value :=
  VObj [
    ("timestamp", VStr now);
    ("chatId", json chatId);
    ("event", eventData);
    ("metadata", VObj [("source", VStr "chat-web5");
                       ("version", VStr "1.0.0")])
  ].

(** [triggerWebhook(chatId, eventData)] together with the retries it
    schedules, against an endpoint that answers its [n]-th request with
    [endpoint n]. *)
Definition triggerWebhook (webhooks : webhooks_t) (chatId : Held)
    (eventData : value) (now : string) (endpoint : nat → Outcome)
  : list DeliveryEvent :=
  match webhooks !! key chatId with
  | None => []
  | Some webhook =>
      if negb (active webhook) then []
      else
        let payload := trigger_payload chatId eventData now in
        let '(req, settled) := sendWebhookRequest webhook payload (endpoint 0%nat) in
        posted req ++
        match settled with
        | Return _ => []
        | Throw _ =>
            addToRetryQueue webhook payload 1 (List.length (posted req)) endpoint
        end
  end.

(** The class declares [sendWebhookRequest] and no member named
    [sendWebhook]: [this.sendWebhook] evaluates to [undefined]. *)
Definition sendWebhook
  : option (WebhookConfig → value → Outcome →
            option HttpRequest * completion (Z * string)) := None.

(** [testWebhook(chatId, testData)]: the result and the requests issued.
    Each path starts with a log line that prints [chatId].  Calling the
    undefined [this.sendWebhook] throws a [TypeError] inside the [try],
    which the [catch] turns into [false]. *)
Definition testWebhook (webhooks : webhooks_t) (chatId : Held)
    (testData : list (string * value)) (now : string)
    (endpoint : nat → Outcome) : completion bool * list DeliveryEvent :=
  match webhooks !! key chatId with
  | None => (_ ← log [json chatId]; Return false, [])
  | Some config =>
      if negb (active config) then (_ ← log [json chatId]; Return false, [])
      else
        match log [json chatId] with
        | Throw e => (Throw e, [])
        | Return _ =>
            let payload :=
              VObj (obj_set (obj_set testData "test" (VBool true))
                            "timestamp" (VStr now)) in
            match sendWebhook with
            | None => (Return false, [])
            | Some send =>
                let '(req, settled) := send config payload (endpoint 0%nat) in
                (Return (match settled with Return _ => true | Throw _ => false end),
                 posted req)
            end
        end
  end.

End Delivery.


(** An element of the array [listWebhooks] returns; [sum_chatId] is the key
    of the entry. *)
Record WebhookSummary := {
  sum_chatId : Key;
  sum_url : string;
  sum_ownerDid : Held;
  sum_active : bool;
  sum_registeredAt : string
}.

(** [listWebhooks()].  The entries come in the order the finite map
    enumerates its keys, which need not be the insertion order the
    JavaScript [Map] iterates in. *)
Definition listWebhooks (webhooks : webhooks_t) : list WebhookSummary :=
  (fun entry : Key * WebhookConfig =>
     {| sum_chatId := entry.1;
        sum_url := url entry.2;
        sum_ownerDid := ownerDid entry.2;
        sum_active := active entry.2;
        sum_registeredAt := registeredAt entry.2 |})
  <$> map_to_list webhooks.

(** A call of one of the two methods that change [this.webhooks]. *)
Inductive Call :=
| CallRegister (chatId ownerDid : Held)
               (webhookConfig : option WebhookInput) (now generated : string)
| CallRemove (chatId requestingDid : Held).

(** The table after a call, whether the call returned or threw. *)
Definition after_call (webhooks : webhooks_t) (c : Call) : webhooks_t :=
  match c with
  | CallRegister chatId ownerDid webhookConfig now generated =>
      (registerWebhook webhooks chatId ownerDid webhookConfig now generated).1
  | CallRemove chatId requestingDid =>
      (removeWebhook webhooks chatId requestingDid).1
  end.

(** What every stored configuration satisfies (see
    [stored_configurations_well_formed]). *)
Definition well_formed (k : Key) (config : WebhookConfig) : Prop :=
  key (chatId config) = k
  ∧ active config = true
  ∧ retryAttempts config ≠ 0%Z
  ∧ timeout config ≠ 0%Z.

End WebhookManager.

(** ** Sockets *)

(** A socket object [ws]; two sockets are the same object iff they have the
    same number. *)
Abbreviation conn := nat.

Inductive ReadyState := CONNECTING | OPEN | CLOSING | CLOSED.

#[global] Instance ReadyState_eq_dec : EqDecision ReadyState.
Proof. solve_decision. Defined.

(** ** Buffers and their hex encoding *)

Definition hex_digit (n : N) : ascii :=
  match n with
  | 0 => "0" | 1 => "1" | 2 => "2" | 3 => "3" | 4 => "4" | 5 => "5"
  | 6 => "6" | 7 => "7" | 8 => "8" | 9 => "9" | 10 => "a" | 11 => "b"
  | 12 => "c" | 13 => "d" | 14 => "e" | _ => "f"
  end%N%char.

Definition hex_value (c : ascii) : option N :=
  let n := N_of_ascii c in
  if (48 <=? n)%N && (n <=? 57)%N then Some (n - 48)%N
  else if (97 <=? n)%N && (n <=? 102)%N then Some (n - 87)%N
  else if (65 <=? n)%N && (n <=? 70)%N then Some (n - 55)%N
  else None.

Definition byte_of_N (n : N) : Byte.byte :=
  match Byte.of_N n with Some b => b | None => Byte.x00 end.

(** [buf.toString('hex')] *)
Fixpoint to_hex (buf : list Byte.byte) : string :=
  match buf with
  | [] => ""
  | b :: buf' =>
      let n := Byte.to_N b in
      String (hex_digit (n / 16)) (String (hex_digit (n mod 16)) (to_hex buf'))
  end.

(** [Buffer.from(s, 'hex')]: decoding stops at the first pair that is not
    two hex digits. *)
Fixpoint from_hex (s : string) : list Byte.byte :=
  match s with
  | String hi (String lo s') =>
      match hex_value hi, hex_value lo with
      | Some h, Some l => byte_of_N (16 * h + l) :: from_hex s'
      | _, _ => []
      end
  | _ => []
  end.

(** ** Property access, spreading and splitting *)

(** The own property [k] of an object literal or parsed JSON object whose
    property names are distinct. *)
Fixpoint field (fields : list (string * value)) (k : string) : value :=
  match fields with
  | [] => VUndefined
  | (k', v) :: fields' => if String.eqb k' k then v else field fields' k
  end.

(** [v.k] for a name [k] that only an object can have as a property (not
    [length], not an index, not a method of a prototype): [undefined] on
    every other value, a [TypeError] on [undefined] and [null]. *)
Definition prop (v : value) (k : string) : completion value :=
  match v with
  | VUndefined =>
      Throw (TypeError ("Cannot read properties of undefined (reading '"
                        +:+ k +:+ "')"))
  | VNull =>
      Throw (TypeError ("Cannot read properties of null (reading '"
                        +:+ k +:+ "')"))
  | VObj fields => Return (field fields k)
  | VBool _ | VNum _ | VStr _ | VArr _ => Return VUndefined
  end.

(** [v?.k] *)
Definition optional_prop (v : value) (k : string) : value :=
  match v with
  | VObj fields => field fields k
  | _ => VUndefined
  end.

(** The own enumerable properties [{...v}] copies: those of an object, the
    indexed characters of a string, the indexed items of an array, none of
    any other value. *)
Definition spread (v : value) : list (string * value) :=
  match v with
  | VObj fields => fields
  | VStr s =>
      imap (fun (i : nat) (c : ascii) => (pretty i, VStr (String c EmptyString)))
           (list_ascii_of_string s)
  | VArr items => imap (fun (i : nat) (x : value) => (pretty i, x)) items
  | VUndefined | VNull | VBool _ | VNum _ => []
  end.

(** [{...o, ...v}] *)
Definition assign (o : list (string * value)) (v : value)
  : list (string * value) :=
  foldl (fun o kv => obj_set o kv.1 kv.2) o (spread v).

(** The message of the [TypeError] that [update(undefined)] raises on a
    cipher, a decipher or an HMAC. *)
Definition invalid_data : string :=
  "The " +:+ String (ascii_of_nat 34) "data" +:+ String (ascii_of_nat 34)
  (" argument must be of type string or an instance of Buffer, TypedArray, "
   +:+ "or DataView. Received undefined").

(** [s.split(c)] *)
Fixpoint split_on (c : ascii) (s : string) : list string :=
  match s with
  | EmptyString => [EmptyString]
  | String x s' =>
      if Ascii.eqb x c then EmptyString :: split_on c s'
      else
        match split_on c s' with
        | piece :: pieces => String x piece :: pieces
        | [] => [String x EmptyString]
        end
  end.

(** ** DIDCommService.js *)

(** [crypto.scryptSync(password, salt, keylen)] and
    [Buffer.from(s).toString('base64')], taken as an interface like the
    rest of the platform; [invalid_key v] is the message of the [TypeError]
    that [createHmac('sha256', v)] raises for a key [v] that is not a
    string, which describes the value it received. *)
Class Encoders := {
  scryptSync : string → string → Z → list Byte.byte;
  base64 : string → string;
  invalid_key : value → string
}.

Module DIDCommService.

(** A value of [this.connectedClients]. *)
Record Client := {
  ws : conn;
  registeredAt : string;
  lastActivity : string
}.

(** The service object.  [connectedClients] and [messageQueue] are [Map]s
    keyed by whatever identity they were given; a queue holds the encrypted
    messages that wait, oldest first. *)
Record Service := {
  serverDid : option string;
  connectedClients : gmap Key Client;
  messageQueue : gmap Key (list value);
  initialized : bool
}.

(** [new DIDCommService()] *)
Definition new : Service := {|
  serverDid := None;
  connectedClients := ∅;
  messageQueue := ∅;
  initialized := false
|}.

Definition set_connectedClients (svc : Service) (v : gmap Key Client)
  : Service :=
  {| serverDid := serverDid svc; connectedClients := v;
     messageQueue := messageQueue svc; initialized := initialized svc |}.

Definition set_messageQueue (svc : Service) (v : gmap Key (list value))
  : Service :=
  {| serverDid := serverDid svc; connectedClients := connectedClients svc;
     messageQueue := v; initialized := initialized svc |}.

(** [generateSimpleDID()]; [publicKey] is what [crypto.randomBytes(32)]
    returns. *)
Definition generateSimpleDID (publicKey : list Byte.byte) : string :=
  "did:key:z" +:+ to_hex publicKey.

(** [initialize()] *)
Definition initialize (svc : Service) (publicKey : list Byte.byte) : Service :=
  {| serverDid := Some (generateSimpleDID publicKey);
     connectedClients := connectedClients svc;
     messageQueue := messageQueue svc;
     initialized := true |}.

(** The object a client receives: [{ type: 'didcomm_message', message }]. *)
Definition didcomm_message (message : value) : value :=
  VObj [("type", VStr "didcomm_message"); ("message", message)].

(** [processQueuedMessages(did)]: the service, the objects written to
    sockets, in order, and the completion.  [ready] gives the [readyState]
    of every socket.  The log line that prints [did] comes after the
    messages are written and before the queue is deleted. *)
Definition processQueuedMessages (svc : Service) (did : Held)
    (ready : conn → ReadyState)
  : Service * list (conn * value) * completion unit :=
  match messageQueue svc !! key did with
  | Some queuedMessages =>
      if (0 <? List.length queuedMessages)%nat then
        match connectedClients svc !! key did with
        | Some client =>
            if bool_decide (ready (ws client) = OPEN) then
              let frames :=
                (fun message => (ws client, didcomm_message message))
                  <$> queuedMessages in
              match log [json did] with
              | Return _ =>
                  (set_messageQueue svc (delete (key did) (messageQueue svc)),
                   frames, Return tt)
              | Throw e => (svc, frames, Throw e)
              end
            else (svc, [], Return tt)
        | None => (svc, [], Return tt)
        end
      else (svc, [], Return tt)
  | None => (svc, [], Return tt)
  end.

(** [registerClient(client)]; [client.ws] may be absent.  The log line that
    prints [client.did] comes after [this.connectedClients.set] and before
    the queued messages are processed. *)
Definition registerClient (svc : Service) (did : Held)
    (socket : option conn) (now : string) (ready : conn → ReadyState)
  : Service * list (conn * value) * completion unit :=
  match socket with
  | Some socket =>
      if negb (truthy (json did))
      then (svc, [], Throw (Error "Cliente deve ter DID e WebSocket"))
      else
        let svc :=
          set_connectedClients svc
            (<[key did := {| ws := socket; registeredAt := now;
                             lastActivity := now |}]> (connectedClients svc)) in
        match log [json did] with
        | Return _ => processQueuedMessages svc did ready
        | Throw e => (svc, [], Throw e)
        end
  | None => (svc, [], Throw (Error "Cliente deve ter DID e WebSocket"))
  end.

(** [unregisterClient(did)]; the log line comes after the deletion. *)
Definition unregisterClient (svc : Service) (did : Held)
  : Service * completion unit :=
  match connectedClients svc !! key did with
  | Some _ =>
      (set_connectedClients svc (delete (key did) (connectedClients svc)),
       log [json did])
  | None => (svc, Return tt)
  end.

(** [queueMessage(toDid, message)] *)
Definition queueMessage (svc : Service) (toDid : Held) (message : value)
  : Service :=
  let queue := default [] (messageQueue svc !! key toDid) ++ [message] in
  let queue := if (100 <? List.length queue)%nat then tail queue else queue in
  set_messageQueue svc (<[key toDid := queue]> (messageQueue svc)).

(** [isClientOnline(did)], as a condition. *)
Definition isClientOnline (svc : Service) (did : Held)
    (ready : conn → ReadyState) : bool :=
  match connectedClients svc !! key did with
  | Some client => bool_decide (ready (ws client) = OPEN)
  | None => false
  end.

(** [updateClientActivity(did)] *)
Definition updateClientActivity (svc : Service) (did : Held) (now : string)
  : Service :=
  match connectedClients svc !! key did with
  | Some client =>
      set_connectedClients svc
        (<[key did := {| ws := ws client; registeredAt := registeredAt client;
                         lastActivity := now |}]> (connectedClients svc))
  | None => svc
  end.

(** [cleanup()] *)
Definition cleanup (svc : Service) : Service :=
  {| serverDid := serverDid svc; connectedClients := ∅;
     messageQueue := ∅; initialized := initialized svc |}.

(** [isInitialized()] *)
Definition isInitialized (svc : Service) : bool := initialized svc.

(** What every queue satisfies (see [queues_hold_between_1_and_100]). *)
Definition bounded (svc : Service) : Prop :=
  ∀ did queue, messageQueue svc !! did = Some queue →
               (0 < List.length queue ≤ 100)%nat.

Section Service.
Context `{Platform} `{Encoders}.

(** [simpleEncrypt(text)]; [iv] is what [crypto.randomBytes(16)] returns. *)
Definition simpleEncrypt (text : string) (iv : list Byte.byte) : string :=
  let key := scryptSync "didcomm-demo-key" "salt" 32 in
  to_hex iv +:+ ":" +:+ createCipher_hex "aes-256-cbc" key text.

(** [simpleDecrypt(encryptedText)]: only a string has [split]; the second
    piece is [undefined] when the text has no colon. *)
Definition simpleDecrypt (encryptedText : value) : completion string :=
  match encryptedText with
  | VStr text =>
      let key := scryptSync "didcomm-demo-key" "salt" 32 in
      match split_on ":" text with
      | ivHex :: encrypted :: _ =>
          match createDecipher_utf8 "aes-256-cbc" key encrypted with
          | Some decrypted => Return decrypted
          | None => Throw (Error "bad decrypt")
          end
      | _ => Throw (TypeError invalid_data)
      end
  | VUndefined =>
      Throw (TypeError "Cannot read properties of undefined (reading 'split')")
  | VNull =>
      Throw (TypeError "Cannot read properties of null (reading 'split')")
  | VBool _ | VNum _ | VArr _ | VObj _ =>
      Throw (TypeError "encryptedText.split is not a function")
  end.

(** [processReceivedMessage(fromDid, encryptedMessage)]; the log line that
    prints [fromDid] comes after the decryption, and the [catch] block
    throws the error it caught. *)
Definition processReceivedMessage (fromDid encryptedMessage : value)
  : completion value :=
  content ← prop encryptedMessage "content";
  decryptedContent ← simpleDecrypt content;
  match JSON_parse decryptedContent with
  | None => Throw (Error "Unexpected token in JSON")
  | Some message =>
      _ ← log [fromDid];
      Return (VObj [("type", VStr "didcomm_decrypted");
                    ("fromDid", fromDid);
                    ("content", message);
                    ("timestamp", optional_prop encryptedMessage "timestamp");
                    ("messageId", optional_prop encryptedMessage "messageId")])
  end.

(** [sendEncryptedMessage(fromDid, toDid, message)]: the service, the
    objects written to sockets and the completion, with the boolean
    returned.  [iv] and [uuid] are the random values drawn, [now] the clock;
    [JSON.stringify] of [undefined] is [undefined], which the cipher does
    not accept.  The log lines come after the message is written or
    queued. *)
Definition sendEncryptedMessage (svc : Service) (fromDid : value)
    (toDid : Held) (message : value) (iv : list Byte.byte) (now uuid : string)
    (ready : conn → ReadyState)
  : Service * list (conn * value) * completion bool :=
  if negb (initialized svc)
  then (svc, [], Throw (Error "Serviço DIDComm não inicializado"))
  else
    match message with
    | VUndefined => (svc, [], Throw (TypeError invalid_data))
    | _ =>
        let encryptedMessage :=
          VObj [("type", VStr "didcomm_encrypted");
                ("from", fromDid);
                ("to", json toDid);
                ("content", VStr (simpleEncrypt (JSON_stringify message) iv));
                ("timestamp", VStr now);
                ("messageId", VStr uuid)] in
        let queued :=
          (queueMessage svc toDid encryptedMessage, [],
           _ ← log [json toDid]; Return false) in
        match connectedClients svc !! key toDid with
        | Some targetClient =>
            if bool_decide (ready (ws targetClient) = OPEN)
            then (svc, [(ws targetClient, didcomm_message encryptedMessage)],
                  _ ← log [fromDid; json toDid]; Return true)
            else queued
        | None => queued
        end
    end.

(** [signCredential(credential, issuerDid)].  The log line prints
    [issuerDid]; [createHmac] takes a key that is a string and throws on
    every other JSON value, and [update] throws on [undefined], which is
    what [JSON.stringify(undefined)] returns. *)
Definition signCredential (svc : Service) (credential : value)
    (issuerDid : value) (now : string) : completion value :=
  if negb (initialized svc)
  then Throw (Error "DIDComm Service não inicializado")
  else
    _ ← log [issuerDid];
    match issuerDid with
    | VStr issuer =>
        match credential with
        | VUndefined => Throw (TypeError invalid_data)
        | _ =>
            let credentialString := JSON_stringify credential in
            let signature := hmac_sha256_hex issuer credentialString in
            Return (VObj (obj_set (spread credential) "proof"
              (VObj [("type", VStr "JwtProof2020");
                     ("created", VStr now);
                     ("proofPurpose", VStr "assertionMethod");
                     ("verificationMethod", issuerDid);
                     ("jwt", VStr ("eyJ0eXAiOiJKV1QiLCJhbGciOiJFZERTQSJ9."
                                   +:+ base64 credentialString +:+ "."
                                   +:+ signature))])))
        end
    | _ => Throw (TypeError (invalid_key issuerDid))
    end.

(** A call of one of the methods that change the service, with the
    [readyState] of the sockets at the time of the call. *)
Inductive Operation :=
| OpInitialize (publicKey : list Byte.byte)
| OpRegister (did : Held) (socket : option conn) (now : string)
             (ready : conn → ReadyState)
| OpUnregister (did : Held)
| OpSend (fromDid : value) (toDid : Held) (message : value)
         (iv : list Byte.byte) (now uuid : string) (ready : conn → ReadyState)
| OpActivity (did : Held) (now : string)
| OpCleanup.

(** The service after a call, whether the call returned or threw. *)
Definition after_operation (svc : Service) (c : Operation) : Service :=
  match c with
  | OpInitialize publicKey => initialize svc publicKey
  | OpRegister did socket now ready =>
      (registerClient svc did socket now ready).1.1
  | OpUnregister did => (unregisterClient svc did).1
  | OpSend fromDid toDid message iv now uuid ready =>
      (sendEncryptedMessage svc fromDid toDid message iv now uuid ready).1.1
  | OpActivity did now => updateClientActivity svc did now
  | OpCleanup => cleanup svc
  end.

End Service.

End DIDCommService.

(** ** The WebSocket server (class WebSocketServer) *)

Module WebSocketServer.

Import WebhookManager DIDCommService.

(** An inbound message after [JSON.parse]: the properties the handlers
    read.  A property that is absent is [undefined]; [did] and [chatId],
    which the server uses as [Map] keys, are held values. *)
Record Message := {
  m_type : value;
  m_did : Held;
  m_chatId : Held;
  m_content : value;
  m_timestamp : value;
  m_sender : value;
  m_clientId : value;
  m_encryptedPayload : value;
  m_webhook : option WebhookInput;
  m_encryptedMessage : value;
  m_invite : value;
  m_inviteId : value;
  m_userDid : value
}.

(** Outbound envelopes, by their [type].  [invite_error] is
    [{ type: 'error', inviteId, message }]. *)
Inductive Envelope :=
| connection_established (clientId timestamp : string)
| authenticated (did : value) (didcommEnabled : bool)
                (serverDid : option string) (timestamp : string)
| auth_error (message : string)
| error (message : string)
| chat_message (enrichedMessage : Message)
| encrypted_chat (chatId encryptedPayload sender timestamp : value)
                 (clientId : string)
| encrypted_chat_sent (chatId : value) (sent : bool) (timestamp : string)
| encrypted_chat_error (message : string)
| user_online (did : value) (timestamp : string)
| user_offline (did : value) (timestamp : string)
| webhook_registered (chatId : value) (url secret : string) (active : bool)
| webhook_removed (chatId : value)
| webhook_error (message : string)
| webhook_test_result (chatId : value) (success : bool)
| pong (timestamp : string)
| didcomm_error (message : string)
| invite_error (inviteId : value) (message : string)
| invite_created (inviteId chatId credential : value)
| invite_used (inviteId : value) (success : bool)
| invite_revoked (inviteId : value) (success : bool)
| invites_list (chatId : value) (invites : list value)
| webhook_configured (chatId : value) (success : bool).

(** What the server does to the outside: [ws.send(JSON.stringify(m))] of an
    envelope on a socket, an object sent to a socket as it is (a frame of
    the DIDComm service, a decrypted message), a call of [ws.ping()] (which
    writes a ping frame on an open socket and nothing on a closing one), a
    call of [webhookManager.triggerWebhook], a step of a webhook
    delivery. *)
Inductive Action :=
| Send (ws : conn) (m : Envelope)
| SendObject (ws : conn) (o : value)
| Ping (ws : conn)
| TriggerWebhook (chatId : Held) (eventData : value)
| Delivery (ev : DeliveryEvent).

Definition is_object (a : Action) : bool :=
  match a with SendObject _ _ => true | _ => false end.

(** An action that is an envelope written to the socket [ws]. *)
Definition to_socket (ws : conn) (a : Action) : Prop :=
  ∃ m, a = Send ws m.

(** A value of [this.onlineUsers]. *)
Record UserInfo := {
  lastSeen : string;
  clientIds : gset conn
}.

(** The server object, with the [readyState] of every socket.
    [clientDids] maps a socket to the [did] it authenticated with,
    [onlineUsers] maps a [did] to its sockets. *)
Record State := {
  clients : list conn;
  clientDids : gmap conn Held;
  onlineUsers : gmap Key UserInfo;
  webhooks : webhooks_t;
  didCommService : Service;
  readyState : conn → ReadyState
}.

(** [new WebSocketServer()] *)
Definition init : State := {|
  clients := [];
  clientDids := ∅;
  onlineUsers := ∅;
  webhooks := ∅;
  didCommService := new;
  readyState := fun _ => CLOSED
|}.

Definition set_clients (st : State) (v : list conn) : State :=
  {| clients := v; clientDids := clientDids st; onlineUsers := onlineUsers st;
     webhooks := webhooks st; didCommService := didCommService st;
     readyState := readyState st |}.

Definition set_clientDids (st : State) (v : gmap conn Held) : State :=
  {| clients := clients st; clientDids := v; onlineUsers := onlineUsers st;
     webhooks := webhooks st; didCommService := didCommService st;
     readyState := readyState st |}.

Definition set_onlineUsers (st : State) (v : gmap Key UserInfo) : State :=
  {| clients := clients st; clientDids := clientDids st; onlineUsers := v;
     webhooks := webhooks st; didCommService := didCommService st;
     readyState := readyState st |}.

Definition set_webhooks (st : State) (v : webhooks_t) : State :=
  {| clients := clients st; clientDids := clientDids st;
     onlineUsers := onlineUsers st; webhooks := v;
     didCommService := didCommService st; readyState := readyState st |}.

Definition set_didCommService (st : State) (v : Service) : State :=
  {| clients := clients st; clientDids := clientDids st;
     onlineUsers := onlineUsers st; webhooks := webhooks st;
     didCommService := v; readyState := readyState st |}.

Definition set_readyState (st : State) (ws : conn) (r : ReadyState) : State :=
  {| clients := clients st; clientDids := clientDids st;
     onlineUsers := onlineUsers st; webhooks := webhooks st;
     didCommService := didCommService st;
     readyState := fun c => if decide (c = ws) then r else readyState st c |}.

(** [init()]: the DIDComm service is initialized before the server
    listens. *)
Definition start (publicKey : list Byte.byte) : State :=
  set_didCommService init (initialize new publicKey).

(** [Set.prototype.add] and [delete] on [this.clients]. *)
Definition set_add (ws : conn) (s : list conn) : list conn :=
  if decide (ws ∈ s) then s else s ++ [ws].

Definition set_delete (ws : conn) (s : list conn) : list conn :=
  filter (fun c => c ≠ ws) s.

Definition is_open (st : State) (ws : conn) : bool :=
  bool_decide (readyState st ws = OPEN).

(** [sendToClient(ws, message)] *)
Definition sendToClient (st : State) (ws : conn) (m : Envelope) : list Action :=
  if is_open st ws then [Send ws m] else [].

(** [broadcast(message)] *)
Definition broadcast (st : State) (m : Envelope) : list Action :=
  flat_map (fun client => if is_open st client then [Send client m] else [])
           (clients st).

(** [broadcast(message)] for an object. *)
Definition broadcastObject (st : State) (o : value) : list Action :=
  flat_map (fun client => if is_open st client then [SendObject client o] else [])
           (clients st).

(** [setUserOnline(did, ws)] *)
Definition setUserOnline (st : State) (did : Held) (ws : conn) (now : string)
  : State :=
  let info :=
    match onlineUsers st !! key did with
    | Some info => info
    | None => {| lastSeen := now; clientIds := ∅ |}
    end in
  set_onlineUsers st
    (<[key did := {| lastSeen := now; clientIds := {[ws]} ∪ clientIds info |}]>
       (onlineUsers st)).

(** [setUserOffline(did, ws)] *)
Definition setUserOffline (st : State) (did : Held) (ws : conn) : State :=
  match onlineUsers st !! key did with
  | Some userInfo =>
      let ids := clientIds userInfo ∖ {[ws]} in
      if decide (size ids = 0)
      then set_onlineUsers st (delete (key did) (onlineUsers st))
      else set_onlineUsers st
             (<[key did := {| lastSeen := lastSeen userInfo; clientIds := ids |}]>
                (onlineUsers st))
  | None => st
  end.

(** [broadcastUserOnline(did)] *)
Definition broadcastUserOnline (st : State) (did : Held) (now : string)
  : list Action :=
  broadcast st (user_online (json did) now).

(** [broadcastUserOffline(did)] *)
Definition broadcastUserOffline (st : State) (did : Held) (now : string)
  : list Action :=
  match onlineUsers st !! key did with
  | None => broadcast st (user_offline (json did) now)
  | Some _ => []
  end.

(** [handleConnection(ws, request)]; the transport hands over an open
    socket. *)
Definition handleConnection (st : State) (ws : conn) (clientId now : string)
  : State * list Action :=
  let st := set_clients st (set_add ws (clients st)) in
  (st, sendToClient st ws (connection_established clientId now)).

Definition frame (f : conn * value) : Action := SendObject f.1 f.2.

(** [handleAuthentication(ws, message, clientId)].  Any [did] that is
    truthy is taken.  It is stored in [clientDids] before the DIDComm
    service registers it; when the registration throws - its log line
    prints the [did] - the rest of the [try] block is skipped and the
    [catch] answers [auth_error].  [serverDid?.did] is [undefined] because
    [serverDid] is a string. *)
Definition handleAuthentication (st : State) (ws : conn) (message : Message)
    (clientId now : string) : State * list Action :=
  let did := m_did message in
  if negb (truthy (json did))
  then (st, sendToClient st ws (auth_error "DID é obrigatório"))
  else
    let st := set_clientDids st (<[ws := did]> (clientDids st)) in
    let '(svc, frames, registered) :=
      registerClient (didCommService st) did (Some ws) now (readyState st) in
    let st := set_didCommService st svc in
    match registered with
    | Return _ =>
        let st := setUserOnline st did ws now in
        (st,
         (frame <$> frames)
         ++ sendToClient st ws (authenticated (json did) true None now)
         ++ broadcastUserOnline st did now
         ++ try_catch (_ ← log [json did]; Return [])
              (fun _ => sendToClient st ws
                          (auth_error "Falha na autenticação DIDComm")))
    | Throw _ =>
        (st,
         (frame <$> frames)
         ++ sendToClient st ws (auth_error "Falha na autenticação DIDComm"))
    end.

(** [{...message, sender: senderDid, timestamp: now, clientId}] *)
Definition enrich (message : Message) (senderDid : Held) (now clientId : string)
  : Message :=
  {| m_type := m_type message;
     m_did := m_did message;
     m_chatId := m_chatId message;
     m_content := m_content message;
     m_timestamp := VStr now;
     m_sender := json senderDid;
     m_clientId := VStr clientId;
     m_encryptedPayload := m_encryptedPayload message;
     m_webhook := m_webhook message;
     m_encryptedMessage := m_encryptedMessage message;
     m_invite := m_invite message;
     m_inviteId := m_inviteId message;
     m_userDid := m_userDid message |}.

Definition headers_value (h : gmap string string) : value :=
  VObj ((fun kv : string * string => (kv.1, VStr kv.2)) <$> map_to_list h).

Definition webhook_value (w : WebhookInput) : value :=
  VObj [("url", VStr (in_url w));
        ("secret", of_str (in_secret w));
        ("retryAttempts", from_option VNum VUndefined (in_retryAttempts w));
        ("timeout", from_option VNum VUndefined (in_timeout w));
        ("headers", headers_value (in_headers w));
        ("events", in_events w)].

(** The message as the object [JSON.stringify] receives. *)
Definition message_value (m : Message) : value :=
  VObj [("type", m_type m);
        ("did", json (m_did m));
        ("chatId", json (m_chatId m));
        ("content", m_content m);
        ("timestamp", m_timestamp m);
        ("sender", m_sender m);
        ("clientId", m_clientId m);
        ("encryptedPayload", m_encryptedPayload m);
        ("webhook", from_option webhook_value VUndefined (m_webhook m));
        ("encryptedMessage", m_encryptedMessage m);
        ("invite", m_invite m);
        ("inviteId", m_inviteId m);
        ("userDid", m_userDid m)].

(** [this.clientDids.get(ws)] when it is truthy. *)
Definition senderDid_of (st : State) (ws : conn) : option Held :=
  match clientDids st !! ws with
  | Some did => if truthy (json did) then Some did else None
  | None => None
  end.

(** [handleChatMessage(ws, message, clientId)]: the server, what it did,
    and the exception the handler ended with, if any.  Its last statement
    is a log line that prints [senderDid] and [message.chatId]. *)
Definition handleChatMessage (st : State) (ws : conn) (message : Message)
    (clientId now : string) : State * list Action * option exn :=
  match senderDid_of st ws with
  | None => (st, sendToClient st ws (error "Cliente não autenticado"), None)
  | Some senderDid =>
      let enrichedMessage := enrich message senderDid now clientId in
      (st,
       broadcast st (chat_message enrichedMessage)
       ++ (if truthy (json (m_chatId message))
           then [TriggerWebhook (m_chatId message) (message_value enrichedMessage)]
           else []),
       thrown (log [json senderDid; json (m_chatId message)]))
  end.

(** [handleWebhookRegistration(ws, message, clientId)].  The manager and
    the handler each end with a log line that prints [message.chatId] and
    [senderDid]; both are inside the [try]. *)
Definition handleWebhookRegistration (st : State) (ws : conn) (message : Message)
    (clientId now generated : string) : State * list Action :=
  match senderDid_of st ws with
  | None => (st, sendToClient st ws (error "Cliente não autenticado"))
  | Some senderDid =>
      let '(whs, registered) :=
        registerWebhook (webhooks st) (m_chatId message) senderDid
                        (m_webhook message) now generated in
      (set_webhooks st whs,
       match registered with
       | Return webhook =>
           sendToClient st ws
             (webhook_registered (json (m_chatId message)) (url webhook)
                                 (secret webhook) (active webhook))
           ++ try_catch
                (_ ← log [json (m_chatId message); json senderDid]; Return [])
                (fun e => sendToClient st ws (webhook_error (JS.message e)))
       | Throw e => sendToClient st ws (webhook_error (JS.message e))
       end)
  end.

(** [handleWebhookRemoval(ws, message, clientId)] *)
Definition handleWebhookRemoval (st : State) (ws : conn) (message : Message)
    (clientId : string) : State * list Action :=
  match senderDid_of st ws with
  | None => (st, sendToClient st ws (error "Cliente não autenticado"))
  | Some senderDid =>
      let '(whs, removed) :=
        removeWebhook (webhooks st) (m_chatId message) senderDid in
      (set_webhooks st whs,
       match removed with
       | Return _ =>
           sendToClient st ws (webhook_removed (json (m_chatId message)))
           ++ try_catch
                (_ ← log [json (m_chatId message); json senderDid]; Return [])
                (fun e => sendToClient st ws (webhook_error (JS.message e)))
       | Throw e => sendToClient st ws (webhook_error (JS.message e))
       end)
  end.

Section Handlers.
Context `{Platform} `{Encoders}.

(** [handleDIDCommMessage(ws, message, clientId)].  The call passes
    [message.encryptedMessage] first and [senderDid] second, where
    [processReceivedMessage] expects the sender first and the encrypted
    message second. *)
Definition handleDIDCommMessage (st : State) (ws : conn) (message : Message)
    (clientId : string) : State * list Action :=
  match senderDid_of st ws with
  | None => (st, sendToClient st ws (error "Cliente não autenticado"))
  | Some senderDid =>
      let failure :=
        sendToClient st ws
          (didcomm_error "Falha ao processar mensagem criptografada") in
      match processReceivedMessage (m_encryptedMessage message)
                                   (json senderDid) with
      | Return decryptedMessage =>
          (st,
           broadcastObject st
             (VObj (obj_set
                      (assign [("type", VStr "didcomm_decrypted")]
                              decryptedMessage)
                      "clientId" (VStr clientId)))
           ++ try_catch (_ ← log [json senderDid]; Return [])
                (fun _ => failure))
      | Throw _ => (st, failure)
      end
  end.

End Handlers.

(** Reading a variable: a [ReferenceError] when no binding is in scope. *)
Definition var {A} (name : string) (binding : option A) : completion A :=
  match binding with
  | Some a => Return a
  | None => Throw (ReferenceError (name +:+ " is not defined"))
  end.

(** [handleEncryptedChat] binds [ws], [message], [clientId], [senderDid],
    [chatId], [encryptedPayload], [timestamp] and the loop variables
    [client], [clientDid]; the module binds [WebSocket], [WebhookManager],
    [DIDCommService] and [WebSocketServer].  Nothing binds [toDid]. *)
Definition toDid : option value := None.

(** [handleEncryptedChat(ws, message, clientId)].  The log line that prints
    [chatId] stands before the [try]. *)
Definition handleEncryptedChat (st : State) (ws : conn) (message : Message)
    (clientId now : string) : State * list Action * option exn :=
  match senderDid_of st ws with
  | None => (st, sendToClient st ws (error "Cliente não autenticado"), None)
  | Some senderDid =>
      let chatId := m_chatId message in
      let encryptedPayload := m_encryptedPayload message in
      if negb (truthy (json chatId)) || negb (truthy encryptedPayload)
      then (st, sendToClient st ws
                  (error "chatId e encryptedPayload são obrigatórios"), None)
      else
        match log [json chatId] with
        | Throw e => (st, [], Some e)
        | Return _ =>
            let relayed :=
              flat_map (fun client =>
                if bool_decide (client ≠ ws) && is_open st client then
                  match senderDid_of st client with
                  | Some clientDid =>
                      sendToClient st client
                        (encrypted_chat (json chatId) encryptedPayload
                                        (json senderDid) (m_timestamp message)
                                        clientId)
                  | None => []
                  end
                else []) (clients st) in
            let acknowledged :=
              sendToClient st ws (encrypted_chat_sent (json chatId) true now) in
            let rest : completion (list Action) :=
              triggered ←
                (if truthy (json chatId) then
                   to ← var "toDid" toDid;
                   mret [TriggerWebhook chatId
                           (VObj [("type", VStr "encrypted_message");
                                  ("from", json senderDid);
                                  ("to", to);
                                  ("encrypted", VBool true);
                                  ("timestamp", VStr now)])]
                 else mret []);
              to ← var "toDid" toDid;
              _ ← log [json senderDid; to];
              mret triggered in
            (st,
             relayed ++ acknowledged ++
             try_catch rest (fun _ =>
               sendToClient st ws
                 (encrypted_chat_error "Falha ao enviar mensagem criptografada")),
             None)
        end
  end.

(** [handleDisconnection(ws, clientId)].  Nothing catches what the log
    lines of [unregisterClient] and of the handler throw. *)
Definition handleDisconnection (st : State) (ws : conn) (clientId now : string)
  : State * list Action * option exn :=
  let did := senderDid_of st ws in
  let st := set_clients st (set_delete ws (clients st)) in
  let st := set_clientDids st (delete ws (clientDids st)) in
  match did with
  | Some did =>
      let '(svc, unregistered) := unregisterClient (didCommService st) did in
      let st := set_didCommService st svc in
      match unregistered with
      | Throw e => (st, [], Some e)
      | Return _ =>
          let st := setUserOffline st did ws in
          (st, broadcastUserOffline st did now, thrown (log [json did]))
      end
  | None => (st, [], None)
  end.

(** [handlePing(ws, clientId)] *)
Definition handlePing (st : State) (ws : conn) (now : string)
  : State * list Action :=
  (st, sendToClient st ws (pong now)).

Section Invites.
Context `{Platform} `{Encoders}.

(** [handleCreateInvite(ws, message, clientId)].  A log line that prints
    [chatId] and [issuerDid] stands before the [try]; the one that prints
    [invite.inviteId] is inside it, after [invite_created] is sent. *)
Definition handleCreateInvite (st : State) (ws : conn) (message : Message)
    (clientId now : string) : State * list Action * option exn :=
  let chatId := m_chatId message in
  let invite := m_invite message in
  let refused :=
    (st, sendToClient st ws
           (invite_error (optional_prop invite "inviteId")
                         "DID, chatId ou invite não fornecido"), None) in
  match senderDid_of st ws with
  | Some issuerDid =>
      if negb (truthy (json chatId)) || negb (truthy invite) then refused
      else
        match log [json chatId; json issuerDid] with
        | Throw e => (st, [], Some e)
        | Return _ =>
            let failure (e : exn) :=
              sendToClient st ws
                (invite_error (optional_prop invite "inviteId")
                              ("Erro ao criar convite: " +:+ JS.message e)) in
            match signCredential (didCommService st)
                    (optional_prop invite "credential") (json issuerDid) now with
            | Return signedCredential =>
                (st,
                 sendToClient st ws
                   (invite_created (optional_prop invite "inviteId")
                                   (json chatId) signedCredential)
                 ++ try_catch
                      (_ ← log [optional_prop invite "inviteId"]; Return [])
                      failure,
                 None)
            | Throw e => (st, failure e, None)
            end
        end
  | None => refused
  end.

End Invites.

(** [handleUseInvite(ws, message, clientId)] *)
Definition handleUseInvite (st : State) (ws : conn) (message : Message)
  : State * list Action * option exn :=
  let inviteId := m_inviteId message in
  let userDid := m_userDid message in
  if negb (truthy inviteId) || negb (truthy userDid)
  then (st, sendToClient st ws (error "inviteId ou userDid não fornecido"), None)
  else
    match log [userDid; inviteId] with
    | Throw e => (st, [], Some e)
    | Return _ => (st, sendToClient st ws (invite_used inviteId true), None)
    end.

(** [handleRevokeInvite(ws, message, clientId)] *)
Definition handleRevokeInvite (st : State) (ws : conn) (message : Message)
  : State * list Action * option exn :=
  let inviteId := m_inviteId message in
  if negb (truthy inviteId)
  then (st, sendToClient st ws (error "inviteId não fornecido"), None)
  else
    match log [inviteId] with
    | Throw e => (st, [], Some e)
    | Return _ => (st, sendToClient st ws (invite_revoked inviteId true), None)
    end.

(** [handleListInvites(ws, message, clientId)] *)
Definition handleListInvites (st : State) (ws : conn) (message : Message)
  : State * list Action * option exn :=
  let chatId := json (m_chatId message) in
  if negb (truthy chatId)
  then (st, sendToClient st ws (error "chatId não fornecido"), None)
  else
    match log [chatId] with
    | Throw e => (st, [], Some e)
    | Return _ => (st, sendToClient st ws (invites_list chatId []), None)
    end.

(** [handleConfigureWebhook(ws, message, clientId)].  The call
    [registerWebhook(chatId, { url, events, ownerDid })] has two arguments:
    the object lands in the parameter [ownerDid], and [webhookConfig] is
    [undefined]. *)
Definition handleConfigureWebhook (st : State) (ws : conn) (message : Message)
    (clientId now generated : string) : State * list Action * option exn :=
  let chatId := m_chatId message in
  let refused :=
    (st, sendToClient st ws (error "DID, chatId ou webhook não fornecido"),
     None) in
  match senderDid_of st ws, m_webhook message with
  | Some ownerDid, Some webhook =>
      if negb (truthy (json chatId)) then refused
      else
        match log [json chatId] with
        | Throw e => (st, [], Some e)
        | Return _ =>
            let second :=
              {| json :=
                   VObj [("url", VStr (in_url webhook));
                         ("events", if truthy (in_events webhook)
                                    then in_events webhook else VArr []);
                         ("ownerDid", json ownerDid)];
                 object_id := 0 |} in
            let '(whs, registered) :=
              registerWebhook (webhooks st) chatId second None now generated in
            (set_webhooks st whs,
             match registered with
             | Return _ =>
                 sendToClient st ws (webhook_configured (json chatId) true)
                 ++ try_catch (_ ← log [json chatId]; Return [])
                      (fun e => sendToClient st ws
                                  (error ("Erro ao configurar webhook: "
                                          +:+ JS.message e)))
             | Throw e =>
                 sendToClient st ws
                   (error ("Erro ao configurar webhook: " +:+ JS.message e))
             end,
             None)
        end
  | _, _ => refused
  end.

(** [handleTestWebhook(ws, message, clientId)].  The log line that prints
    [chatId] stands before the [try]; the [catch] answers like a test that
    failed. *)
Definition handleTestWebhook (st : State) (ws : conn) (message : Message)
    (clientId now : string) (endpoint : nat → Outcome)
  : State * list Action * option exn :=
  let chatId := m_chatId message in
  match senderDid_of st ws with
  | Some ownerDid =>
      if negb (truthy (json chatId))
      then (st, sendToClient st ws (error "DID ou chatId não fornecido"), None)
      else
        match log [json chatId] with
        | Throw e => (st, [], Some e)
        | Return _ =>
            let '(result, evs) :=
              testWebhook (webhooks st) chatId
                [("type", VStr "test"); ("chatId", json chatId);
                 ("message", VStr "Teste de webhook"); ("timestamp", VStr now)]
                now endpoint in
            (st,
             (Delivery <$> evs)
             ++ sendToClient st ws
                  (webhook_test_result (json chatId)
                     (match result with Return success => success
                                      | Throw _ => false end)),
             None)
        end
  | None => (st, sendToClient st ws (error "DID ou chatId não fornecido"), None)
  end.

(** A handler that does not throw. *)
Definition returned (r : State * list Action) : State * list Action * option exn :=
  (r.1, r.2, None).

Section Router.
Context `{Platform} `{Encoders}.

(** The [switch] of [handleMessage]; an unknown [type] is printed in a log
    line. *)
Definition dispatch (st : State) (ws : conn) (message : Message)
    (clientId now generated : string) (endpoint : nat → Outcome)
  : State * list Action * option exn :=
  match m_type message with
  | VStr type =>
      if String.eqb type "authenticate" || String.eqb type "auth" then
        returned (handleAuthentication st ws message clientId now)
      else if String.eqb type "chat_message" then
        handleChatMessage st ws message clientId now
      else if String.eqb type "didcomm_message" then
        returned (handleDIDCommMessage st ws message clientId)
      else if String.eqb type "encrypted_chat" then
        handleEncryptedChat st ws message clientId now
      else if String.eqb type "register_webhook" then
        returned (handleWebhookRegistration st ws message clientId now generated)
      else if String.eqb type "remove_webhook" then
        returned (handleWebhookRemoval st ws message clientId)
      else if String.eqb type "create_invite" then
        handleCreateInvite st ws message clientId now
      else if String.eqb type "use_invite" then
        handleUseInvite st ws message
      else if String.eqb type "revoke_invite" then
        handleRevokeInvite st ws message
      else if String.eqb type "list_invites" then
        handleListInvites st ws message
      else if String.eqb type "configure_webhook" then
        handleConfigureWebhook st ws message clientId now generated
      else if String.eqb type "test_webhook" then
        handleTestWebhook st ws message clientId now endpoint
      else if String.eqb type "ping" then
        returned (handlePing st ws now)
      else (st, [], None)
  | type => (st, [], thrown (log [type]))
  end.

(** [handleMessage(ws, data, clientId)]; [parsed] is [None] when
    [JSON.parse(data)] throws or returns [null], so that reading
    [message.type] throws.  Whatever a handler throws is caught here and
    answered with an [error] envelope. *)
Definition handleMessage (st : State) (ws : conn) (parsed : option Message)
    (clientId now generated : string) (endpoint : nat → Outcome)
  : State * list Action :=
  match parsed with
  | None => (st, sendToClient st ws (error "Formato de mensagem inválido"))
  | Some message =>
      let r := dispatch st ws message clientId now generated endpoint in
      (r.1.1,
       r.1.2 ++ match r.2 with
                | Some _ =>
                    sendToClient r.1.1 ws (error "Formato de mensagem inválido")
                | None => []
                end)
  end.

End Router.

(** A socket that [cleanupConnections] keeps. *)
Definition kept (st : State) (client : conn) : bool :=
  negb (bool_decide (readyState st client = CLOSED)).

(** The [forEach] of [cleanupConnections] over the sockets still to visit.
    A closed socket is unregistered and dropped; every other socket is
    pinged, and [ping()] throws on a socket that is still connecting.  An
    exception ends the loop. *)
Fixpoint sweep (st : State) (visit : list conn)
  : State * list Action * option exn :=
  match visit with
  | [] => (st, [], None)
  | client :: rest =>
      if bool_decide (readyState st client = CLOSED) then
        let '(svc, unregistered) :=
          match senderDid_of st client with
          | Some did => unregisterClient (didCommService st) did
          | None => (didCommService st, Return tt)
          end in
        let st := set_didCommService st svc in
        match unregistered with
        | Throw e => (st, [], Some e)
        | Return _ =>
            let st := set_clients st (set_delete client (clients st)) in
            let st := set_clientDids st (delete client (clientDids st)) in
            sweep st rest
        end
      else if bool_decide (readyState st client = CONNECTING) then
        (st, [],
         Some (Error "WebSocket is not open: readyState 0 (CONNECTING)"))
      else
        let r := sweep st rest in
        (r.1.1, Ping client :: r.1.2, r.2)
  end.

(** [cleanupConnections()]: one pass over [this.clients], then the
    [cleanup] of the DIDComm service.  A socket that is pinged is
    terminated five seconds later if no pong has arrived, which the server
    then sees as the socket's [close] event. *)
Definition cleanupConnections (st : State) : State * list Action * option exn :=
  let r := sweep st (clients st) in
  match r.2 with
  | Some e => r
  | None =>
      (set_didCommService r.1.1 (cleanup (didCommService r.1.1)), r.1.2, None)
  end.

(** The object [getStats()] returns, without the process uptime. *)
Record Stats := {
  totalConnections : nat;
  stat_onlineUsers : nat;
  activeWebhooks : nat;
  didcomm_enabled : bool;
  registeredClients : nat
}.

(** [getStats()] *)
Definition getStats (st : State) : Stats :=
  {| totalConnections := List.length (clients st);
     stat_onlineUsers := size (onlineUsers st);
     activeWebhooks := List.length (listWebhooks (webhooks st));
     didcomm_enabled := isInitialized (didCommService st);
     registeredClients := size (clientDids st) |}.

(** *** Traces of server events

    What the transport and the timers present to the server: a new socket
    (open, and not among the current clients), a message on a current
    client, a current client that starts to close (its [readyState] becomes
    [CLOSING] and it stays in [this.clients]), the [close] event of a
    current client (its [readyState] is then [CLOSED]), a tick of the
    30-second cleanup timer. *)
Inductive Event :=
| Connection (ws : conn) (clientId now : string)
| Incoming (ws : conn) (parsed : option Message) (clientId now generated : string)
           (endpoint : nat → Outcome)
| Closing (ws : conn)
| Close (ws : conn) (clientId now : string)
| Interval.

Section Traces.
Context `{Platform} `{Encoders}.

(** One event: the server afterwards, what it did, and the exception that
    left the listener, if any.  [None] when the event cannot occur.  A
    listener runs to its end before the next event is taken: the only
    handler that waits for something outside the process is
    [handleChatMessage], for the webhook delivery, and all it does after
    the wait is its log line. *)
Definition step (st : State) (ev : Event)
  : option (State * list Action * option exn) :=
  match ev with
  | Connection ws clientId now =>
      if decide (ws ∈ clients st) then None
      else Some (returned
                   (handleConnection (set_readyState st ws OPEN) ws clientId now))
  | Incoming ws parsed clientId now generated endpoint =>
      if decide (ws ∈ clients st)
      then Some (returned
                   (handleMessage st ws parsed clientId now generated endpoint))
      else None
  | Closing ws =>
      if decide (ws ∈ clients st)
      then Some (set_readyState st ws CLOSING, [], None)
      else None
  | Close ws clientId now =>
      if decide (ws ∈ clients st)
      then Some (handleDisconnection (set_readyState st ws CLOSED) ws clientId now)
      else None
  | Interval => Some (cleanupConnections st)
  end.

(** A trace, as long as the server runs.  An exception that leaves a
    [close] listener or the cleanup timer is caught by nobody: the process
    stops the server and exits, and the trace cannot go on. *)
Fixpoint run (st : State) (trace : list Event) : option (State * list Action) :=
  match trace with
  | [] => Some (st, [])
  | ev :: trace' =>
      match step st ev with
      | Some (st', out, None) =>
          match run st' trace' with
          | Some (st'', out') => Some (st'', out ++ out')
          | None => None
          end
      | _ => None
      end
  end.

End Traces.

(** A [type] that [handleMessage] routes to [handleAuthentication]. *)
Definition is_authenticate (type : value) : bool :=
  match type with
  | VStr type => String.eqb type "authenticate" || String.eqb type "auth"
  | _ => false
  end.

(** Presence as the server reports it: [this.onlineUsers.has(did)]. *)
Definition online (st : State) (did : Key) : bool :=
  bool_decide (is_Some (onlineUsers st !! did)).

(** The socket [c] is authenticated under the string [did]. *)
Definition authenticated_as (st : State) (c : conn) (did : string) : Prop :=
  ∃ d, clientDids st !! c = Some d ∧ json d = VStr did.

(** The envelopes a socket received. *)
Definition received (ws : conn) (out : list Action) : list Envelope :=
  omap (fun a => match a with
                 | Send c m => if decide (c = ws) then Some m else None
                 | _ => None
                 end) out.

Definition is_user_offline (did : string) (m : Envelope) : bool :=
  match m with
  | user_offline (VStr d) _ => String.eqb d did
  | _ => false
  end.

Definition is_user_online (did : string) (m : Envelope) : bool :=
  match m with
  | user_online (VStr d) _ => String.eqb d did
  | _ => false
  end.

(** An action that tells a socket that an identity went offline. *)
Definition is_offline (a : Action) : bool :=
  match a with Send _ (user_offline _ _) => true | _ => false end.

Definition is_trigger (a : Action) : bool :=
  match a with TriggerWebhook _ _ => true | _ => false end.

Definition triggers (out : list Action) : list Action :=
  List.filter is_trigger out.

(** How many [user_offline] envelopes for the string [did] a socket
    received. *)
Definition offline_events (did : string) (ws : conn) (out : list Action) : nat :=
  List.length (List.filter (is_user_offline did) (received ws out)).

Definition online_events (did : string) (ws : conn) (out : list Action) : nat :=
  List.length (List.filter (is_user_online did) (received ws out)).

(** [ev] is the [close] event of the only socket that is authenticated as
    [did]. *)
Definition last_close (st : State) (did : string) (ev : Event) : Prop :=
  ∃ c clientId now,
    ev = Close c clientId now
    ∧ authenticated_as st c did
    ∧ ∀ c', authenticated_as st c' did → c' = c.

(** [ev] keeps to the assignment [ident] of identities to sockets: an
    authentication on socket [ws] that names an identity names the string
    [ident ws]. *)
Definition respects (ident : conn → string) (ev : Event) : Prop :=
  match ev with
  | Incoming ws (Some message) _ _ _ _ =>
      is_authenticate (m_type message) = true →
      truthy (json (m_did message)) = true →
      json (m_did message) = VStr (ident ws)
  | _ => True
  end.

(** [ev] is no authentication with an identity that has a string as its
    [content]: such an identity is an object, [{ "content": "..." }]. *)
Definition without_content (ev : Event) : Prop :=
  match ev with
  | Incoming ws (Some message) _ _ _ _ =>
      is_authenticate (m_type message) = true →
      ∀ text, optional_prop (json (m_did message)) "content" ≠ VStr text
  | _ => True
  end.

(** No authenticated socket has such an identity. *)
Definition plain (st : State) : Prop :=
  ∀ c d, clientDids st !! c = Some d →
         ∀ text, optional_prop (json d) "content" ≠ VStr text.

(** What holds of the server state along a trace in which every socket
    keeps to one identity, a string: the clients are distinct sockets that
    are open or closing, only clients are authenticated, and for every
    identity the sockets recorded in [onlineUsers] are exactly the clients
    authenticated under it, the entry being present only when there is
    one. *)
Record consistent (ident : conn → string) (st : State) : Prop := {
  clients_nodup : NoDup (clients st);
  clients_live :
    ∀ c, c ∈ clients st → readyState st c = OPEN ∨ readyState st c = CLOSING;
  dids_clients :
    ∀ c d, clientDids st !! c = Some d →
           c ∈ clients st ∧ json d = VStr (ident c) ∧ ident c ≠ "";
  online_ids :
    ∀ k c, (∃ d, clientDids st !! c = Some d ∧ key d = k) ↔
           ∃ info, onlineUsers st !! k = Some info ∧ c ∈ clientIds info;
  online_nonempty :
    ∀ k info, onlineUsers st !! k = Some info → clientIds info ≠ ∅
}.

(** Two states with the same sockets, identities and presence. *)
Definition same_connections (st st' : State) : Prop :=
  clients st' = clients st
  ∧ clientDids st' = clientDids st
  ∧ onlineUsers st' = onlineUsers st
  ∧ readyState st' = readyState st.

Section Effects.
Context `{Platform}.


End Effects.

End WebSocketServer.

(** ** CredentialCryptoService.js *)

Module CredentialCryptoService.

Definition algorithm : string := "aes-256-cbc".
Definition keyLength : Z := 32.
Definition ivLength : Z := 16.
Definition iterations : Z := 100000.

(** The object [encryptCredential] returns. *)
Record EncryptedCredential := {
  enc_version : string;
  enc_algorithm : string;
  encrypted : string;
  salt : string;
  iv : string;
  createdAt : string;
  userDid : string;
  checksum : string
}.

(** The object [validateCredentialIntegrity] returns. *)
Record IntegrityReport := {
  valid : bool;
  currentChecksum : string;
  originalChecksum : string;
  rep_algorithm : string;
  rep_createdAt : string
}.

(** [try { body } catch (error) { throw new Error(msg) }] *)
Definition rethrow_as {A} (msg : string) (body : completion A) : completion A :=
  match body with
  | Return a => Return a
  | Throw _ => Throw (Error msg)
  end.

Section Service.
Context `{Platform}.

(** [deriveKey(userDid, salt)] *)
Definition deriveKey (userDid : string) (salt : list Byte.byte) : list Byte.byte :=
  pbkdf2 userDid salt iterations keyLength "sha256".

(** [calculateChecksum(data)] *)
Definition calculateChecksum (data : string) : string := sha256_hex data.

(** [encryptCredential(userDid, credential)]; [salt_bytes] and [iv_bytes]
    are what the two [crypto.randomBytes] calls return, [now] the clock. *)
Definition encryptCredential (userDid : string) (credential : value)
    (salt_bytes iv_bytes : list Byte.byte) (now : string)
  : completion EncryptedCredential :=
  rethrow_as "Falha na criptografia da credencial"
    (if negb (truthy (VStr userDid)) || negb (truthy credential)
     then Throw (Error "DID do usuário e credencial são obrigatórios")
     else
       let key := deriveKey userDid salt_bytes in
       let plaintext := JSON_stringify credential in
       let encrypted := createCipher_hex algorithm key plaintext in
       Return {|
         enc_version := "1.0";
         enc_algorithm := algorithm;
         encrypted := encrypted;
         salt := to_hex salt_bytes;
         iv := to_hex iv_bytes;
         createdAt := now;
         userDid := userDid;
         checksum := calculateChecksum encrypted
       |}).

(** [decryptCredential(userDid, encryptedCredential)]; a missing blob is
    [None]. *)
Definition decryptCredential (userDid : string)
    (encryptedCredential : option EncryptedCredential) : completion value :=
  rethrow_as "Falha na descriptografia da credencial"
    (match encryptedCredential with
     | Some blob =>
         if negb (truthy (VStr userDid))
         then Throw (Error "DID do usuário e credencial criptografada são obrigatórios")
         else if negb (String.eqb (CredentialCryptoService.userDid blob) userDid)
         then Throw (Error "Credencial não pertence ao usuário")
         else
           let salt := from_hex (salt blob) in
           let key := deriveKey userDid salt in
           match createDecipher_utf8 algorithm key (encrypted blob) with
           | None => Throw (Error "bad decrypt")
           | Some decrypted =>
               match JSON_parse decrypted with
               | None => Throw (Error "Unexpected token in JSON")
               | Some credential => Return credential
               end
           end
     | None =>
         Throw (Error "DID do usuário e credencial criptografada são obrigatórios")
     end).

(** [validateCredentialIntegrity(encryptedCredential)] *)
Definition validateCredentialIntegrity (blob : EncryptedCredential)
  : IntegrityReport :=
  let currentChecksum := calculateChecksum (encrypted blob) in
  let originalChecksum := checksum blob in
  {| valid := String.eqb currentChecksum originalChecksum;
     currentChecksum := currentChecksum;
     originalChecksum := originalChecksum;
     rep_algorithm := enc_algorithm blob;
     rep_createdAt := createdAt blob |}.

End Service.

(** A copy of a blob with another ciphertext / another stored checksum. *)
Definition with_encrypted (blob : EncryptedCredential) (e : string)
  : EncryptedCredential :=
  {| enc_version := enc_version blob; enc_algorithm := enc_algorithm blob;
     encrypted := e; salt := salt blob; iv := iv blob;
     createdAt := createdAt blob; userDid := userDid blob;
     checksum := checksum blob |}.

Definition with_checksum (blob : EncryptedCredential) (c : string)
  : EncryptedCredential :=
  {| enc_version := enc_version blob; enc_algorithm := enc_algorithm blob;
     encrypted := encrypted blob; salt := salt blob; iv := iv blob;
     createdAt := createdAt blob; userDid := userDid blob;
     checksum := c |}.


(** *** Backups *)

(** [Buffer.from(v, 'hex')] for an array or an object [v], taken as an
    interface; [None] when it throws. *)
Class Buffers := {
  Buffer_from_object : value → option (list Byte.byte)
}.

(** An encrypted credential as the object [JSON.stringify] receives. *)
Definition credential_value (blob : EncryptedCredential) : value :=
  VObj [("version", VStr (enc_version blob));
        ("algorithm", VStr (enc_algorithm blob));
        ("encrypted", VStr (encrypted blob));
        ("salt", VStr (salt blob));
        ("iv", VStr (iv blob));
        ("createdAt", VStr (createdAt blob));
        ("userDid", VStr (userDid blob));
        ("checksum", VStr (checksum blob))].

(** The object [createEncryptedBackup] returns. *)
Record EncryptedBackup := {
  bk_version : string;
  bk_encrypted : string;
  bk_salt : string;
  bk_createdAt : string;
  bk_checksum : string
}.

(** The [backupData] object of [createEncryptedBackup]. *)
Definition backupData (userDid now : string) (credentialsCount : nat)
    (encryptedCredentials : list EncryptedCredential) : value :=
  VObj [("version", VStr "1.0");
        ("userDid", VStr userDid);
        ("createdAt", VStr now);
        ("credentialsCount", VNum (Z.of_nat credentialsCount));
        ("credentials", VArr (credential_value <$> encryptedCredentials))].

(** What [crypto.randomBytes] and the clock give while one credential is
    encrypted. *)
Record Draw := {
  draw_salt : list Byte.byte;
  draw_iv : list Byte.byte;
  draw_now : string
}.

Section Backup.
Context `{Platform} `{Buffers}.

(** [deriveKeyFromPassword(password, salt)] *)
Definition deriveKeyFromPassword (password : string) (salt : list Byte.byte)
  : list Byte.byte :=
  pbkdf2 password salt iterations keyLength "sha256".

(** [Buffer.from(v, 'hex')] for a value that [JSON.parse] returned. *)
Definition Buffer_from_hex (v : value) : completion (list Byte.byte) :=
  match v with
  | VStr s => Return (from_hex s)
  | VArr _ | VObj _ =>
      match Buffer_from_object v with
      | Some bytes => Return bytes
      | None => Throw (TypeError "The first argument must be of type string")
      end
  | VUndefined | VNull | VBool _ | VNum _ =>
      Throw (TypeError "The first argument must be of type string")
  end.

(** [decryptCredential(userDid, encryptedCredential)] for an
    [encryptedCredential] that [JSON.parse] returned. *)
Definition decryptCredential_value (userDid : string)
    (encryptedCredential : value) : completion value :=
  rethrow_as "Falha na descriptografia da credencial"
    (if negb (truthy (VStr userDid)) || negb (truthy encryptedCredential)
     then Throw (Error "DID do usuário e credencial criptografada são obrigatórios")
     else
       match optional_prop encryptedCredential "userDid" with
       | VStr owner =>
           if negb (String.eqb owner userDid)
           then Throw (Error "Credencial não pertence ao usuário")
           else
             salt ← Buffer_from_hex (optional_prop encryptedCredential "salt");
             let key := deriveKey userDid salt in
             match optional_prop encryptedCredential "encrypted" with
             | VStr encrypted =>
                 match createDecipher_utf8 algorithm key encrypted with
                 | None => Throw (Error "bad decrypt")
                 | Some decrypted =>
                     match JSON_parse decrypted with
                     | None => Throw (Error "Unexpected token in JSON")
                     | Some credential => Return credential
                     end
                 end
             | _ => Throw (TypeError invalid_data)
             end
       | _ => Throw (Error "Credencial não pertence ao usuário")
       end).

(** The loop of [createEncryptedBackup]: the [i]-th credential is encrypted
    with the [i]-th draw. *)
Fixpoint encrypt_each (userDid : string) (credentials : list value)
    (draw : nat → Draw) (i : nat) : completion (list EncryptedCredential) :=
  match credentials with
  | [] => Return []
  | credential :: credentials' =>
      encrypted ← encryptCredential userDid credential (draw_salt (draw i))
                    (draw_iv (draw i)) (draw_now (draw i));
      rest ← encrypt_each userDid credentials' draw (S i);
      Return (encrypted :: rest)
  end.

(** [createEncryptedBackup(userDid, credentials, backupPassword)];
    [salt_bytes] is the salt drawn for the backup, [now] and [later] are the
    two readings of the clock. *)
Definition createEncryptedBackup (userDid : string) (credentials : value)
    (backupPassword : string) (draw : nat → Draw)
    (salt_bytes : list Byte.byte) (now later : string)
  : completion EncryptedBackup :=
  rethrow_as "Falha na criação do backup"
    (match credentials with
     | VArr items =>
         encryptedCredentials ← encrypt_each userDid items draw 0;
         let backupJson :=
           JSON_stringify
             (backupData userDid now (List.length items) encryptedCredentials) in
         let key := deriveKeyFromPassword backupPassword salt_bytes in
         let encryptedBackup := createCipher_hex algorithm key backupJson in
         Return {| bk_version := "1.0";
                   bk_encrypted := encryptedBackup;
                   bk_salt := to_hex salt_bytes;
                   bk_createdAt := later;
                   bk_checksum := calculateChecksum encryptedBackup |}
     | _ => Throw (Error "Credenciais devem ser um array")
     end).

(** The loop of [restoreEncryptedBackup]. *)
Fixpoint decrypt_each (userDid : string) (items : list value)
  : completion (list value) :=
  match items with
  | [] => Return []
  | encryptedCredential :: items' =>
      credential ← decryptCredential_value userDid encryptedCredential;
      rest ← decrypt_each userDid items';
      Return (credential :: rest)
  end.

(** [for (const x of v)] on a value that [JSON.parse] returned: the items
    of an array, the characters of a string; nothing else is iterable. *)
Definition iterate (v : value) : completion (list value) :=
  match v with
  | VArr items => Return items
  | VStr s =>
      Return ((fun c : ascii => VStr (String c EmptyString))
                <$> list_ascii_of_string s)
  | _ => Throw (TypeError "backupData.credentials is not iterable")
  end.

(** [restoreEncryptedBackup(userDid, encryptedBackup, backupPassword)];
    reading a optional_prop of [null] throws. *)
Definition restoreEncryptedBackup (userDid : string)
    (encryptedBackup : EncryptedBackup) (backupPassword : string)
  : completion (list value) :=
  rethrow_as "Falha na restauração do backup"
    (let salt := from_hex (bk_salt encryptedBackup) in
     let key := deriveKeyFromPassword backupPassword salt in
     match createDecipher_utf8 algorithm key (bk_encrypted encryptedBackup) with
     | None => Throw (Error "bad decrypt")
     | Some decryptedBackup =>
         match JSON_parse decryptedBackup with
         | None => Throw (Error "Unexpected token in JSON")
         | Some VNull =>
             Throw (TypeError "Cannot read properties of null (reading 'userDid')")
         | Some backupData =>
             match optional_prop backupData "userDid" with
             | VStr owner =>
                 if negb (String.eqb owner userDid)
                 then Throw (Error "Backup não pertence ao usuário")
                 else
                   items ← iterate (optional_prop backupData "credentials");
                   decrypt_each userDid items
             | _ => Throw (Error "Backup não pertence ao usuário")
             end
         end
     end).

(** A credential that survives encryption under the key of [userDid] and
    [salt]: the serializer and the cipher round-trip it. *)
Definition round_trips (userDid : string) (salt : list Byte.byte)
    (credential : value) : Prop :=
  JSON_parse (JSON_stringify credential) = Some credential
  ∧ createDecipher_utf8 algorithm (deriveKey userDid salt)
      (createCipher_hex algorithm (deriveKey userDid salt)
         (JSON_stringify credential))
    = Some (JSON_stringify credential).

End Backup.

End CredentialCryptoService.


(** ** A reference platform

    Small executable stand-ins for the Node.js built-ins, so that the model
    runs on concrete inputs: a JSON printer and parser for the [value]s
    above, a byte-wise keyed cipher with a checked final byte, a 32-bit
    rolling hash, a parser for [http(s)://host[:port]/path?query], and the
    header checks on ASCII strings. *)

Module Reference.

Definition dquote : ascii := ascii_of_nat 34.
Definition backslash : ascii := ascii_of_nat 92.

Fixpoint escape (s : string) : string :=
  match s with
  | EmptyString => EmptyString
  | String c s' =>
      if Ascii.eqb c dquote || Ascii.eqb c backslash
      then String backslash (String c (escape s'))
      else String c (escape s')
  end.

Definition quote (s : string) : string :=
  String dquote (escape s +:+ String dquote EmptyString).

(** Properties whose value is [undefined] are left out. *)
Fixpoint stringify (v : value) : string :=
  match v with
  | VUndefined | VNull => "null"
  | VBool true => "true"
  | VBool false => "false"
  | VNum n => pretty n
  | VStr s => quote s
  | VArr items =>
      "[" +:+
      (fix go (l : list value) : string :=
         match l with
         | [] => EmptyString
         | [x] => stringify x
         | x :: l' => stringify x +:+ "," +:+ go l'
         end) items +:+ "]"
  | VObj fields =>
      "{" +:+
      (fix go (first : bool) (l : list (string * value)) : string :=
         match l with
         | [] => EmptyString
         | (_, VUndefined) :: l' => go first l'
         | (k, x) :: l' =>
             (if first then EmptyString else ",") +:+
             quote k +:+ ":" +:+ stringify x +:+ go false l'
         end) true fields +:+ "}"
  end.

(** The characters of a string literal up to its closing quote. *)
Fixpoint parse_chars (s : string) : option (string * string) :=
  match s with
  | EmptyString => None
  | String c s' =>
      if Ascii.eqb c dquote then Some (EmptyString, s')
      else if Ascii.eqb c backslash then
        match s' with
        | String c' s'' =>
            match parse_chars s'' with
            | Some (r, rest) => Some (String c' r, rest)
            | None => None
            end
        | EmptyString => None
        end
      else
        match parse_chars s' with
        | Some (r, rest) => Some (String c r, rest)
        | None => None
        end
  end.

Definition is_digit (c : ascii) : bool :=
  let n := N_of_ascii c in (48 <=? n)%N && (n <=? 57)%N.

Fixpoint parse_digits (acc : Z) (s : string) : Z * string :=
  match s with
  | String c s' =>
      if is_digit c
      then parse_digits (10 * acc + Z.of_N (N_of_ascii c - 48)) s'
      else (acc, s)
  | EmptyString => (acc, s)
  end.

Definition drop_prefix (p s : string) : option string :=
  if String.prefix p s
  then Some (String.substring (String.length p) (String.length s - String.length p) s)
  else None.

(** Recursive descent; [fuel] bounds the number of values still to read. *)
Fixpoint parse_value (fuel : nat) (s : string) : option (value * string) :=
  match fuel with
  | O => None
  | S fuel' =>
      match s with
      | EmptyString => None
      | String c s' =>
          if Ascii.eqb c dquote then
            match parse_chars s' with
            | Some (r, rest) => Some (VStr r, rest)
            | None => None
            end
          else if Ascii.eqb c "["%char then
            match s' with
            | String "]"%char rest => Some (VArr [], rest)
            | _ =>
                match parse_items fuel' s' with
                | Some (items, rest) => Some (VArr items, rest)
                | None => None
                end
            end
          else if Ascii.eqb c "{"%char then
            match s' with
            | String "}"%char rest => Some (VObj [], rest)
            | _ =>
                match parse_fields fuel' s' with
                | Some (fields, rest) => Some (VObj fields, rest)
                | None => None
                end
            end
          else if Ascii.eqb c "-"%char then
            match s' with
            | String d _ =>
                if is_digit d
                then let '(n, rest) := parse_digits 0 s' in Some (VNum (- n), rest)
                else None
            | EmptyString => None
            end
          else if is_digit c then
            let '(n, rest) := parse_digits 0 s in Some (VNum n, rest)
          else
            match drop_prefix "null" s, drop_prefix "true" s, drop_prefix "false" s with
            | Some rest, _, _ => Some (VNull, rest)
            | _, Some rest, _ => Some (VBool true, rest)
            | _, _, Some rest => Some (VBool false, rest)
            | _, _, _ => None
            end
      end
  end
with parse_items (fuel : nat) (s : string) : option (list value * string) :=
  match fuel with
  | O => None
  | S fuel' =>
      match parse_value fuel' s with
      | Some (x, String ","%char rest) =>
          match parse_items fuel' rest with
          | Some (items, rest') => Some (x :: items, rest')
          | None => None
          end
      | Some (x, String "]"%char rest) => Some ([x], rest)
      | _ => None
      end
  end
with parse_fields (fuel : nat) (s : string)
  : option (list (string * value) * string) :=
  match fuel with
  | O => None
  | S fuel' =>
      match s with
      | String q s' =>
          if Ascii.eqb q dquote then
            match parse_chars s' with
            | Some (k, String ":"%char rest) =>
                match parse_value fuel' rest with
                | Some (x, String ","%char rest') =>
                    match parse_fields fuel' rest' with
                    | Some (fields, rest'') => Some ((k, x) :: fields, rest'')
                    | None => None
                    end
                | Some (x, String "}"%char rest') => Some ([(k, x)], rest')
                | _ => None
                end
            | _ => None
            end
          else None
      | EmptyString => None
      end
  end.

Definition parse (s : string) : option value :=
  match parse_value (S (String.length s)) s with
  | Some (v, EmptyString) => Some v
  | _ => None
  end.

(** A 32-bit rolling hash, printed as eight hex digits. *)
Fixpoint roll (h : N) (s : string) : N :=
  match s with
  | EmptyString => h
  | String c s' => roll ((h * 33 + N_of_ascii c) mod 4294967296) s'
  end.

Definition word_bytes (h : N) : list Byte.byte :=
  [byte_of_N (h / 16777216 mod 256); byte_of_N (h / 65536 mod 256);
   byte_of_N (h / 256 mod 256); byte_of_N (h mod 256)]%N.

Definition hash_hex (s : string) : string := to_hex (word_bytes (roll 5381 s)).

Definition keyed_hash_hex (secret data : string) : string :=
  hash_hex (secret +:+ ":" +:+ hash_hex (secret +:+ ":" +:+ data)).

(** [keylen] bytes derived from the password and the salt. *)
Definition derive (password : string) (salt : list Byte.byte)
    (iterations keylen : Z) (digest : string) : list Byte.byte :=
  let seed := roll 5381 (password +:+ ":" +:+ to_hex salt +:+ ":" +:+ digest) in
  (fun i : nat => byte_of_N ((seed / 2 ^ (N.of_nat (i mod 24)) + 7 * N.of_nat i) mod 256)%N)
    <$> seq 0 (Z.to_nat keylen).

Definition string_bytes (s : string) : list Byte.byte :=
  byte_of_ascii <$> list_ascii_of_string s.

Definition bytes_string (b : list Byte.byte) : string :=
  string_of_list_ascii (ascii_of_byte <$> b).

Definition xor_byte (a b : Byte.byte) : Byte.byte :=
  byte_of_N (N.lxor (Byte.to_N a) (Byte.to_N b)).

(** XOR with the key, repeated as often as needed. *)
Fixpoint xor_stream (key : list Byte.byte) (i : nat) (data : list Byte.byte)
  : list Byte.byte :=
  match data with
  | [] => []
  | b :: data' =>
      xor_byte b (nth (i mod List.length key) key Byte.x00)
      :: xor_stream key (S i) data'
  end.

Definition final_byte : Byte.byte := Byte.x10.

Definition cipher_hex (algorithm : string) (key : list Byte.byte)
    (plaintext : string) : string :=
  to_hex (xor_stream key 0 (string_bytes plaintext ++ [final_byte])).

(** Fails when the input is not whole bytes in hex or the final byte is
    wrong. *)
Definition decipher_utf8 (algorithm : string) (key : list Byte.byte)
    (encrypted : string) : option string :=
  let data := from_hex encrypted in
  if negb (String.length encrypted =? 2 * List.length data)%nat then None
  else
    match List.rev (xor_stream key 0 data) with
    | last :: body =>
        if Byte.eqb last final_byte then Some (bytes_string (List.rev body))
        else None
    | [] => None
    end.

Definition split_at (c : ascii) (s : string) : string * string :=
  match String.index 0 (String c EmptyString) s with
  | Some i => (String.substring 0 i s,
               String.substring i (String.length s - i) s)
  | None => (s, EmptyString)
  end.

Definition parse_url (s : string) : option URL :=
  let after scheme :=
    match drop_prefix (scheme +:+ "//") s with
    | Some rest =>
        let '(authority, path_query) := split_at "/"%char rest in
        let '(host, colon_port) := split_at ":"%char authority in
        let '(path, query) := split_at "?"%char path_query in
        if String.eqb host EmptyString then None
        else Some {| protocol := scheme;
                     hostname := host;
                     port := String.substring 1 (String.length colon_port - 1) colon_port;
                     pathname := if String.eqb path EmptyString then "/" else path;
                     search := query |}
    | None => None
    end in
  match after "https:" with
  | Some u => Some u
  | None => after "http:"
  end.

(** The characters of an HTTP token. *)
Definition is_token_char (c : ascii) : bool :=
  let n := N_of_ascii c in
  ((48 <=? n)%N && (n <=? 57)%N)
  || ((65 <=? n)%N && (n <=? 90)%N)
  || ((97 <=? n)%N && (n <=? 122)%N)
  || bool_decide (c ∈ list_ascii_of_string "^_`-!#$%&'*+.|~").

Definition header_name_ok (name : string) : bool :=
  negb (String.eqb name EmptyString)
  && forallb is_token_char (list_ascii_of_string name).

(** No control character but the tab. *)
Definition header_value_ok (content : string) : bool :=
  forallb (fun c => let n := N_of_ascii c in
                    (n =? 9)%N || ((32 <=? n)%N && negb (n =? 127)%N))
          (list_ascii_of_string content).

Definition platform : Platform := {|
  JSON_stringify := stringify;
  JSON_parse := parse;
  hmac_sha256_hex := keyed_hash_hex;
  sha256_hex := hash_hex;
  pbkdf2 := derive;
  createCipher_hex := cipher_hex;
  createDecipher_utf8 := decipher_utf8;
  new_URL := parse_url;
  valid_header_name := header_name_ok;
  valid_header_value := header_value_ok
|}.


(** [keylen] bytes derived from the password and the salt. *)
Definition scrypt (password salt : string) (keylen : Z) : list Byte.byte :=
  derive password (string_bytes salt) 16384 keylen "scrypt".

Definition base64_digit (n : N) : ascii :=
  (if n <? 26 then ascii_of_N (65 + n)
   else if n <? 52 then ascii_of_N (71 + n)
   else if n <? 62 then ascii_of_N (n - 4)
   else if n =? 62 then "+"%char
   else "/"%char)%N.

Fixpoint base64_groups (l : list N) : string :=
  match l with
  | a :: b :: c :: l' =>
      String (base64_digit (a / 4))
        (String (base64_digit (a mod 4 * 16 + b / 16))
           (String (base64_digit (b mod 16 * 4 + c / 64))
              (String (base64_digit (c mod 64)) (base64_groups l'))))%N
  | [a; b] =>
      String (base64_digit (a / 4))
        (String (base64_digit (a mod 4 * 16 + b / 16))
           (String (base64_digit (b mod 16 * 4)) "="))%N
  | [a] =>
      String (base64_digit (a / 4))
        (String (base64_digit (a mod 4 * 16)) "==")%N
  | [] => EmptyString
  end.

Definition to_base64 (s : string) : string :=
  base64_groups (N_of_ascii <$> list_ascii_of_string s).

Definition encoders : Encoders := {|
  scryptSync := scrypt;
  base64 := to_base64;
  invalid_key := fun v => "The key must be a string. Received " +:+ stringify v
|}.

(** [Buffer.from] of an array of numbers: each number modulo 256.  Other
    arrays and objects are refused. *)
Definition bytes_of_array (v : value) : option (list Byte.byte) :=
  match v with
  | VArr items =>
      mapM (fun x => match x with
                     | VNum n => Some (byte_of_N (Z.to_N (n mod 256)))
                     | _ => None
                     end) items
  | _ => None
  end.

Definition buffers : CredentialCryptoService.Buffers := {|
  CredentialCryptoService.Buffer_from_object := bytes_of_array
|}.
End Reference.

(** ** Concrete sessions, used to run the model *)

Module Scenario.

Import WebhookManager WebSocketServer.

(** A message without any of the properties the handlers read. *)
Definition blank : Message :=
  {| m_type := VUndefined; m_did := absent; m_chatId := absent;
     m_content := VUndefined; m_timestamp := VUndefined;
     m_sender := VUndefined; m_clientId := VUndefined;
     m_encryptedPayload := VUndefined; m_webhook := None;
     m_encryptedMessage := VUndefined; m_invite := VUndefined;
     m_inviteId := VUndefined; m_userDid := VUndefined |}.

(** [{ type: 'authenticate', did }] *)
Definition authenticate_with (did : Held) : Message :=
  {| m_type := VStr "authenticate"; m_did := did; m_chatId := absent;
     m_content := VUndefined; m_timestamp := VUndefined;
     m_sender := VUndefined; m_clientId := VUndefined;
     m_encryptedPayload := VUndefined; m_webhook := None;
     m_encryptedMessage := VUndefined; m_invite := VUndefined;
     m_inviteId := VUndefined; m_userDid := VUndefined |}.

Definition authenticate (did : string) : Message := authenticate_with (str did).

(** [{ type, chatId }] *)
Definition about_chat (type : string) (chatId : Held) : Message :=
  {| m_type := VStr type; m_did := absent; m_chatId := chatId;
     m_content := VUndefined; m_timestamp := VUndefined;
     m_sender := VUndefined; m_clientId := VUndefined;
     m_encryptedPayload := VUndefined; m_webhook := None;
     m_encryptedMessage := VUndefined; m_invite := VUndefined;
     m_inviteId := VUndefined; m_userDid := VUndefined |}.

Definition about (type chatId : string) : Message :=
  about_chat type (str chatId).

(** A chat message whose client-supplied [sender] is somebody else. *)
Definition hi : Message :=
  {| m_type := VStr "chat_message"; m_did := absent; m_chatId := str "c1";
     m_content := VStr "hi"; m_timestamp := VStr "client-time";
     m_sender := VStr "did:mallory"; m_clientId := VUndefined;
     m_encryptedPayload := VUndefined; m_webhook := None;
     m_encryptedMessage := VUndefined; m_invite := VUndefined;
     m_inviteId := VUndefined; m_userDid := VUndefined |}.

(** An [encrypted_chat] for the chat [chatId]. *)
Definition sealed_for (chatId : Held) : Message :=
  {| m_type := VStr "encrypted_chat"; m_did := absent; m_chatId := chatId;
     m_content := VUndefined; m_timestamp := VStr "client-time";
     m_sender := VUndefined; m_clientId := VUndefined;
     m_encryptedPayload := VStr "eyJhbGciOi"; m_webhook := None;
     m_encryptedMessage := VUndefined; m_invite := VUndefined;
     m_inviteId := VUndefined; m_userDid := VUndefined |}.

Definition sealed : Message := sealed_for (str "c1").

(** The object [{ "toString": 1 }], which no template literal can print. *)
Definition unprintable : value := VObj [("toString", VNum 1)].

Definition hook (url : string) (secret : option string)
    (extra : gmap string string) : WebhookInput :=
  {| in_url := url; in_secret := secret; in_retryAttempts := Some 3%Z;
     in_timeout := None; in_headers := extra; in_events := VUndefined |}.

Definition register_webhook (chatId : string) (w : WebhookInput) : Message :=
  {| m_type := VStr "register_webhook"; m_did := absent; m_chatId := str chatId;
     m_content := VUndefined; m_timestamp := VUndefined;
     m_sender := VUndefined; m_clientId := VUndefined;
     m_encryptedPayload := VUndefined; m_webhook := Some w;
     m_encryptedMessage := VUndefined; m_invite := VUndefined;
     m_inviteId := VUndefined; m_userDid := VUndefined |}.

Definition always (o : Outcome) : nat → Outcome := fun _ => o.



Definition public_key : list Byte.byte := [Byte.x5a; Byte.x01; Byte.xc3].

Definition incoming (ws : conn) (message : Message) (clientId now : string)
  : Event :=
  Incoming ws (Some message) clientId now "generated" (always RequestTimeout).

Definition after (trace : list Event) : State :=
  match @run Reference.platform Reference.encoders (start public_key) trace with
  | Some (st, _) => st
  | None => start public_key
  end.

Definition outputs (trace : list Event) : list Action :=
  match @run Reference.platform Reference.encoders (start public_key) trace with
  | Some (_, out) => out
  | None => []
  end.

(** Socket 1 is [did:a], socket 2 is [did:b], socket 3 has connected and
    not authenticated. *)
Definition three_sockets : State :=
  after [Connection 1 "k1" "t1"; incoming 1 (authenticate "did:a") "k1" "t2";
         Connection 2 "k2" "t3"; incoming 2 (authenticate "did:b") "k2" "t4";
         Connection 3 "k3" "t5"].

(** ... and [did:a] has registered a webhook for chat [c1]. *)
Definition with_hook : State :=
  (handleWebhookRegistration three_sockets 1
     (register_webhook "c1" (hook "http://hooks.example.com/in" (Some "s3cret") ∅))
     "k1" "t6" "generated").1.




(** [did:a] is online through socket 1; sockets 2 and 3 have connected. *)
Definition one_online : State :=
  after [Connection 1 "k1" "t1"; incoming 1 (authenticate "did:a") "k1" "t2";
         Connection 2 "k2" "t3"; Connection 3 "k3" "t4"].

(** Sockets 1 and 2 are both [did:a], socket 3 looks on. *)
Definition shared : list Event :=
  [Connection 1 "k1" "t1"; incoming 1 (authenticate "did:a") "k1" "t2";
   Connection 2 "k2" "t3"; incoming 2 (authenticate "did:a") "k2" "t4";
   Connection 3 "k3" "t5"].

(** ... and socket 1 has closed. *)
Definition one_left : list Event := shared ++ [Close 1 "k1" "t6"].

(** An identity that is an object: [{ "id": "did:a" }], as the object
    number [n]. *)
Definition card (n : nat) : Held :=
  {| json := VObj [("id", VStr "did:a")]; object_id := n |}.

(** Sockets 1 and 2 authenticate with the same JSON, an object; socket 3
    looks on. *)
Definition twins : list Event :=
  [Connection 1 "k1" "t1"; incoming 1 (authenticate_with (card 1)) "k1" "t2";
   Connection 2 "k2" "t3"; incoming 2 (authenticate_with (card 2)) "k2" "t4";
   Connection 3 "k3" "t5"].

Definition credential : value :=
  VObj [("type", VArr [VStr "VerifiableCredential"]);
        ("issuer", VStr "did:a");
        ("credentialSubject", VObj [("id", VStr "did:a"); ("role", VStr "demo")])].

Definition salt_bytes : list Byte.byte :=
  [Byte.x01; Byte.xab; Byte.xff; Byte.x00; Byte.x7f; Byte.x80; Byte.x10; Byte.x9c].

Definition iv_bytes : list Byte.byte := [Byte.x02; Byte.x03].

(** The blob [encryptCredential] produces for [did:a] on the reference
    platform. *)
Definition blob : CredentialCryptoService.EncryptedCredential :=
  Eval vm_compute in
  match @CredentialCryptoService.encryptCredential Reference.platform
          "did:a" credential salt_bytes iv_bytes "t0" with
  | Return b => b
  | Throw _ =>
      CredentialCryptoService.with_encrypted
        {| CredentialCryptoService.enc_version := EmptyString;
           CredentialCryptoService.enc_algorithm := EmptyString;
           CredentialCryptoService.encrypted := EmptyString;
           CredentialCryptoService.salt := EmptyString;
           CredentialCryptoService.iv := EmptyString;
           CredentialCryptoService.createdAt := EmptyString;
           CredentialCryptoService.userDid := EmptyString;
           CredentialCryptoService.checksum := EmptyString |} EmptyString
  end.

(** Another first hex digit: the first byte of a ciphertext changed. *)
Definition flip_first_digit (s : string) : string :=
  match s with
  | String c s' => String (if Ascii.eqb c "0" then "1" else "0")%char s'
  | EmptyString => EmptyString
  end.

Definition mutated : CredentialCryptoService.EncryptedCredential :=
  CredentialCryptoService.with_encrypted blob
    (flip_first_digit (CredentialCryptoService.encrypted blob)).




(** A registration that asks for 25 retries. *)
Definition patient_hook : State :=
  (handleWebhookRegistration three_sockets 1
     (register_webhook "c1"
        {| in_url := "not a url"; in_secret := Some "s3cret";
           in_retryAttempts := Some 25%Z; in_timeout := None;
           in_headers := ∅; in_events := VUndefined |})
     "k1" "t6" "generated").1.

(** The configuration that registration stores. *)
Definition patient_config : WebhookConfig :=
  {| url := "not a url"; headers := ∅; chatId := str "c1";
     ownerDid := str "did:a"; registeredAt := "t6"; secret := "s3cret";
     active := true; retryAttempts := 25; timeout := 5000 |}.

(** A registration that asks for no retries and no timeout. *)
Definition zeroes : WebhookInput :=
  {| in_url := "http://hooks.example.com/in"; in_secret := None;
     in_retryAttempts := Some 0%Z; in_timeout := Some 0%Z; in_headers := ∅;
     in_events := VUndefined |}.

Definition all_open : conn → ReadyState := fun _ => OPEN.

(** An initialized DIDComm service where [did:b] is registered on socket 2. *)
Definition service : DIDCommService.Service :=
  foldl (@DIDCommService.after_operation Reference.platform Reference.encoders)
    DIDCommService.new
    [DIDCommService.OpInitialize public_key;
     DIDCommService.OpRegister (str "did:b") (Some 2%nat) "t0" all_open].

Definition greeting : value := VObj [("text", VStr "hi")].

(** Two messages for [did:c], who is not registered. *)
Definition two_waiting : list DIDCommService.Operation :=
  [DIDCommService.OpInitialize public_key;
   DIDCommService.OpSend (VStr "did:a") (str "did:c") greeting iv_bytes
     "t1" "u1" all_open;
   DIDCommService.OpSend (VStr "did:b") (str "did:c") greeting iv_bytes
     "t2" "u2" all_open].

(** A service with 100 messages waiting for [did:c]. *)
Definition numbered (first count : nat) : list value :=
  (fun i : nat => VNum (Z.of_nat i)) <$> seq first count.

Definition full : DIDCommService.Service :=
  DIDCommService.set_messageQueue service {[ KStr "did:c" := numbered 0 100 ]}.

(** A [didcomm_message] that carries [encryptedMessage]. *)
Definition didcomm (encryptedMessage : value) : Message :=
  {| m_type := VStr "didcomm_message"; m_did := absent; m_chatId := str "c1";
     m_content := VUndefined; m_timestamp := VUndefined;
     m_sender := VUndefined; m_clientId := VUndefined;
     m_encryptedPayload := VUndefined; m_webhook := None;
     m_encryptedMessage := encryptedMessage; m_invite := VUndefined;
     m_inviteId := VUndefined; m_userDid := VUndefined |}.

(** Sockets 1 and 2 authenticate as [did:a], socket 3 connects, socket 1
    sends a chat message, a [didcomm_message] and a [register_webhook],
    socket 2 starts to close, the cleanup timer fires, socket 3 sends data
    that is not JSON. *)
Definition session : list Event :=
  [Connection 1 "k1" "t1";
   incoming 1 (authenticate "did:a") "k" "t2";
   Connection 2 "k2" "t3";
   incoming 2 (authenticate "did:a") "k" "t4";
   Connection 3 "k3" "t5";
   incoming 1 hi "k" "t6";
   incoming 1 (didcomm (VObj [("content", VStr "00:00")])) "k" "t7";
   incoming 1 (register_webhook "c1"
                 (hook "http://hooks.example.com/in" None ∅)) "k" "t8";
   Closing 2;
   Interval;
   Incoming 3 None "k3" "t9" "generated" (always RequestTimeout)].

(** The server after the first five events of [session]. *)
Definition relay : State := after (take 5 session).

(** The server after [session], and what it sent. *)
Definition final : State := after session.

Definition transcript : list Action := outputs session.

(** An identity that is an object with a [content]: what the DIDComm
    service produces when it encrypts [greeting]. *)
Definition envelope_did : Held :=
  {| json :=
       VObj [("content",
              VStr (@DIDCommService.simpleEncrypt Reference.platform
                      Reference.encoders
                      (@JSON_stringify Reference.platform greeting) iv_bytes));
             ("timestamp", VStr "t0");
             ("messageId", VStr "u0")];
     object_id := 7 |}.

(** Socket 1 authenticates with [envelope_did]; socket 2 looks on. *)
Definition masked : State :=
  after [Connection 1 "k1" "t1";
         incoming 1 (authenticate_with envelope_did) "k1" "t2";
         Connection 2 "k2" "t3"].

Definition membership : value :=
  VObj [("type", VArr [VStr "VerifiableCredential"; VStr "Membership"]);
        ("issuer", VStr "did:b");
        ("level", VNum 3)].

Definition wallet : list value := [credential; membership].

(** The random bytes and the clock while the [i]-th credential is
    encrypted. *)
Definition draws (i : nat) : CredentialCryptoService.Draw :=
  {| CredentialCryptoService.draw_salt := byte_of_N (N.of_nat i) :: salt_bytes;
     CredentialCryptoService.draw_iv := iv_bytes;
     CredentialCryptoService.draw_now := "t" +:+ pretty i |}.

Definition backup_salt : list Byte.byte := [Byte.x77; Byte.x10; Byte.xfe].

(** The backup of [wallet] that [did:a] makes with the password
    "hunter2". *)
Definition vault : CredentialCryptoService.EncryptedBackup :=
  match @CredentialCryptoService.createEncryptedBackup Reference.platform
          "did:a" (VArr wallet) "hunter2" draws backup_salt "t8" "t9" with
  | Return backup => backup
  | Throw _ =>
      {| CredentialCryptoService.bk_version := EmptyString;
         CredentialCryptoService.bk_encrypted := EmptyString;
         CredentialCryptoService.bk_salt := EmptyString;
         CredentialCryptoService.bk_createdAt := EmptyString;
         CredentialCryptoService.bk_checksum := EmptyString |}
  end.

(** A [create_invite] for chat [c1] that carries [membership], under the
    invite id [inviteId]. *)
Definition create_invite_as (inviteId : value) : Message :=
  {| m_type := VStr "create_invite"; m_did := absent; m_chatId := str "c1";
     m_content := VUndefined; m_timestamp := VUndefined;
     m_sender := VUndefined; m_clientId := VUndefined;
     m_encryptedPayload := VUndefined; m_webhook := None;
     m_encryptedMessage := VUndefined;
     m_invite := VObj [("inviteId", inviteId); ("credential", membership)];
     m_inviteId := VUndefined; m_userDid := VUndefined |}.

Definition create_invite : Message := create_invite_as (VStr "i1").

End Scenario.

(** * Properties *)

Import WebhookManager WebSocketServer.

(** ** JavaScript helpers *)

Lemma truthy_str_Some s : truthy_str (Some s) = true ↔ s ≠ "".
Proof.
  simpl. destruct (String.eqb_spec s ""); simpl; split; congruence.
Qed.

Lemma truthy_VStr s : truthy (VStr s) = true ↔ s ≠ "".
Proof. exact (truthy_str_Some s). Qed.

Lemma same_true (a b : Held) : same a b = true ↔ key a = key b.
Proof. unfold same. by rewrite bool_decide_eq_true. Qed.

Lemma same_false (a b : Held) : same a b = false ↔ key a ≠ key b.
Proof. unfold same. by rewrite bool_decide_eq_false. Qed.

Lemma log_Return (vs : list value) :
  forallb interpolates vs = true → log vs = Return tt.
Proof. unfold log. by intros ->. Qed.

Lemma log_Throw (vs : list value) :
  forallb interpolates vs = false → log vs = Throw cannot_convert.
Proof. unfold log. by intros ->. Qed.

Lemma log_cases (vs : list value) :
  log vs = Return tt ∨ log vs = Throw cannot_convert.
Proof. unfold log. destruct (forallb interpolates vs); auto. Qed.

(** A string is printed by every log line, and so is what only holds
    strings. *)
Lemma interpolates_str (s : string) : interpolates (json (str s)) = true.
Proof. done. Qed.

Lemma set_webhooks_same (st : State) : set_webhooks st (webhooks st) = st.
Proof. by destruct st. Qed.

Lemma set_didCommService_same (st : State) :
  set_didCommService st (didCommService st) = st.
Proof. by destruct st. Qed.


(** ** Webhook ownership *)

Lemma removeWebhook_owner webhooks chatId cfg did :
  webhooks !! key chatId = Some cfg →
  key did = key (ownerDid cfg) →
  removeWebhook webhooks chatId did
  = (delete (key chatId) webhooks,
     _ ← log [json chatId; json did]; Return true).
Proof.
  intros E Hk. unfold removeWebhook. rewrite E.
  by rewrite (proj2 (same_true (ownerDid cfg) did)).
Qed.

Lemma removeWebhook_other webhooks chatId cfg did :
  webhooks !! key chatId = Some cfg → key did ≠ key (ownerDid cfg) →
  removeWebhook webhooks chatId did
  = (webhooks, Throw (Error "Apenas o dono da sala pode remover o webhook")).
Proof.
  intros E Hne. unfold removeWebhook. rewrite E.
  by rewrite (proj2 (same_false (ownerDid cfg) did)).
Qed.

(** C8: when a chat has a webhook owned by A, a [remove_webhook] from a
    socket authenticated as B with B <> A (as [===] compares them) is
    answered with the error "Apenas o dono da sala pode remover o webhook"
    and the server state, the configuration included, is unchanged; a
    [remove_webhook] from a socket authenticated as A deletes the
    configuration and is answered with [webhook_removed] - or, when the
    manager's log line cannot print the chat id or the identity (it can
    print every string), with a [webhook_error] that carries the message of
    that failure. *)
Theorem C8_remove_webhook_only_by_owner
    (st : State) (ws : conn) (message : Message) (clientId : string) (B : Held)
    (cfg : WebhookConfig) :
  webhooks st !! key (m_chatId message) = Some cfg →
  senderDid_of st ws = Some B →
  (key B ≠ key (ownerDid cfg) →
     removeWebhook (webhooks st) (m_chatId message) B
     = (webhooks st,
        Throw (Error "Apenas o dono da sala pode remover o webhook"))
     ∧ handleWebhookRemoval st ws message clientId
       = (st, sendToClient st ws
                (webhook_error "Apenas o dono da sala pode remover o webhook"))
     ∧ webhooks (handleWebhookRemoval st ws message clientId).1
         !! key (m_chatId message) = Some cfg)
  ∧ (key B = key (ownerDid cfg) →
     webhooks (handleWebhookRemoval st ws message clientId).1
       !! key (m_chatId message) = None
     ∧ handleWebhookRemoval st ws message clientId
       = (set_webhooks st (delete (key (m_chatId message)) (webhooks st)),
          sendToClient st ws
            (if interpolates (json (m_chatId message)) && interpolates (json B)
             then webhook_removed (json (m_chatId message))
             else webhook_error (JS.message cannot_convert)))).
Proof.
  intros Hcfg Hws. split.
  - intros Hne.
    pose proof (removeWebhook_other _ _ _ _ Hcfg Hne) as Hrm.
    unfold handleWebhookRemoval. rewrite Hws, Hrm, set_webhooks_same.
    simpl. done.
  - intros Heq.
    pose proof (removeWebhook_owner _ _ _ _ Hcfg Heq) as Hrm.
    unfold handleWebhookRemoval. rewrite Hws, Hrm. split.
    + simpl. apply lookup_delete_eq.
    + unfold log. simpl. rewrite andb_true_r.
      destruct (interpolates (json (m_chatId message)) && interpolates (json B));
        simpl; [by rewrite app_nil_r|done].
Qed.

Lemma C8_witness :
  (handleWebhookRemoval Scenario.with_hook 2
     (Scenario.about "remove_webhook" "c1") "k2").1 = Scenario.with_hook
  ∧ webhooks (handleWebhookRemoval Scenario.with_hook 2
                (Scenario.about "remove_webhook" "c1") "k2").1 !! KStr "c1"
    = webhooks Scenario.with_hook !! KStr "c1"
  ∧ webhooks (handleWebhookRemoval Scenario.with_hook 1
                (Scenario.about "remove_webhook" "c1") "k1").1 !! KStr "c1"
    = None.
Proof.
  assert (Hcfg : ∃ cfg, webhooks Scenario.with_hook !! KStr "c1" = Some cfg
                        ∧ ownerDid cfg = str "did:a")
    by (eexists; split; vm_compute; reflexivity).
  destruct Hcfg as (cfg & Hcfg & Howner).
  destruct (C8_remove_webhook_only_by_owner Scenario.with_hook 2
              (Scenario.about "remove_webhook" "c1") "k2" (str "did:b") cfg Hcfg)
    as [Hother _]; [vm_compute; reflexivity|].
  destruct (C8_remove_webhook_only_by_owner Scenario.with_hook 1
              (Scenario.about "remove_webhook" "c1") "k1" (str "did:a") cfg Hcfg)
    as [_ Hsame]; [vm_compute; reflexivity|].
  destruct Hother as (_ & Hst & Hkept); [rewrite Howner; discriminate|].
  destruct Hsame as [Hgone _]; [by rewrite Howner|].
  split; [by rewrite Hst|]. split; [rewrite Hcfg; exact Hkept | exact Hgone].
Defined.

(** Registration never looks at the owner of an existing configuration:
    whoever registers becomes the owner. *)
Lemma handleWebhookRegistration_any_identity
    (st : State) (ws : conn) (message : Message) (clientId now generated : string)
    (B : Held) (w : WebhookInput) :
  senderDid_of st ws = Some B →
  m_webhook message = Some w →
  ownerDid <$> (webhooks (handleWebhookRegistration st ws message clientId
                            now generated).1 !! key (m_chatId message)) = Some B.
Proof.
  intros Hws Hw. unfold handleWebhookRegistration, registerWebhook.
  rewrite Hws, Hw. simpl. by rewrite lookup_insert_eq.
Qed.

(** C2 (the code departs from the claim): chat [c1] has a webhook owned by
    [did:a], and [canConfigureWebhook] says [did:b] may not configure it; a
    [register_webhook] for [c1] from the socket of [did:b] is nevertheless
    answered with [webhook_registered], and the stored configuration now
    belongs to [did:b] and points at the new URL. *)
Theorem C2_register_by_other_identity_replaces :
  ownerDid <$> (webhooks Scenario.with_hook !! KStr "c1") = Some (str "did:a")
  ∧ canConfigureWebhook (webhooks Scenario.with_hook) (str "c1") (str "did:b")
    = false
  ∧ (handleWebhookRegistration Scenario.with_hook 2
       (Scenario.register_webhook "c1"
          (Scenario.hook "http://elsewhere.example.net/x" (Some "other") ∅))
       "k2" "t7" "generated").2
    = [Send 2 (webhook_registered (VStr "c1") "http://elsewhere.example.net/x"
                                  "other" true)]
  ∧ (fun cfg => (ownerDid cfg, url cfg, secret cfg)) <$>
      (webhooks (handleWebhookRegistration Scenario.with_hook 2
         (Scenario.register_webhook "c1"
            (Scenario.hook "http://elsewhere.example.net/x" (Some "other") ∅))
         "k2" "t7" "generated").1 !! KStr "c1")
    = Some (str "did:b", "http://elsewhere.example.net/x", "other").
Proof. vm_compute. done. Qed.

Lemma testWebhook_false (webhooks : webhooks_t) (chatId : Held)
    (testData : list (string * value)) (now : string) (endpoint : nat → Outcome) :
  testWebhook webhooks chatId testData now endpoint
  = (_ ← log [json chatId]; Return false, []).
Proof.
  unfold testWebhook. destruct (webhooks !! key chatId) as [config|]; [|done].
  destruct (active config); [|done]. simpl.
  by destruct (log_cases [json chatId]) as [-> | ->].
Qed.

(** C3 (the code departs from the claim): for every set of webhooks, every
    chat and every behaviour of the remote endpoint, [testWebhook] issues no
    request and returns [false] - or throws, when its first log line cannot
    print the chat id -, because the method it calls does not exist;
    [handleTestWebhook] therefore answers with a protocol error or with
    [webhook_test_result] carrying [success = false], or it throws on its
    own first log line.  In particular this is what happens for chat [c1],
    whose webhook is active, against an endpoint that answers every request
    with 200. *)
Theorem C3_test_webhook_always_false :
  (∀ (webhooks : webhooks_t) (chatId : Held)
     (testData : list (string * value)) (now : string)
     (endpoint : nat → Outcome),
     testWebhook webhooks chatId testData now endpoint
     = (if interpolates (json chatId) then Return false
        else Throw cannot_convert, []))
  ∧ (∀ (st : State) (ws : conn) (message : Message) (clientId now : string)
       (endpoint : nat → Outcome),
       handleTestWebhook st ws message clientId now endpoint
       = (st, sendToClient st ws (error "DID ou chatId não fornecido"), None)
       ∨ (interpolates (json (m_chatId message)) = true
          ∧ handleTestWebhook st ws message clientId now endpoint
            = (st, sendToClient st ws
                     (webhook_test_result (json (m_chatId message)) false),
               None))
       ∨ (interpolates (json (m_chatId message)) = false
          ∧ handleTestWebhook st ws message clientId now endpoint
            = (st, [], Some cannot_convert)))
  ∧ active <$> (webhooks Scenario.with_hook !! KStr "c1") = Some true
  ∧ handleTestWebhook Scenario.with_hook 1
      (Scenario.about "test_webhook" "c1") "k1" "t7"
      (Scenario.always (Response 200 "ok"))
    = (Scenario.with_hook, [Send 1 (webhook_test_result (VStr "c1") false)], None).
Proof.
  split.
  { intros whs c testData now endpoint. rewrite testWebhook_false.
    unfold log. simpl. rewrite andb_true_r.
    by destruct (interpolates (json c)). }
  split.
  - intros st ws message clientId now endpoint. unfold handleTestWebhook.
    destruct (senderDid_of st ws) as [ownerDid|]; [|left; reflexivity].
    destruct (negb (truthy (json (m_chatId message)))); [left; reflexivity|].
    right. rewrite testWebhook_false. unfold log. simpl.
    rewrite andb_true_r.
    destruct (interpolates (json (m_chatId message))); [left|right]; done.
  - vm_compute. done.
Qed.

(** ** Webhook delivery and retry *)


(** The delay a retry timer runs for: [2 ^ attempt * 1000] ms up to the
    21st attempt, and 1 ms from the 22nd on, when the computed delay is
    more than a timer takes. *)
Lemma timer_duration_backoff (attempt : Z) :
  (0 ≤ attempt)%Z →
  timer_duration (2 ^ attempt * 1000)
  = if (attempt <=? 21)%Z then (2 ^ attempt * 1000)%Z else 1%Z.
Proof.
  intros Hge. unfold timer_duration, TIMEOUT_MAX.
  destruct (Z.leb_spec attempt 21) as [Hle|Hgt].
  - assert (1 ≤ 2 ^ attempt ≤ 2 ^ 21)%Z as [H1 H2].
    { split; [apply (Z.pow_le_mono_r 2 0 attempt); lia
             |apply Z.pow_le_mono_r; lia]. }
    change (2 ^ 21)%Z with 2097152%Z in H2.
    destruct (Z.leb_spec 1 (2 ^ attempt * 1000)); [|lia].
    destruct (Z.leb_spec (2 ^ attempt * 1000) 2147483647); [done|lia].
  - assert (2 ^ 22 ≤ 2 ^ attempt)%Z as H2 by (apply Z.pow_le_mono_r; lia).
    change (2 ^ 22)%Z with 4194304%Z in H2.
    destruct (Z.leb_spec (2 ^ attempt * 1000) 2147483647); [lia|].
    by rewrite andb_false_r.
Qed.

Section Delivery_properties.
Context `{Platform}.

(** The recursion of [addToRetryQueue] as the source writes it. *)
Lemma addToRetryQueue_unfold (webhook : WebhookConfig) (payload : value)
    (attempt : Z) (n : nat) (endpoint : nat → Outcome) :
  addToRetryQueue webhook payload attempt n endpoint
  = if (attempt <=? retryAttempts webhook)%Z then
      SetTimeout (timer_duration (2 ^ attempt * 1000))
      :: posted (sendWebhookRequest webhook payload (endpoint n)).1
      ++ match (sendWebhookRequest webhook payload (endpoint n)).2 with
         | Return _ => []
         | Throw _ =>
             if (attempt <? retryAttempts webhook)%Z
             then addToRetryQueue webhook payload (attempt + 1)
                    (n + List.length
                           (posted (sendWebhookRequest webhook payload (endpoint n)).1))
                    endpoint
             else []
         end
    else [].
Proof.
  unfold addToRetryQueue.
  destruct (Z.leb_spec attempt (retryAttempts webhook)) as [Hle|Hgt].
  - replace (Z.to_nat (retryAttempts webhook + 1 - attempt))
      with (S (Z.to_nat (retryAttempts webhook + 1 - (attempt + 1)))) by lia.
    simpl. destruct (sendWebhookRequest webhook payload (endpoint n)) as [req settled].
    simpl. f_equal. f_equal. destruct settled as [r|e]; [done|].
    destruct (Z.ltb_spec attempt (retryAttempts webhook)) as [Hlt|Hge]; [done|].
    by replace (Z.to_nat (retryAttempts webhook + 1 - (attempt + 1))) with 0%nat by lia.
  - by replace (Z.to_nat (retryAttempts webhook + 1 - attempt)) with 0%nat by lia.
Qed.


Lemma request_refused (options : HttpRequest) :
  (req_timeout options < 0)%Z ∨ accepted_headers (req_headers options) = false →
  ∃ e, request options = Throw e.
Proof.
  intros Hbad. unfold request.
  destruct (Z.ltb_spec (req_timeout options) 0); [eauto|].
  destruct Hbad as [Hneg | ->]; [lia|]. simpl. eauto.
Qed.


(** Nothing is sent for a URL that does not parse, a negative timeout or a
    header that [http.request] does not accept. *)
Lemma sendWebhookRequest_nothing (webhook : WebhookConfig) (payload : value)
    (reply : Outcome) :
  new_URL (url webhook) = None
  ∨ (timeout webhook < 0)%Z
  ∨ accepted_headers (request_headers webhook (JSON_stringify payload)) = false →
  ∃ e, sendWebhookRequest webhook payload reply = (None, Throw e).
Proof.
  intros Hbad. unfold sendWebhookRequest.
  destruct (new_URL (url webhook)) as [u|] eqn:Hu; [|eauto].
  destruct Hbad as [Hnone | Hbad]; [done|].
  match goal with |- context [request ?o] =>
    destruct (request_refused o) as [e ->]; [|eauto] end.
  simpl. destruct Hbad as [Hneg|Hh]; [left|by right].
  destruct (Z.eqb_spec (timeout webhook) 0); lia.
Qed.

Lemma sendWebhookRequest_settled (webhook : WebhookConfig) (payload : value)
    (statusCode : Z) (data : string) (req : HttpRequest) :
  (sendWebhookRequest webhook payload (Response statusCode data)).1 = Some req →
  (sendWebhookRequest webhook payload (Response statusCode data)).2
  = if (200 <=? statusCode)%Z && (statusCode <? 300)%Z
    then Return (statusCode, data)
    else Throw (Error ("HTTP " +:+ pretty statusCode +:+ ": " +:+ data)).
Proof.
  unfold sendWebhookRequest. destruct (new_URL (url webhook)); [|done].
  match goal with |- context [request ?o] => destruct (request o) end; done.
Qed.








End Delivery_properties.


Lemma posts_timers (f : nat → Z) (l : list nat) :
  posts ((fun j => SetTimeout (f j)) <$> l) = [].
Proof. induction l as [|j l IH]; [done|]. by simpl. Qed.

Section Retry.
Context `{Platform}.




(** X3: for an active webhook whose URL does not parse, whose timeout is
    negative or one of whose headers [http.request] does not accept, one
    trigger issues no request at all, whatever the endpoint would answer,
    and still arms the [retryAttempts] retry timers one after the other:
    for 2000, 4000, ... ms up to the 21st, for 1 ms from the 22nd on. *)
Theorem trigger_with_invalid_url_sends_nothing
    (webhooks : webhooks_t) (chatId : Held) (webhook : WebhookConfig)
    (eventData : value) (now : string) (endpoint : nat → Outcome) :
  webhooks !! key chatId = Some webhook →
  active webhook = true →
  new_URL (url webhook) = None
  ∨ (timeout webhook < 0)%Z
  ∨ accepted_headers
      (request_headers webhook
         (JSON_stringify (trigger_payload chatId eventData now))) = false →
  triggerWebhook webhooks chatId eventData now endpoint
  = (fun j => SetTimeout (if (j <? 21)%nat
                          then 2 ^ (1 + Z.of_nat j) * 1000 else 1))
      <$> seq 0 (Z.to_nat (retryAttempts webhook))
  ∧ posts (triggerWebhook webhooks chatId eventData now endpoint) = [].
Proof.
  intros Hcfg Hactive Hbad.
  set (payload := trigger_payload chatId eventData now) in *.
  assert (Hsent : ∀ reply,
            posted (sendWebhookRequest webhook payload reply).1 = []).
  { intros reply.
    by destruct (sendWebhookRequest_nothing webhook payload reply Hbad) as [e ->]. }
  assert (triggerWebhook webhooks chatId eventData now endpoint
          = (fun j => SetTimeout (if (j <? 21)%nat
                                  then 2 ^ (1 + Z.of_nat j) * 1000 else 1))
              <$> seq 0 (Z.to_nat (retryAttempts webhook))) as Heq.
  { assert (∀ fuel attempt n,
              retryLoop fuel webhook payload attempt n endpoint
              = (fun j => SetTimeout
                            (timer_duration (2 ^ (attempt + Z.of_nat j) * 1000)))
                  <$> seq 0 fuel) as Hloop.
    { induction fuel as [|fuel IH]; intros attempt n; [done|].
      simpl retryLoop.
      destruct (sendWebhookRequest_nothing webhook payload (endpoint n) Hbad)
        as [e ->].
      simpl. rewrite Z.add_0_r. f_equal.
      rewrite IH, <- seq_shift, <- list_fmap_compose.
      apply list_fmap_ext. intros _ j _. simpl.
      by replace (attempt + 1 + Z.of_nat j)%Z
        with (attempt + Z.of_nat (S j))%Z by lia. }
    unfold triggerWebhook. rewrite Hcfg, Hactive. simpl negb. cbv iota.
    fold payload.
    destruct (sendWebhookRequest_nothing webhook payload (endpoint 0%nat) Hbad)
      as [e ->].
    simpl. unfold addToRetryQueue. rewrite Hloop.
    replace (Z.to_nat (retryAttempts webhook + 1 - 1))
      with (Z.to_nat (retryAttempts webhook)) by lia.
    apply list_fmap_ext. intros _ j _.
    rewrite timer_duration_backoff by lia.
    destruct (Z.leb_spec (1 + Z.of_nat j) 21), (Nat.ltb_spec j 21);
      (done || lia). }
  split; [done|]. rewrite Heq. apply posts_timers.
Qed.

End Retry.





Lemma trigger_with_invalid_url_sends_nothing_witness :
  (λ e, match e with SetTimeout d => d | HttpPost _ => 0%Z end) <$>
    drop 19
      (@triggerWebhook Reference.platform (webhooks Scenario.patient_hook)
         (str "c1")
         (message_value (enrich Scenario.hi (str "did:a") "t8" "k1"))
         "t8" (Scenario.always (Response 200 "ok")))
  = [1048576000; 2097152000; 1; 1; 1; 1]%Z.
Proof.
  destruct (@trigger_with_invalid_url_sends_nothing Reference.platform
              (webhooks Scenario.patient_hook) (str "c1") Scenario.patient_config
              (message_value (enrich Scenario.hi (str "did:a") "t8" "k1")) "t8"
              (Scenario.always (Response 200 "ok")))
    as [Heq _].
  - vm_compute; reflexivity.
  - reflexivity.
  - left. vm_compute; reflexivity.
  - rewrite Heq. reflexivity.
Defined.

(** ** From a chat message to the webhook *)

Section Chat_to_webhook.
Context `{Platform}.



End Chat_to_webhook.


(** ** Relay of chat messages *)

(** Closes a goal whose hypothesis [H] puts an action in a literal list of
    actions of other shapes. *)
Ltac not_a_member H :=
  repeat (apply elem_of_cons in H as [H|H]; [discriminate H|]);
  by apply elem_of_nil in H.

Lemma is_open_true st c : is_open st c = true ↔ readyState st c = OPEN.
Proof. unfold is_open. apply bool_decide_eq_true. Qed.

Lemma elem_of_broadcast (st : State) (m : Envelope) (a : Action) :
  a ∈ broadcast st m ↔
  ∃ c, a = Send c m ∧ c ∈ clients st ∧ readyState st c = OPEN.
Proof.
  unfold broadcast. induction (clients st) as [|c l IH]; simpl.
  - split; [intros Hin; by apply elem_of_nil in Hin|].
    intros (c & _ & Hin & _). by apply elem_of_nil in Hin.
  - rewrite elem_of_app, IH. split.
    + intros [Hin|(c' & -> & Hin & Hopen)].
      * destruct (is_open st c) eqn:E; [|by apply elem_of_nil in Hin].
        apply list_elem_of_singleton in Hin as ->.
        exists c. split; [done|]. split; [left|by apply is_open_true].
      * exists c'. split; [done|]. split; [by right|done].
    + intros (c' & -> & Hin & Hopen).
      apply elem_of_cons in Hin as [->|Hin].
      * left. apply is_open_true in Hopen. rewrite Hopen. left.
      * right. eauto.
Qed.

Lemma elem_of_sendToClient st ws m a :
  a ∈ sendToClient st ws m → a = Send ws m.
Proof.
  unfold sendToClient. destruct (is_open st ws); intros Hin.
  - by apply list_elem_of_singleton in Hin.
  - by apply elem_of_nil in Hin.
Qed.

Lemma Forall_sendToClient (P : Action → Prop) (st : State) (ws : conn)
    (m : Envelope) :
  P (Send ws m) → Forall P (sendToClient st ws m).
Proof.
  intros HP. unfold sendToClient. destruct (is_open st ws); [|done].
  by apply Forall_singleton.
Qed.

Lemma Forall_broadcast (P : Action → Prop) (st : State) (m : Envelope) :
  (∀ c, P (Send c m)) → Forall P (broadcast st m).
Proof.
  intros HP. apply Forall_forall. intros a Ha.
  apply elem_of_broadcast in Ha as (c & -> & _). apply HP.
Qed.

Lemma Forall_broadcastObject (P : Action → Prop) (st : State) (o : value) :
  (∀ c, P (SendObject c o)) → Forall P (broadcastObject st o).
Proof.
  intros HP. unfold broadcastObject.
  induction (clients st) as [|c l IH]; [done|]. simpl.
  apply Forall_app. split; [|done].
  destruct (is_open st c); [by apply Forall_singleton|done].
Qed.

Lemma Forall_frames (P : Action → Prop) (frames : list (conn * value)) :
  (∀ c o, P (SendObject c o)) → Forall P (frame <$> frames).
Proof.
  intros HP. induction frames as [|[c o] l IH]; [done|].
  simpl. constructor; [apply HP|done].
Qed.

(** C1 (amended): when a socket authenticated as [senderDid] sends a
    [chat_message], the server leaves its state unchanged and delivers the
    message, with [sender] set to [senderDid] and [timestamp] set to the
    server clock whatever the client supplied, to every authenticated
    client whose socket is open, the sender's own socket included; the
    handler sends no other envelope.  Its last statement is a log line,
    which throws when it cannot print the identity or the chat id. *)
Theorem C1_chat_message_reaches_every_open_socket
    (st : State) (ws : conn) (message : Message) (clientId now : string)
    (senderDid : Held) :
  senderDid_of st ws = Some senderDid →
  (handleChatMessage st ws message clientId now).1.1 = st
  ∧ m_sender (enrich message senderDid now clientId) = json senderDid
  ∧ m_timestamp (enrich message senderDid now clientId) = VStr now
  ∧ m_content (enrich message senderDid now clientId) = m_content message
  ∧ (∀ c, c ∈ clients st → is_Some (senderDid_of st c) →
          readyState st c = OPEN →
          Send c (chat_message (enrich message senderDid now clientId))
            ∈ (handleChatMessage st ws message clientId now).1.2)
  ∧ (ws ∈ clients st → readyState st ws = OPEN →
     Send ws (chat_message (enrich message senderDid now clientId))
       ∈ (handleChatMessage st ws message clientId now).1.2)
  ∧ (∀ c m, Send c m ∈ (handleChatMessage st ws message clientId now).1.2 →
            m = chat_message (enrich message senderDid now clientId))
  ∧ (handleChatMessage st ws message clientId now).2
    = thrown (log [json senderDid; json (m_chatId message)]).
Proof.
  intros Hws. unfold handleChatMessage. rewrite Hws. cbn [fst snd].
  do 4 (split; [done|]).
  assert (∀ c, c ∈ clients st → readyState st c = OPEN →
            Send c (chat_message (enrich message senderDid now clientId))
            ∈ broadcast st (chat_message (enrich message senderDid now clientId))
              ++ (if truthy (json (m_chatId message))
                  then [TriggerWebhook (m_chatId message)
                          (message_value (enrich message senderDid now clientId))]
                  else [])) as Hall.
  { intros c Hc Hopen. apply elem_of_app. left. apply elem_of_broadcast. eauto. }
  split; [intros c Hc _ Hopen; by apply Hall|].
  split; [intros Hc Hopen; by apply Hall|].
  split; [|done].
  intros c m Hin. apply elem_of_app in Hin as [Hin|Hin].
  - by apply elem_of_broadcast in Hin as (c' & [= -> ->] & _).
  - destruct (truthy (json (m_chatId message))); not_a_member Hin.
Qed.

Lemma C1_witness :
  Send 1 (chat_message (enrich Scenario.hi (str "did:a") "t8" "k1"))
    ∈ (handleChatMessage Scenario.three_sockets 1 Scenario.hi "k1" "t8").1.2
  ∧ Send 2 (chat_message (enrich Scenario.hi (str "did:a") "t8" "k1"))
    ∈ (handleChatMessage Scenario.three_sockets 1 Scenario.hi "k1" "t8").1.2.
Proof.
  destruct (C1_chat_message_reaches_every_open_socket Scenario.three_sockets 1
              Scenario.hi "k1" "t8" (str "did:a"))
    as (_ & _ & _ & _ & Hothers & Hself & _).
  - vm_compute; reflexivity.
  - split.
    + apply Hself; [|vm_compute; reflexivity].
      apply list_elem_of_In. vm_compute. tauto.
    + apply Hothers; [|by eexists; vm_compute|vm_compute; reflexivity].
      apply list_elem_of_In. vm_compute. tauto.
Defined.

(** C1 as stated fails: socket 1 is [did:a] and its socket is open.  When
    it sends a chat message, the envelope comes back to it. *)
Lemma C1_counterexample :
  senderDid_of Scenario.three_sockets 1 = Some (str "did:a")
  ∧ received 1
      (handleChatMessage Scenario.three_sockets 1 Scenario.hi "k1" "t8").1.2
    = [chat_message (enrich Scenario.hi (str "did:a") "t8" "k1")].
Proof. vm_compute. done. Qed.

(** ** Relay of encrypted payloads *)

Lemma elem_of_relay (st : State) (ws : conn) (m : Envelope) (a : Action)
    (l : list conn) :
  a ∈ flat_map (fun client =>
         if bool_decide (client ≠ ws) && is_open st client then
           match senderDid_of st client with
           | Some clientDid => sendToClient st client m
           | None => []
           end
         else []) l
  ↔ ∃ c, a = Send c m ∧ c ∈ l ∧ c ≠ ws ∧ readyState st c = OPEN
         ∧ is_Some (senderDid_of st c).
Proof.
  induction l as [|c l IH]; simpl.
  - split; [intros Hin; by apply elem_of_nil in Hin|].
    intros (c & _ & Hin & _). by apply elem_of_nil in Hin.
  - rewrite elem_of_app, IH. split.
    + intros [Hin|(c' & -> & Hin & Hrest)].
      * destruct (bool_decide (c ≠ ws)) eqn:Hne; simpl in Hin;
          [|by apply elem_of_nil in Hin].
        destruct (is_open st c) eqn:Hopen; simpl in Hin;
          [|by apply elem_of_nil in Hin].
        destruct (senderDid_of st c) as [d|] eqn:Hd;
          [|by apply elem_of_nil in Hin].
        unfold sendToClient in Hin. rewrite Hopen in Hin.
        apply list_elem_of_singleton in Hin as ->.
        exists c. split; [done|]. split; [left|].
        split; [by apply bool_decide_eq_true in Hne|].
        split; [by apply is_open_true|by rewrite Hd].
      * exists c'. split; [done|]. split; [by right|done].
    + intros (c' & -> & Hin & Hne & Hopen & [d Hd]).
      apply elem_of_cons in Hin as [->|Hin].
      * left. apply is_open_true in Hopen.
        rewrite bool_decide_eq_true_2, Hopen, Hd by done. simpl.
        unfold sendToClient. rewrite Hopen. left.
      * right. exists c'. rewrite Hd. eauto.
Qed.

Lemma triggers_app (l1 l2 : list Action) :
  triggers (l1 ++ l2) = triggers l1 ++ triggers l2.
Proof. apply List.filter_app. Qed.

Lemma triggers_sendToClient st ws m : triggers (sendToClient st ws m) = [].
Proof. unfold sendToClient. by destruct (is_open st ws). Qed.

Lemma triggers_sends (l : list Action) :
  (∀ a, a ∈ l → ∃ c m, a = Send c m) → triggers l = [].
Proof.
  induction l as [|a l IH]; [done|]. intros Hall. simpl.
  destruct (Hall a) as (c & m & ->); [left|]. simpl.
  apply IH. intros a' Hin. apply Hall. by right.
Qed.

(** C4 (amended): for a sender authenticated as [senderDid] and an
    [encrypted_chat] message with a truthy [chatId] that a log line can
    print (every string is one) and a truthy [encryptedPayload], the
    handler relays the payload to the other open, authenticated sockets,
    then sends [encrypted_chat_sent] to the sender, then - reading the
    unbound variable [toDid] throws - sends [encrypted_chat_error] to the
    sender; it never calls [triggerWebhook], it throws nothing, and the
    server state is unchanged. *)
Theorem C4_encrypted_chat_always_errors
    (st : State) (ws : conn) (message : Message)
    (clientId now : string) (senderDid : Held) :
  senderDid_of st ws = Some senderDid →
  truthy (json (m_chatId message)) = true →
  interpolates (json (m_chatId message)) = true →
  truthy (m_encryptedPayload message) = true →
  ∃ relayed,
    handleEncryptedChat st ws message clientId now
    = (st,
       relayed
       ++ sendToClient st ws
            (encrypted_chat_sent (json (m_chatId message)) true now)
       ++ sendToClient st ws
            (encrypted_chat_error "Falha ao enviar mensagem criptografada"),
       None)
    ∧ (∀ a, a ∈ relayed ↔
         ∃ c, a = Send c (encrypted_chat (json (m_chatId message))
                            (m_encryptedPayload message) (json senderDid)
                            (m_timestamp message) clientId)
              ∧ c ∈ clients st ∧ c ≠ ws ∧ readyState st c = OPEN
              ∧ is_Some (senderDid_of st c))
    ∧ triggers (handleEncryptedChat st ws message clientId now).1.2 = []
    ∧ (readyState st ws = OPEN →
       (handleEncryptedChat st ws message clientId now).1.2
       = relayed
         ++ [Send ws (encrypted_chat_sent (json (m_chatId message)) true now);
             Send ws (encrypted_chat_error "Falha ao enviar mensagem criptografada")]).
Proof.
  intros Hws Hchat Hprint Hpayload.
  unfold handleEncryptedChat.
  rewrite Hws, Hchat, Hpayload. simpl negb. simpl orb. cbv iota.
  rewrite (log_Return [json (m_chatId message)])
    by (simpl; by rewrite Hprint).
  cbv beta iota zeta.
  change (try_catch _ _)
    with (sendToClient st ws
            (encrypted_chat_error "Falha ao enviar mensagem criptografada")).
  eexists. split; [reflexivity|].
  split; [intros a; apply elem_of_relay|]. split.
  - cbn [fst snd]. rewrite !triggers_app, !triggers_sendToClient, !app_nil_r.
    apply triggers_sends. intros a Hin.
    apply elem_of_relay in Hin as (c & -> & _). eauto.
  - intros Hopen. apply is_open_true in Hopen. cbn [fst snd].
    unfold sendToClient. by rewrite Hopen.
Qed.

Lemma C4_witness :
  triggers
    (handleEncryptedChat Scenario.with_hook 1 Scenario.sealed "k1" "t8").1.2 = []
  ∧ Send 1 (encrypted_chat_error "Falha ao enviar mensagem criptografada")
    ∈ (handleEncryptedChat Scenario.with_hook 1 Scenario.sealed "k1" "t8").1.2.
Proof.
  destruct (C4_encrypted_chat_always_errors Scenario.with_hook 1 Scenario.sealed
              "k1" "t8" (str "did:a"))
    as (relayed & _ & _ & Hnone & Hopen);
    [vm_compute; reflexivity | reflexivity | reflexivity | reflexivity |].
  split; [exact Hnone|].
  rewrite Hopen by (vm_compute; reflexivity).
  apply elem_of_app. right. right. left.
Defined.

(** C4 as stated fails: socket 1 is [did:a], its socket is open, chat [c1]
    has a webhook, and socket 2 is authenticated and open.  For an
    [encrypted_chat] whose [chatId] is the object [{ "toString": 1 }] -
    truthy, with a payload - the log line before the [try] throws: nothing
    is relayed, no [encrypted_chat_sent] and no [encrypted_chat_error] is
    sent, and [handleMessage] answers [error]. *)
Lemma C4_counterexample :
  senderDid_of Scenario.with_hook 1 = Some (str "did:a")
  ∧ truthy Scenario.unprintable = true
  ∧ truthy (m_encryptedPayload (Scenario.sealed_for
              {| json := Scenario.unprintable; object_id := 5 |})) = true
  ∧ handleEncryptedChat Scenario.with_hook 1
      (Scenario.sealed_for {| json := Scenario.unprintable; object_id := 5 |})
      "k1" "t8"
    = (Scenario.with_hook, [], Some cannot_convert)
  ∧ (@handleMessage Reference.platform Reference.encoders Scenario.with_hook 1
       (Some (Scenario.sealed_for
                {| json := Scenario.unprintable; object_id := 5 |}))
       "k1" "t8" "generated" (Scenario.always RequestTimeout)).2
    = [Send 1 (error "Formato de mensagem inválido")].
Proof. vm_compute. done. Qed.

(** ** Presence *)

Import DIDCommService.

Lemma key_VStr (d : Held) (s : string) : json d = VStr s → key d = KStr s.
Proof. unfold key. by intros ->. Qed.

Lemma Forall_flat_map {A B} (P : B → Prop) (f : A → list B) (l : list A) :
  (∀ x, Forall P (f x)) → Forall P (flat_map f l).
Proof.
  intros Hf. induction l as [|x l IH]; [done|]. simpl.
  apply Forall_app. by split.
Qed.

Lemma Forall_deliveries (P : Action → Prop) (evs : list DeliveryEvent) :
  (∀ ev, P (Delivery ev)) → Forall P (Delivery <$> evs).
Proof.
  intros HP. induction evs as [|ev l IH]; [done|]. simpl. by constructor.
Qed.

(** Proves that every action of a handler's output satisfies a predicate
    that holds of the envelopes, objects and calls the handler makes. *)
Ltac each_output :=
  repeat first
    [ apply Forall_nil_2
    | apply Forall_app_2
    | apply Forall_sendToClient; first [reflexivity | by eauto]
    | apply Forall_broadcast; intros; first [reflexivity | by eauto]
    | apply Forall_broadcastObject; intros; first [reflexivity | by eauto]
    | apply Forall_frames; intros; first [reflexivity | by eauto]
    | apply Forall_deliveries; intros; first [reflexivity | by eauto]
    | apply Forall_flat_map; intros
    | apply Forall_singleton; first [reflexivity | by eauto]
    | progress cbn [fst snd try_catch mbind mret completion_bind completion_ret]
    | match goal with
      | |- Forall _ (match log ?vs with _ => _ end) =>
          destruct (log_cases vs) as [-> | ->]
      | |- Forall _ (try_catch (log ?vs ≫= _) _) =>
          destruct (log_cases vs) as [-> | ->]
      | |- Forall _ (match ?x with _ => _ end) => destruct x
      | |- Forall _ (if ?x then _ else _) => destruct x
      end ].

(** *** Registration in the DIDComm service *)

Lemma processQueuedMessages_Return (svc : Service) (did : Held)
    (ready : conn → ReadyState) :
  interpolates (json did) = true →
  (processQueuedMessages svc did ready).2 = Return tt.
Proof.
  intros Hp. unfold processQueuedMessages.
  rewrite (log_Return [json did]) by (simpl; by rewrite Hp).
  repeat match goal with
         | |- context [match ?x with _ => _ end] => destruct x
         end; done.
Qed.

Lemma registerClient_Return (svc : Service) (did : Held) (socket : conn)
    (now : string) (ready : conn → ReadyState) :
  truthy (json did) = true →
  interpolates (json did) = true →
  (registerClient svc did (Some socket) now ready).2 = Return tt.
Proof.
  intros Ht Hp. unfold registerClient. rewrite Ht. simpl negb. cbv iota.
  rewrite (log_Return [json did]) by (simpl; by rewrite Hp).
  by apply processQueuedMessages_Return.
Qed.

Lemma registerClient_Throw (svc : Service) (did : Held) (socket : conn)
    (now : string) (ready : conn → ReadyState) :
  truthy (json did) = true →
  interpolates (json did) = false →
  registerClient svc did (Some socket) now ready
  = (set_connectedClients svc
       (<[key did := {| ws := socket; registeredAt := now;
                        lastActivity := now |}]> (connectedClients svc)),
     [], Throw cannot_convert).
Proof.
  intros Ht Hp. unfold registerClient. rewrite Ht. simpl negb. cbv iota.
  by rewrite (log_Throw [json did]) by (simpl; by rewrite Hp).
Qed.

Lemma unregisterClient_Return (svc : Service) (did : Held) :
  interpolates (json did) = true →
  (unregisterClient svc did).2 = Return tt.
Proof.
  intros Hp. unfold unregisterClient.
  destruct (connectedClients svc !! key did); [|done].
  simpl. apply log_Return. simpl. by rewrite Hp.
Qed.

(** Every authentication with an identity that is truthy and that a log
    line can print ends with [broadcastUserOnline]. *)
Lemma handleAuthentication_accepted (st : State) (ws : conn) (message : Message)
    (clientId now : string) :
  truthy (json (m_did message)) = true →
  interpolates (json (m_did message)) = true →
  ∃ svc frames,
    handleAuthentication st ws message clientId now
    = (setUserOnline
         (set_didCommService
            (set_clientDids st (<[ws := m_did message]> (clientDids st))) svc)
         (m_did message) ws now,
       (frame <$> frames)
       ++ sendToClient st ws (authenticated (json (m_did message)) true None now)
       ++ broadcast st (user_online (json (m_did message)) now))
    ∧ (svc, frames, Return tt)
      = registerClient (didCommService st) (m_did message) (Some ws) now
          (readyState st).
Proof.
  intros Ht Hp. unfold handleAuthentication. rewrite Ht. simpl negb. cbv iota.
  cbn [didCommService set_clientDids readyState].
  pose proof (registerClient_Return (didCommService st) (m_did message) ws now
                (readyState st) Ht Hp) as Hreg.
  destruct (registerClient (didCommService st) (m_did message) (Some ws) now
              (readyState st)) as [[svc frames] registered].
  simpl in Hreg. subst registered.
  exists svc, frames. split; [|done].
  rewrite (log_Return [json (m_did message)]) by (simpl; by rewrite Hp).
  cbn [try_catch mbind completion_bind]. by rewrite app_nil_r.
Qed.

(** C5 (the code departs from the claim): [did:a] is already online through
    socket 1 when socket 2 authenticates as [did:a]; the server nevertheless
    sends a [user_online] envelope for [did:a] to every open socket. *)
Theorem C5_second_connection_broadcasts_user_online :
  online Scenario.one_online (KStr "did:a") = true
  ∧ (handleAuthentication Scenario.one_online 2
       (Scenario.authenticate "did:a") "k2" "t5").2
    = [Send 2 (authenticated (VStr "did:a") true None "t5");
       Send 1 (user_online (VStr "did:a") "t5");
       Send 2 (user_online (VStr "did:a") "t5");
       Send 3 (user_online (VStr "did:a") "t5")]
  ∧ online_events "did:a" 3
      (handleAuthentication Scenario.one_online 2
         (Scenario.authenticate "did:a") "k2" "t5").2 = 1%nat.
Proof. vm_compute. done. Qed.

(** *** The connection state along a trace *)

Lemma consistent_start ident publicKey : consistent ident (start publicKey).
Proof.
  split; unfold start; simpl.
  - constructor.
  - intros c Hc. by apply elem_of_nil in Hc.
  - intros c d Hc. by rewrite lookup_empty in Hc.
  - intros k c. rewrite !lookup_empty. split.
    + intros (d & Hd & _). done.
    + intros (info & Hinfo & _). done.
  - intros k info Hinfo. by rewrite lookup_empty in Hinfo.
Qed.

Lemma same_connections_refl (st : State) : same_connections st st.
Proof. by repeat split. Qed.

Lemma same_connections_trans (st1 st2 st3 : State) :
  same_connections st1 st2 → same_connections st2 st3 →
  same_connections st1 st3.
Proof.
  intros (A1 & A2 & A3 & A4) (B1 & B2 & B3 & B4).
  repeat split; congruence.
Qed.

Lemma same_connections_consistent (ident : conn → string) (st st' : State) :
  same_connections st st' → consistent ident st → consistent ident st'.
Proof.
  intros (Hc & Hd & Ho & Hr) [H1 H2 H3 H4 H5].
  split; rewrite ?Hc, ?Hd, ?Ho, ?Hr; done.
Qed.

Lemma senderDid_of_consistent ident st ws :
  consistent ident st → senderDid_of st ws = clientDids st !! ws.
Proof.
  intros Hst. unfold senderDid_of.
  destruct (clientDids st !! ws) as [d|] eqn:E; [|done].
  destruct (dids_clients _ _ Hst _ _ E) as (_ & Hd & Hne).
  rewrite Hd. apply truthy_VStr in Hne. by rewrite Hne.
Qed.

Lemma connect_consistent ident st ws clientId now :
  consistent ident st → ws ∉ clients st →
  consistent ident (handleConnection (set_readyState st ws OPEN) ws clientId now).1.
Proof.
  intros Hst Hnew. unfold handleConnection, set_add. simpl.
  rewrite decide_False by done.
  split; simpl.
  - apply NoDup_app. split; [apply (clients_nodup _ _ Hst)|].
    split; [|apply NoDup_singleton].
    intros c Hc Hws. apply list_elem_of_singleton in Hws as ->. done.
  - intros c Hc. destruct (decide (c = ws)) as [|Hne]; [by left|].
    apply elem_of_app in Hc as [Hc|Hc]; [by apply (clients_live _ _ Hst)|].
    by apply list_elem_of_singleton in Hc.
  - intros c d Hc. destruct (dids_clients _ _ Hst _ _ Hc) as (Hin & Hd & Hne).
    split; [apply elem_of_app; by left|done].
  - apply (online_ids _ _ Hst).
  - apply (online_nonempty _ _ Hst).
Qed.

Lemma closing_consistent ident st ws :
  consistent ident st → consistent ident (set_readyState st ws CLOSING).
Proof.
  intros Hst. split; simpl.
  - apply (clients_nodup _ _ Hst).
  - intros c Hc. destruct (decide (c = ws)); [by right|].
    by apply (clients_live _ _ Hst).
  - apply (dids_clients _ _ Hst).
  - apply (online_ids _ _ Hst).
  - apply (online_nonempty _ _ Hst).
Qed.

Lemma authenticate_consistent ident st ws message clientId now :
  consistent ident st → ws ∈ clients st →
  (truthy (json (m_did message)) = true →
   json (m_did message) = VStr (ident ws)) →
  consistent ident (handleAuthentication st ws message clientId now).1.
Proof.
  intros Hst Hws Hclaim.
  destruct (truthy (json (m_did message))) eqn:Htruthy.
  2: { unfold handleAuthentication. by rewrite Htruthy. }
  pose proof (Hclaim eq_refl) as Hident.
  destruct (handleAuthentication_accepted st ws message clientId now Htruthy)
    as (svc & frames & -> & _); [by rewrite Hident|].
  set (d := m_did message) in *.
  assert (Hne : ident ws ≠ "").
  { apply truthy_VStr. by rewrite <- Hident. }
  assert (Hkey : key d = KStr (ident ws)) by (by apply key_VStr).
  unfold setUserOnline. simpl.
  split; simpl.
  - apply (clients_nodup _ _ Hst).
  - apply (clients_live _ _ Hst).
  - intros c d' Hc. destruct (decide (c = ws)) as [->|Hnec].
    + rewrite lookup_insert_eq in Hc. by injection Hc as <-.
    + rewrite lookup_insert_ne in Hc by done. by apply (dids_clients _ _ Hst).
  - intros k c. destruct (decide (k = key d)) as [->|Hother].
    + rewrite lookup_insert_eq. split.
      * intros (d' & Hc & Hk). eexists. split; [reflexivity|]. simpl.
        apply elem_of_union.
        destruct (decide (c = ws)) as [->|Hnec]; [left; by apply elem_of_singleton|].
        rewrite lookup_insert_ne in Hc by done.
        destruct (proj1 (online_ids _ _ Hst (key d) c)) as (info & -> & Hin);
          [eauto|]. by right.
      * intros (info & [= <-] & Hin). simpl in Hin.
        destruct (decide (c = ws)) as [->|Hnec];
          [exists d; by rewrite lookup_insert_eq|].
        rewrite lookup_insert_ne by done. apply (online_ids _ _ Hst).
        apply elem_of_union in Hin as [Hin|Hin];
          [by apply elem_of_singleton in Hin|].
        destruct (onlineUsers st !! key d) as [info|];
          [by exists info | by apply not_elem_of_empty in Hin].
    + rewrite (lookup_insert_ne (onlineUsers st)) by congruence.
      rewrite <- (online_ids _ _ Hst k c).
      destruct (decide (c = ws)) as [->|Hnec].
      * rewrite lookup_insert_eq. split.
        -- intros (d' & [= <-] & Hk). congruence.
        -- intros (d' & Hc & Hk).
           destruct (dids_clients _ _ Hst _ _ Hc) as (_ & Hd' & _).
           apply key_VStr in Hd'. congruence.
      * by rewrite lookup_insert_ne.
  - intros k info. destruct (decide (k = key d)) as [->|Hother].
    + rewrite lookup_insert_eq. intros [= <-]. simpl. intros Hempty.
      apply (not_elem_of_empty (C := gset conn) ws). rewrite <- Hempty.
      apply elem_of_union. left. by apply elem_of_singleton.
    + rewrite lookup_insert_ne by congruence. apply (online_nonempty _ _ Hst).
Qed.

Lemma elem_of_remove_socket (ids : gset conn) (ws c : conn) :
  c ∈ ids ∖ {[ws]} ↔ c ∈ ids ∧ c ≠ ws.
Proof. by rewrite elem_of_difference, elem_of_singleton. Qed.

Lemma elem_of_set_delete (ws c : conn) (l : list conn) :
  c ∈ set_delete ws l ↔ c ∈ l ∧ c ≠ ws.
Proof. unfold set_delete. rewrite list_elem_of_filter. tauto. Qed.

(** What [handleDisconnection] does for a socket whose identity a log line
    can print: it throws nothing. *)
Lemma handleDisconnection_printable (st : State) (ws : conn)
    (clientId now : string) (d : Held) :
  senderDid_of st ws = Some d →
  interpolates (json d) = true →
  ∃ svc,
    handleDisconnection st ws clientId now
    = (setUserOffline
         (set_didCommService
            (set_clientDids (set_clients st (set_delete ws (clients st)))
               (delete ws (clientDids st))) svc) d ws,
       broadcastUserOffline
         (setUserOffline
            (set_didCommService
               (set_clientDids (set_clients st (set_delete ws (clients st)))
                  (delete ws (clientDids st))) svc) d ws) d now,
       None).
Proof.
  intros Hd Hp. unfold handleDisconnection. rewrite Hd.
  cbn [didCommService set_clientDids set_clients].
  pose proof (unregisterClient_Return (didCommService st) d Hp) as Hun.
  destruct (unregisterClient (didCommService st) d) as [svc unregistered].
  simpl in Hun. subst unregistered. exists svc.
  by rewrite (log_Return [json d]) by (simpl; by rewrite Hp).
Qed.

Lemma handleDisconnection_anonymous (st : State) (ws : conn)
    (clientId now : string) :
  senderDid_of st ws = None →
  handleDisconnection st ws clientId now
  = (set_clientDids (set_clients st (set_delete ws (clients st)))
       (delete ws (clientDids st)), [], None).
Proof. intros Hd. unfold handleDisconnection. by rewrite Hd. Qed.

Lemma disconnect_consistent ident st ws clientId now :
  consistent ident st → ws ∈ clients st →
  consistent ident
    (handleDisconnection (set_readyState st ws CLOSED) ws clientId now).1.1
  ∧ (handleDisconnection (set_readyState st ws CLOSED) ws clientId now).2 = None.
Proof.
  intros Hst Hws.
  assert (Hsender : senderDid_of (set_readyState st ws CLOSED) ws
                    = clientDids st !! ws)
    by apply (senderDid_of_consistent ident st ws Hst).
  assert (Hbase : ∀ users svc,
    (∀ k c, (∃ d, delete ws (clientDids st) !! c = Some d ∧ key d = k) ↔
            ∃ info, users !! k = Some info ∧ c ∈ clientIds info) →
    (∀ k info, users !! k = Some info → clientIds info ≠ ∅) →
    consistent ident
      {| clients := set_delete ws (clients st);
         clientDids := delete ws (clientDids st);
         onlineUsers := users;
         webhooks := webhooks st;
         didCommService := svc;
         readyState := fun c => if decide (c = ws) then CLOSED else readyState st c |}).
  { intros users svc Hids Hnonempty. split; simpl; [| | |done|done].
    - apply NoDup_filter, (clients_nodup _ _ Hst).
    - intros c Hc. apply elem_of_set_delete in Hc as [Hc Hne].
      rewrite decide_False by done. by apply (clients_live _ _ Hst).
    - intros c d Hc. apply lookup_delete_Some in Hc as [Hne Hc].
      destruct (dids_clients _ _ Hst _ _ Hc) as (Hin & Hd & Hd').
      split; [by apply elem_of_set_delete|done]. }
  assert (Hothers : ∀ d k c,
    clientDids st !! ws = Some d → k ≠ key d →
    ((∃ d', delete ws (clientDids st) !! c = Some d' ∧ key d' = k) ↔
     ∃ info, onlineUsers st !! k = Some info ∧ c ∈ clientIds info)).
  { intros d k c Hd Hother. rewrite <- (online_ids _ _ Hst k c). split.
    - intros (d' & Hc & Hk). apply lookup_delete_Some in Hc as [_ Hc]. eauto.
    - intros (d' & Hc & Hk). exists d'. split; [|done].
      apply lookup_delete_Some. split; [|done]. intros <-. congruence. }
  destruct (clientDids st !! ws) as [d|] eqn:Hd.
  - destruct (dids_clients _ _ Hst _ _ Hd) as (_ & Hjson & _).
    destruct (handleDisconnection_printable (set_readyState st ws CLOSED) ws
                clientId now d Hsender) as [svc ->]; [by rewrite Hjson|].
    split; [|done]. cbn [fst snd].
    unfold setUserOffline. simpl.
    destruct (proj1 (online_ids _ _ Hst (key d) ws)) as (info & Hinfo & Hin);
      [eauto|].
    rewrite Hinfo.
    destruct (decide (size (clientIds info ∖ {[ws]}) = 0)) as [Hz|Hnz].
    + apply size_empty_inv in Hz. apply Hbase.
      * intros k c. destruct (decide (k = key d)) as [->|Hother].
        -- rewrite lookup_delete_eq. split.
           ++ intros (d' & Hc & Hk). apply lookup_delete_Some in Hc as [Hne Hc].
              destruct (proj1 (online_ids _ _ Hst (key d) c))
                as (info' & Hinfo' & Hc'); [eauto|].
              rewrite Hinfo in Hinfo'. injection Hinfo' as <-. exfalso.
              apply (not_elem_of_empty (C := gset conn) c). rewrite <- Hz.
              by apply elem_of_remove_socket.
           ++ intros (info' & Hinfo' & _). done.
        -- rewrite (lookup_delete_ne (onlineUsers st)) by congruence.
           by apply (Hothers d).
      * intros k info'. destruct (decide (k = key d)) as [->|Hother].
        -- by rewrite lookup_delete_eq.
        -- rewrite lookup_delete_ne by congruence. apply (online_nonempty _ _ Hst).
    + apply Hbase.
      * intros k c. destruct (decide (k = key d)) as [->|Hother].
        -- rewrite lookup_insert_eq. split.
           ++ intros (d' & Hc & Hk). apply lookup_delete_Some in Hc as [Hne Hc].
              destruct (proj1 (online_ids _ _ Hst (key d) c))
                as (info' & Hinfo' & Hc'); [eauto|].
              rewrite Hinfo in Hinfo'. injection Hinfo' as <-.
              eexists. split; [reflexivity|]. simpl.
              by apply elem_of_remove_socket.
           ++ intros (info' & [= <-] & Hc). simpl in Hc.
              apply elem_of_remove_socket in Hc as [Hc Hne].
              destruct (proj2 (online_ids _ _ Hst (key d) c))
                as (d' & Hc' & Hk); [by exists info|].
              exists d'. split; [|done]. by apply lookup_delete_Some.
        -- rewrite (lookup_insert_ne (onlineUsers st)) by congruence.
           by apply (Hothers d).
      * intros k info'. destruct (decide (k = key d)) as [->|Hother].
        -- rewrite lookup_insert_eq. intros [= <-]. simpl.
           intros Hempty. apply Hnz. rewrite Hempty. apply size_empty.
        -- rewrite lookup_insert_ne by congruence. apply (online_nonempty _ _ Hst).
  - rewrite (handleDisconnection_anonymous _ _ _ _ Hsender).
    split; [|done]. cbn [fst snd]. apply Hbase.
    + intros k c. rewrite <- (online_ids _ _ Hst k c).
      by rewrite delete_id.
    + apply (online_nonempty _ _ Hst).
Qed.

(** Only authentication and the [close] and connection events touch the
    sockets, the identities and the presence table. *)
Ltac untouched :=
  repeat first
    [ apply same_connections_refl
    | progress cbn [fst snd returned]
    | match goal with
      | |- same_connections _ (set_webhooks _ _) => by repeat split
      | |- same_connections _ (let '(_, _) := ?x in _).1 => destruct x
      | |- same_connections _ (let '(_, _) := ?x in _).1.1 => destruct x
      | |- same_connections _ (match ?x with _ => _ end).1 => destruct x
      | |- same_connections _ (match ?x with _ => _ end).1.1 => destruct x
      | |- same_connections _ (if ?x then _ else _).1 => destruct x
      | |- same_connections _ (if ?x then _ else _).1.1 => destruct x
      end ].

Ltac quiet :=
  repeat first
    [ progress cbn [fst snd returned]
    | match goal with
      | |- Forall _ (let '(_, _) := ?x in _).2 => destruct x
      | |- Forall _ (let '(_, _) := ?x in _).1.2 => destruct x
      | |- Forall _ (match ?x with _ => _ end).2 => destruct x
      | |- Forall _ (match ?x with _ => _ end).1.2 => destruct x
      | |- Forall _ (if ?x then _ else _).2 => destruct x
      | |- Forall _ (if ?x then _ else _).1.2 => destruct x
      end
    | progress each_output ].

Section Router_properties.
Context `{Platform} `{Encoders}.

Lemma dispatch_same_connections st ws message clientId now generated endpoint :
  is_authenticate (m_type message) = false →
  same_connections st
    (dispatch st ws message clientId now generated endpoint).1.1.
Proof.
  intros Hna. unfold dispatch, is_authenticate in *.
  destruct (m_type message) as [| | | |type| |]; try apply same_connections_refl.
  rewrite Hna.
  repeat (match goal with
          | |- context [if String.eqb ?a ?b then _ else _] =>
              destruct (String.eqb a b)
          end);
    [unfold handleChatMessage | unfold handleDIDCommMessage
    | unfold handleEncryptedChat | unfold handleWebhookRegistration
    | unfold handleWebhookRemoval | unfold handleCreateInvite
    | unfold handleUseInvite | unfold handleRevokeInvite
    | unfold handleListInvites | unfold handleConfigureWebhook
    | unfold handleTestWebhook | unfold handlePing | ];
    untouched.
Qed.

Lemma dispatch_no_offline st ws message clientId now generated endpoint :
  Forall (fun a => is_offline a = false)
    (dispatch st ws message clientId now generated endpoint).1.2.
Proof.
  unfold dispatch.
  destruct (m_type message) as [| | | |type| |]; try apply Forall_nil_2.
  repeat (match goal with
          | |- context [if ?b then _ else _] => destruct b
          end);
    [unfold handleAuthentication | unfold handleChatMessage
    | unfold handleDIDCommMessage
    | unfold handleEncryptedChat | unfold handleWebhookRegistration
    | unfold handleWebhookRemoval | unfold handleCreateInvite
    | unfold handleUseInvite | unfold handleRevokeInvite
    | unfold handleListInvites | unfold handleConfigureWebhook
    | unfold handleTestWebhook | unfold handlePing | ];
    quiet.
  unfold var, toDid. destruct (truthy (json (m_chatId message))); simpl;
    each_output.
Qed.

Lemma handleMessage_no_offline st ws parsed clientId now generated endpoint :
  Forall (fun a => is_offline a = false)
    (handleMessage st ws parsed clientId now generated endpoint).2.
Proof.
  unfold handleMessage. destruct parsed as [message|]; simpl; [|each_output].
  apply Forall_app_2; [apply dispatch_no_offline|].
  destruct (dispatch _ _ _ _ _ _ _).2; each_output.
Qed.

Lemma handleMessage_consistent ident st ws parsed clientId now generated endpoint :
  consistent ident st → ws ∈ clients st →
  respects ident (Incoming ws parsed clientId now generated endpoint) →
  consistent ident
    (handleMessage st ws parsed clientId now generated endpoint).1.
Proof.
  intros Hst Hws Hresp. unfold handleMessage.
  destruct parsed as [message|]; [|done]. cbn [fst].
  destruct (is_authenticate (m_type message)) eqn:Hauth.
  - simpl in Hresp. specialize (Hresp Hauth).
    unfold dispatch. unfold is_authenticate in Hauth.
    destruct (m_type message) as [| | | |type| |]; try done.
    rewrite Hauth. cbn [returned fst].
    by apply authenticate_consistent.
  - eapply same_connections_consistent; [|done].
    by apply dispatch_same_connections.
Qed.

(** A sweep over sockets that are open or closing pings each of them and
    changes nothing. *)
Lemma sweep_live (st : State) (visit : list conn) :
  (∀ c, c ∈ visit → readyState st c = OPEN ∨ readyState st c = CLOSING) →
  sweep st visit = (st, Ping <$> visit, None).
Proof.
  induction visit as [|c l IH]; intros Hlive; [done|]. simpl.
  assert (Hc : readyState st c = OPEN ∨ readyState st c = CLOSING)
    by (apply Hlive; left).
  rewrite bool_decide_eq_false_2 by (destruct Hc as [-> | ->]; done).
  rewrite bool_decide_eq_false_2 by (destruct Hc as [-> | ->]; done).
  rewrite IH; [done|]. intros c' Hc'. apply Hlive. by right.
Qed.

Lemma cleanupConnections_live ident (st : State) :
  consistent ident st →
  cleanupConnections st
  = (set_didCommService st (cleanup (didCommService st)),
     Ping <$> clients st, None).
Proof.
  intros Hst. unfold cleanupConnections.
  by rewrite (sweep_live st (clients st) (clients_live _ _ Hst)).
Qed.

Lemma Forall_pings (P : Action → Prop) (l : list conn) :
  (∀ c, P (Ping c)) → Forall P (Ping <$> l).
Proof.
  intros HP. induction l as [|c l IH]; [done|]. simpl. by constructor.
Qed.

(** One event from a consistent state: the state stays consistent and no
    exception leaves the listener. *)
Lemma step_consistent ident st ev st' out e :
  consistent ident st →
  respects ident ev →
  step st ev = Some (st', out, e) →
  consistent ident st' ∧ e = None.
Proof.
  intros Hst Hclaim Hstep.
  destruct ev as [ws k now|ws parsed k now generated endpoint|ws|ws k now|];
    simpl in Hstep;
    try (destruct (decide (ws ∈ clients st)) as [Hin|Hnin]; try discriminate);
    apply (inj Some) in Hstep.
  - injection Hstep as <- _ <-. split; [|done].
    apply (connect_consistent ident st ws k now Hst Hnin).
  - injection Hstep as <- _ <-. split; [|done].
    by apply (handleMessage_consistent ident st ws parsed k now generated
                endpoint).
  - injection Hstep as <- _ <-. split; [|done]. by apply closing_consistent.
  - destruct (disconnect_consistent ident st ws k now Hst Hin) as [Hst' He].
    rewrite Hstep in Hst', He. done.
  - rewrite (cleanupConnections_live ident st Hst) in Hstep.
    injection Hstep as <- _ <-. split; [|done].
    eapply same_connections_consistent; [|done]. by repeat split.
Qed.

Lemma run_consistent ident trace :
  ∀ st st' out,
    consistent ident st →
    Forall (respects ident) trace →
    run st trace = Some (st', out) →
    consistent ident st'.
Proof.
  induction trace as [|ev trace IH]; intros st st' out Hst Hclaims Hrun.
  - simpl in Hrun. by injection Hrun as <- _.
  - simpl in Hrun. apply Forall_cons in Hclaims as [Hclaim Hclaims].
    destruct (step st ev) as [[[st1 out1] [e|]]|] eqn:Hstep; try done.
    destruct (run st1 trace) as [[st2 out2]|] eqn:Hrest; [|done].
    injection Hrun as <- _.
    apply (IH st1 st2 out2); [|done|done].
    by apply (step_consistent ident st ev st1 out1 None).
Qed.

(** From a consistent state every event that can occur is handled without
    an uncaught exception. *)
Lemma step_returns ident st ev :
  consistent ident st →
  respects ident ev →
  is_Some (step st ev) →
  ∃ st' out, step st ev = Some (st', out, None).
Proof.
  intros Hst Hclaim [[[st' out] e] Hstep].
  destruct (step_consistent ident st ev st' out e Hst Hclaim Hstep) as [_ ->].
  eauto.
Qed.

Lemma received_app o (l1 l2 : list Action) :
  received o (l1 ++ l2) = received o l1 ++ received o l2.
Proof. apply omap_app. Qed.

Lemma received_send o c m (l : list Action) :
  received o (Send c m :: l)
  = (if decide (c = o) then [m] else []) ++ received o l.
Proof. unfold received. simpl. by destruct (decide (c = o)). Qed.

Lemma received_broadcast st m o :
  NoDup (clients st) →
  received o (broadcast st m)
  = if decide (o ∈ clients st ∧ readyState st o = OPEN) then [m] else [].
Proof.
  intros Hnodup. unfold broadcast.
  induction (clients st) as [|c l IH].
  - rewrite decide_False; [done|]. intros [Hin _].
    by apply elem_of_nil in Hin.
  - apply NoDup_cons in Hnodup as [Hc Hnodup]. cbn [flat_map].
    rewrite received_app, IH by done.
    destruct (decide (c = o)) as [->|Hne].
    + rewrite (decide_False (P := o ∈ l ∧ _)) by (by intros [? _]).
      rewrite app_nil_r.
      destruct (is_open st o) eqn:Hopen.
      * rewrite received_send, decide_True by done.
        rewrite decide_True; [done|]. split; [left|by apply is_open_true].
      * rewrite decide_False; [done|]. intros [_ Ho].
        apply is_open_true in Ho. congruence.
    + assert (received o (if is_open st c then [Send c m] else []) = []) as ->.
      { destruct (is_open st c); [|done].
        by rewrite received_send, decide_False. }
      simpl. destruct (decide (o ∈ l ∧ readyState st o = OPEN)) as [[Hin Ho]|Hn].
      * rewrite decide_True; [done|]. split; [by right|done].
      * rewrite decide_False; [done|]. intros [Hin Ho]. apply Hn.
        split; [|done]. apply elem_of_cons in Hin as [->|Hin]; done.
Qed.

Lemma offline_events_none did o (out : list Action) :
  (∀ c m, Send c m ∈ out → is_user_offline did m = false) →
  offline_events did o out = 0.
Proof.
  unfold offline_events. induction out as [|a out IH]; [done|].
  intros Hall. simpl.
  assert (Hrest : ∀ c m, Send c m ∈ out → is_user_offline did m = false)
    by (intros c' m' Hin'; apply (Hall c' m'); by right).
  destruct a as [c m| | | |]; simpl; try by apply IH.
  destruct (decide (c = o)) as [->|Hne]; simpl; [|by apply IH].
  rewrite (Hall o m) by left. by apply IH.
Qed.

Lemma offline_events_quiet did o (out : list Action) :
  Forall (fun a => is_offline a = false) out → offline_events did o out = 0.
Proof.
  intros Hq. apply offline_events_none. intros c m Hin.
  rewrite Forall_forall in Hq. specialize (Hq _ Hin).
  destruct m; try done.
Qed.

Lemma offline_events_broadcastUserOffline_other st (d : Held) did now o :
  json d ≠ VStr did → offline_events did o (broadcastUserOffline st d now) = 0.
Proof.
  intros Hne. apply offline_events_none. intros c m Hm.
  unfold broadcastUserOffline in Hm.
  destruct (onlineUsers st !! key d); [by apply elem_of_nil in Hm|].
  apply elem_of_broadcast in Hm as (c' & [= _ ->] & _). simpl.
  destruct (json d) as [| | | |s| |]; try done.
  apply String.eqb_neq. congruence.
Qed.

(** One event from a consistent state: who receives [user_offline]. *)
Lemma step_offline_events ident did st ev st' out e :
  consistent ident st →
  respects ident ev →
  step st ev = Some (st', out, e) →
  (last_close st did ev →
     online st' (KStr did) = false
     ∧ ∀ o, o ∈ clients st' →
            offline_events did o out
            = if decide (readyState st' o = OPEN) then 1 else 0)
  ∧ (¬ last_close st did ev → ∀ o, offline_events did o out = 0).
Proof.
  intros Hst Hclaim Hstep.
  destruct (step_consistent _ _ _ _ _ _ Hst Hclaim Hstep) as [Hst' ->].
  destruct ev as [ws k now|ws parsed k now generated endpoint|ws|ws k now|];
    simpl in Hstep;
    try (destruct (decide (ws ∈ clients st)) as [Hin|Hnin]; try discriminate);
    apply (inj Some) in Hstep.
  - split; [intros (c & k' & now' & [=] & _)|]. intros _ o.
    apply offline_events_quiet. injection Hstep as _ <-.
    unfold handleConnection. cbn [returned fst snd]. each_output.
  - split; [intros (c & k' & now' & [=] & _)|]. intros _ o.
    apply offline_events_quiet. injection Hstep as _ <-.
    cbn [returned fst snd]. apply handleMessage_no_offline.
  - split; [intros (c & k' & now' & [=] & _)|]. intros _ o.
    by injection Hstep as _ <-.
  - pose proof (senderDid_of_consistent ident st ws Hst) as Hsender.
    change (senderDid_of st ws)
      with (senderDid_of (set_readyState st ws CLOSED) ws) in Hsender.
    destruct (clientDids st !! ws) as [d|] eqn:Hd.
    + destruct (dids_clients _ _ Hst _ _ Hd) as (_ & Hjson & Hnonempty).
      destruct (handleDisconnection_printable (set_readyState st ws CLOSED) ws
                  k now d Hsender) as [svc Hshape]; [by rewrite Hjson|].
      rewrite Hshape in Hstep. clear Hshape.
      destruct (decide (ident ws = did)) as [Hsame|Hother].
      * assert (Hkey : key d = KStr did) by (apply key_VStr; congruence).
        destruct (proj1 (online_ids _ _ Hst (key d) ws)) as (info & Hinfo & Hws);
          [eauto|].
        unfold setUserOffline in Hstep. simpl in Hstep. rewrite Hinfo in Hstep.
        destruct (decide (size (clientIds info ∖ {[ws]}) = 0)) as [Hz|Hnz].
        -- apply size_empty_inv in Hz.
           unfold broadcastUserOffline in Hstep. simpl in Hstep.
           rewrite lookup_delete_eq in Hstep.
           assert (Hout : out = broadcast st' (user_offline (json d) now))
             by (injection Hstep as <- <-; reflexivity).
           assert (Hoff : online st' (KStr did) = false).
           { injection Hstep as <- _. unfold online. simpl.
             rewrite <- Hkey, lookup_delete_eq. apply bool_decide_eq_false.
             by intros [? ?]. }
           split.
           ++ intros _. split; [exact Hoff|]. intros o Ho. unfold offline_events.
              rewrite Hout, received_broadcast by apply (clients_nodup _ _ Hst').
              destruct (decide (readyState st' o = OPEN)) as [Hopen|Hshut].
              ** rewrite decide_True by done. simpl.
                 rewrite Hjson, Hsame. by rewrite String.eqb_refl.
              ** rewrite decide_False; [done|]. by intros [_ ?].
           ++ intros Hnot. exfalso. apply Hnot. exists ws, k, now.
              split; [done|]. split; [exists d; split; congruence|].
              intros c' (d' & Hc' & Hjson').
              destruct (proj1 (online_ids _ _ Hst (key d) c'))
                as (info' & Hinfo' & Hin');
                [exists d'; split; [done|]; rewrite Hkey; by apply key_VStr|].
              rewrite Hinfo in Hinfo'. injection Hinfo' as <-.
              destruct (decide (c' = ws)) as [|Hne]; [done|]. exfalso.
              apply (not_elem_of_empty (C := gset conn) c'). rewrite <- Hz.
              by apply elem_of_remove_socket.
        -- unfold broadcastUserOffline in Hstep. simpl in Hstep.
           rewrite lookup_insert_eq in Hstep.
           assert (Hout : out = []) by (injection Hstep as _ <-; reflexivity).
           split; [|by rewrite Hout].
           intros (c & k' & now' & [= <- <- <-] & _ & Honly). exfalso.
           destruct (set_choose_L (clientIds info ∖ {[ws]})) as [c' Hc'].
           { intros Hempty. apply Hnz. rewrite Hempty. apply size_empty. }
           apply elem_of_remove_socket in Hc' as [Hc' Hne].
           apply Hne, Honly.
           destruct (proj2 (online_ids _ _ Hst (key d) c'))
             as (d' & Hd' & Hk'); [by exists info|].
           exists d'. split; [done|].
           destruct (dids_clients _ _ Hst _ _ Hd') as (_ & Hjson' & _).
           apply key_VStr in Hjson'. rewrite Hjson' in Hk'.
           rewrite Hkey in Hk'. injection Hk' as Hk'.
           destruct (dids_clients _ _ Hst _ _ Hd') as (_ & -> & _). by rewrite Hk'.
      * assert (Hout : out = broadcastUserOffline st' d now)
          by (injection Hstep as <- <-; reflexivity).
        split.
        -- intros (c & k' & now' & [= <- <- <-] & (d' & Hc & Hjson') & _).
           rewrite Hd in Hc. injection Hc as <-. congruence.
        -- intros _ o. rewrite Hout.
           apply offline_events_broadcastUserOffline_other. congruence.
    + rewrite (handleDisconnection_anonymous _ _ _ _ Hsender) in Hstep.
      assert (Hout : out = []) by (injection Hstep as _ <-; reflexivity).
      split; [|by rewrite Hout].
      intros (c & k' & now' & [= <- <- <-] & (d' & Hc & _) & _). congruence.
  - split; [intros (c & k' & now' & [=] & _)|]. intros _ o.
    rewrite (cleanupConnections_live ident st Hst) in Hstep.
    injection Hstep as _ <-. apply offline_events_quiet.
    by apply Forall_pings.
Qed.

(** Presence for any number of identities, as long as no socket claims two:
    an identity is reported online iff one of the current clients is
    authenticated under it. *)
Lemma online_iff_authenticated_client ident did st :
  consistent ident st →
  online st (KStr did) = true ↔ ∃ c, c ∈ clients st ∧ authenticated_as st c did.
Proof.
  intros Hst. unfold online. rewrite bool_decide_eq_true. split.
  - intros [info Hinfo].
    destruct (set_choose_L (clientIds info)) as [c Hc];
      [by apply (online_nonempty _ _ Hst (KStr did))|].
    destruct (proj2 (online_ids _ _ Hst (KStr did) c)) as (d & Hd & Hk);
      [eauto|].
    destruct (dids_clients _ _ Hst _ _ Hd) as (Hin & Hjson & _).
    exists c. split; [done|]. exists d. split; [done|].
    pose proof (key_VStr _ _ Hjson) as Hk'. congruence.
  - intros (c & _ & d & Hd & Hjson).
    destruct (proj1 (online_ids _ _ Hst (KStr did) c)) as (info & Hinfo & _);
      [exists d; split; [done|by apply key_VStr]|].
    by exists info.
Qed.

End Router_properties.

Lemma size_map_img_le (m : gmap conn Key) :
  (size (map_img m : gset Key) ≤ size m)%nat.
Proof.
  induction m as [|c did m Hc _ IH] using map_first_key_ind.
  - by rewrite map_img_empty_L, size_empty, map_size_empty.
  - rewrite map_img_insert_notin_L by done.
    rewrite map_size_insert_None by done.
    rewrite size_union_alt, size_singleton.
    assert (size (map_img m ∖ {[did]} : gset Key)
            ≤ size (map_img m : gset Key))%nat
      by (apply subseteq_size, subseteq_difference_l; done).
    lia.
Qed.

Lemma consistent_counts (ident : conn → string) (st : State) :
  consistent ident st →
  (size (onlineUsers st) ≤ size (clientDids st) ≤ List.length (clients st))%nat.
Proof.
  intros Hst. split.
  - rewrite <- (map_size_fmap key (clientDids st)).
    etrans; [|apply size_map_img_le].
    rewrite <- (size_dom (D := gset Key)).
    apply subseteq_size. intros k [info Hinfo]%elem_of_dom.
    destruct (set_choose_L (clientIds info)) as [c Hc];
      [by apply (online_nonempty _ _ Hst k)|].
    apply elem_of_map_img. exists c.
    destruct (proj2 (online_ids _ _ Hst k c)) as (d & Hd & Hk); [eauto|].
    by rewrite lookup_fmap, Hd, <- Hk.
  - rewrite <- (size_dom (D := gset conn)).
    rewrite <- (size_list_to_set (C := gset conn) (clients st))
      by apply (clients_nodup _ _ Hst).
    apply subseteq_size. intros c [did Hdid]%elem_of_dom.
    apply elem_of_list_to_set. by apply (dids_clients _ _ Hst c did).
Qed.

Section Presence.
Context `{Platform} `{Encoders}.

(** C6 (amended): along every trace of server events - connections,
    messages of any kind, sockets that start to close, [close] events and
    cleanup ticks - from a started server, in which every authentication
    on a socket [c] that names an identity names the non-empty string
    [ident c] (any number of sockets may share an identity), for every
    string [did]: [did] is reported online iff some current client - a
    socket whose [close] event the server has not yet handled - is
    authenticated as [did].  Every next event is handled without an
    exception; if it is the [close] of the last socket authenticated as
    [did], then [did] is reported offline afterwards and every remaining
    client receives exactly one [user_offline] for [did] if its socket is
    open and none if it is closing; at any other event no socket receives a
    [user_offline] for [did]. *)
Theorem C6_presence_follows_open_connections
    (ident : conn → string) (publicKey : list Byte.byte)
    (trace : list Event) (st : State) (out : list Action) :
  Forall (respects ident) trace →
  run (start publicKey) trace = Some (st, out) →
  ∀ did,
    (online st (KStr did) = true
     ↔ ∃ c, c ∈ clients st ∧ authenticated_as st c did)
    ∧ ∀ ev st' out' e,
        respects ident ev →
        step st ev = Some (st', out', e) →
        e = None
        ∧ (last_close st did ev →
             online st' (KStr did) = false
             ∧ ∀ o, o ∈ clients st' →
                    offline_events did o out'
                    = if decide (readyState st' o = OPEN) then 1 else 0)
        ∧ (¬ last_close st did ev → ∀ o, offline_events did o out' = 0).
Proof.
  intros Hclaims Hrun did.
  pose proof (run_consistent ident trace (start publicKey) st out
                (consistent_start ident publicKey) Hclaims Hrun) as Hst.
  split.
  - by apply (online_iff_authenticated_client ident).
  - intros ev st' out' e Hclaim Hstep. split.
    + by destruct (step_consistent ident st ev st' out' e Hst Hclaim Hstep).
    + by apply (step_offline_events ident did st ev st' out' e).
Qed.

(** X20: presence on the full server.  Along every such trace the current
    clients are distinct sockets that are open or closing, only clients are
    authenticated, each under the string it named, an identity is reported
    online iff one of the current clients is authenticated under it,
    nothing but strings is reported online, and the next event - whichever
    can occur - is handled without an exception, so the server keeps
    running. *)
Theorem presence_on_the_full_server (ident : conn → string)
    (publicKey : list Byte.byte) (trace : list Event) (st : State)
    (out : list Action) :
  Forall (respects ident) trace →
  run (start publicKey) trace = Some (st, out) →
  NoDup (clients st)
  ∧ (∀ c, c ∈ clients st → readyState st c = OPEN ∨ readyState st c = CLOSING)
  ∧ (∀ c d, clientDids st !! c = Some d →
            c ∈ clients st ∧ json d = VStr (ident c) ∧ ident c ≠ "")
  ∧ (∀ did, online st (KStr did) = true
            ↔ ∃ c, c ∈ clients st ∧ authenticated_as st c did)
  ∧ (∀ k, online st k = true → ∃ did, k = KStr did)
  ∧ ∀ ev, respects ident ev → is_Some (step st ev) →
          ∃ st' out', step st ev = Some (st', out', None).
Proof.
  intros Hclaims Hrun.
  pose proof (run_consistent ident trace (start publicKey) st out
                (consistent_start ident publicKey) Hclaims Hrun) as Hst.
  split; [apply (clients_nodup _ _ Hst)|].
  split; [apply (clients_live _ _ Hst)|].
  split; [apply (dids_clients _ _ Hst)|].
  split; [intros did; by apply (online_iff_authenticated_client ident)|].
  split.
  - intros k Hk. unfold online in Hk. apply bool_decide_eq_true in Hk as [info Hinfo].
    destruct (set_choose_L (clientIds info)) as [c Hc];
      [by apply (online_nonempty _ _ Hst k)|].
    destruct (proj2 (online_ids _ _ Hst k c)) as (d & Hd & Hkey); [eauto|].
    destruct (dids_clients _ _ Hst _ _ Hd) as (_ & Hjson & _).
    exists (ident c). rewrite <- Hkey. by apply key_VStr.
  - intros ev Hclaim Hsome. by apply (step_returns ident).
Qed.

(** X21: the counts [getStats] reports are ordered.  Along every such trace
    there are at most as many online users as authenticated sockets and at
    most as many authenticated sockets as connections, and the number of
    active webhooks is the number of chats that have one. *)
Theorem stats_are_ordered (ident : conn → string)
    (publicKey : list Byte.byte) (trace : list Event) (st : State)
    (out : list Action) :
  Forall (respects ident) trace →
  run (start publicKey) trace = Some (st, out) →
  (stat_onlineUsers (getStats st) ≤ registeredClients (getStats st)
   ≤ totalConnections (getStats st))%nat
  ∧ activeWebhooks (getStats st) = size (webhooks st).
Proof.
  intros Hclaims Hrun.
  pose proof (run_consistent ident trace (start publicKey) st out
                (consistent_start ident publicKey) Hclaims Hrun) as Hst.
  split; [by apply (consistent_counts ident)|].
  unfold getStats, listWebhooks. simpl.
  rewrite length_fmap. apply length_map_to_list.
Qed.

End Presence.

(** X17: an authentication for which the DIDComm service holds no queued
    message.  For an identity that is truthy and that a log line can print,
    the server stores the identity for the socket, registers the socket in
    the DIDComm service under the identity, marks the identity online, and
    its whole output is the [authenticated] envelope to the socket followed
    by [user_online] to every open client: the registration writes nothing
    to any socket.  For a truthy identity that a log line cannot print, the
    identity is stored for the socket and the socket is registered in the
    DIDComm service all the same, but the identity is not marked online and
    the only output is [auth_error] to the socket. *)
Theorem authentication_with_empty_queue (st : State) (ws : conn)
    (message : Message) (clientId now : string) :
  truthy (json (m_did message)) = true →
  (interpolates (json (m_did message)) = true →
   messageQueue (didCommService st) !! key (m_did message) = None →
   handleAuthentication st ws message clientId now
   = (setUserOnline
        (set_didCommService
           (set_clientDids st (<[ws := m_did message]> (clientDids st)))
           (set_connectedClients (didCommService st)
              (<[key (m_did message) :=
                   {| DIDCommService.ws := ws; registeredAt := now;
                      lastActivity := now |}]>
                 (connectedClients (didCommService st)))))
        (m_did message) ws now,
      sendToClient st ws (authenticated (json (m_did message)) true None now)
      ++ broadcast st (user_online (json (m_did message)) now)))
  ∧ (interpolates (json (m_did message)) = false →
     handleAuthentication st ws message clientId now
     = (set_didCommService
          (set_clientDids st (<[ws := m_did message]> (clientDids st)))
          (set_connectedClients (didCommService st)
             (<[key (m_did message) :=
                  {| DIDCommService.ws := ws; registeredAt := now;
                     lastActivity := now |}]>
                (connectedClients (didCommService st)))),
        sendToClient st ws (auth_error "Falha na autenticação DIDComm"))).
Proof.
  intros Ht. split.
  - intros Hp Hq.
    destruct (handleAuthentication_accepted st ws message clientId now Ht Hp)
      as (svc & frames & -> & Hreg).
    unfold registerClient in Hreg. rewrite Ht in Hreg. simpl negb in Hreg.
    cbv iota in Hreg.
    rewrite (log_Return [json (m_did message)]) in Hreg
      by (simpl; by rewrite Hp).
    unfold processQueuedMessages in Hreg. simpl in Hreg. rewrite Hq in Hreg.
    by injection Hreg as -> ->.
  - intros Hp. unfold handleAuthentication. rewrite Ht. simpl negb. cbv iota.
    cbn [didCommService set_clientDids readyState].
    by rewrite (registerClient_Throw (didCommService st) (m_did message) ws now
                  (readyState st) Ht Hp).
Qed.

Ltac session_respects :=
  repeat constructor; simpl; try done;
  intros _ _; vm_compute; reflexivity.

Lemma C6_witness :
  online (Scenario.after Scenario.one_left) (KStr "did:a") = true
  ∧ offline_events "did:a" 3
      (handleDisconnection
         (set_readyState (Scenario.after Scenario.one_left) 2 CLOSED)
         2 "k2" "t7").1.2 = 1%nat.
Proof.
  destruct (@C6_presence_follows_open_connections Reference.platform
              Reference.encoders (fun _ => "did:a") Scenario.public_key
              Scenario.one_left
              (Scenario.after Scenario.one_left)
              (Scenario.outputs Scenario.one_left)) with (did := "did:a")
    as (Honline & Hnext).
  - session_respects.
  - vm_compute. reflexivity.
  - split.
    + apply Honline. exists 2. split.
      * apply list_elem_of_In. vm_compute. tauto.
      * exists (str "did:a"). split; vm_compute; reflexivity.
    + destruct (Hnext (Close 2 "k2" "t7")
                  (handleDisconnection
                     (set_readyState (Scenario.after Scenario.one_left) 2 CLOSED)
                     2 "k2" "t7").1.1
                  (handleDisconnection
                     (set_readyState (Scenario.after Scenario.one_left) 2 CLOSED)
                     2 "k2" "t7").1.2
                  None) as (_ & Hlast & _).
      * done.
      * vm_compute. reflexivity.
      * destruct Hlast as [_ Hlast].
        -- exists 2, "k2", "t7". split; [reflexivity|].
           unfold authenticated_as.
           assert (clientDids (Scenario.after Scenario.one_left)
                   = {[ 2 := str "did:a" ]}) as -> by (vm_compute; reflexivity).
           split.
           ++ exists (str "did:a"). split; [apply lookup_singleton_eq|done].
           ++ intros c' (d & Hc' & _).
              by apply lookup_singleton_Some in Hc' as [<- _].
        -- rewrite (Hlast 3); [vm_compute; reflexivity|].
           apply list_elem_of_In. vm_compute. tauto.
Defined.

(** C6, the counterexample: an identity need not be a string.  Sockets 1
    and 2 authenticate with the same JSON, the object [{"id":"did:a"}];
    each message is parsed into an object of its own, and [onlineUsers]
    keeps objects apart.  When socket 1 closes, sockets 2 and 3 are told
    that the identity went offline although socket 2, authenticated with
    it, is still open; when socket 2 closes, socket 3 is told a second
    time. *)
Lemma C6_counterexample :
  json <$> (clientDids (Scenario.after (Scenario.twins ++ [Close 1 "k1" "t6"]))
              !! 2)
  = Some (VObj [("id", VStr "did:a")])
  ∧ readyState (Scenario.after (Scenario.twins ++ [Close 1 "k1" "t6"])) 2 = OPEN
  ∧ drop (List.length (Scenario.outputs Scenario.twins))
         (Scenario.outputs
            (Scenario.twins ++ [Close 1 "k1" "t6"; Close 2 "k2" "t7"]))
    = [Send 2 (user_offline (VObj [("id", VStr "did:a")]) "t6");
       Send 3 (user_offline (VObj [("id", VStr "did:a")]) "t6");
       Send 3 (user_offline (VObj [("id", VStr "did:a")]) "t7")].
Proof. vm_compute. repeat split. Qed.

Lemma presence_on_the_full_server_witness :
  NoDup (clients Scenario.final)
  ∧ (∀ c, c ∈ clients Scenario.final →
          readyState Scenario.final c = OPEN
          ∨ readyState Scenario.final c = CLOSING)
  ∧ (∀ c d, clientDids Scenario.final !! c = Some d →
            c ∈ clients Scenario.final ∧ json d = VStr "did:a" ∧ "did:a" ≠ "")
  ∧ (∀ did, online Scenario.final (KStr did) = true
            ↔ ∃ c, c ∈ clients Scenario.final
                   ∧ authenticated_as Scenario.final c did)
  ∧ (∀ k, online Scenario.final k = true → ∃ did, k = KStr did)
  ∧ ∀ ev, respects (fun _ => "did:a") ev →
          is_Some (@step Reference.platform Reference.encoders
                     Scenario.final ev) →
          ∃ st' out', @step Reference.platform Reference.encoders
                        Scenario.final ev = Some (st', out', None).
Proof.
  apply (@presence_on_the_full_server Reference.platform Reference.encoders
           (fun _ => "did:a") Scenario.public_key Scenario.session
           Scenario.final Scenario.transcript).
  - session_respects.
  - vm_compute; reflexivity.
Defined.

Lemma stats_are_ordered_witness :
  (stat_onlineUsers (getStats Scenario.final)
   ≤ registeredClients (getStats Scenario.final)
   ≤ totalConnections (getStats Scenario.final))%nat
  ∧ activeWebhooks (getStats Scenario.final) = size (webhooks Scenario.final).
Proof.
  apply (@stats_are_ordered Reference.platform Reference.encoders
           (fun _ => "did:a") Scenario.public_key Scenario.session
           Scenario.final Scenario.transcript).
  - session_respects.
  - vm_compute; reflexivity.
Defined.

Lemma authentication_with_empty_queue_witness :
  (handleAuthentication Scenario.relay 3%nat (Scenario.authenticate "did:b")
     "k3" "t6").2
  = [Send 3 (authenticated (VStr "did:b") true None "t6");
     Send 1 (user_online (VStr "did:b") "t6");
     Send 2 (user_online (VStr "did:b") "t6");
     Send 3 (user_online (VStr "did:b") "t6")]
  ∧ (handleAuthentication Scenario.relay 3%nat
       (Scenario.authenticate_with
          {| json := Scenario.unprintable; object_id := 9 |}) "k3" "t6").2
    = [Send 3 (auth_error "Falha na autenticação DIDComm")].
Proof.
  destruct (authentication_with_empty_queue Scenario.relay 3%nat
              (Scenario.authenticate "did:b") "k3" "t6" eq_refl)
    as [Hprintable _].
  destruct (authentication_with_empty_queue Scenario.relay 3%nat
              (Scenario.authenticate_with
                 {| json := Scenario.unprintable; object_id := 9 |})
              "k3" "t6" eq_refl)
    as [_ Hunprintable].
  split.
  - rewrite Hprintable; vm_compute; reflexivity.
  - rewrite Hunprintable; vm_compute; reflexivity.
Defined.

(** ** Credential encryption *)

Import CredentialCryptoService.

Lemma hex_pair (b : Byte.byte) :
  hex_value (hex_digit (Byte.to_N b / 16)) = Some (Byte.to_N b / 16)%N
  ∧ hex_value (hex_digit (Byte.to_N b mod 16)) = Some (Byte.to_N b mod 16)%N
  ∧ byte_of_N (16 * (Byte.to_N b / 16) + Byte.to_N b mod 16) = b.
Proof. destruct b; vm_compute; done. Qed.

(** [Buffer.from(buf.toString('hex'), 'hex')] is [buf]. *)
Lemma from_hex_to_hex (buf : list Byte.byte) : from_hex (to_hex buf) = buf.
Proof.
  induction buf as [|b buf IH]; [done|].
  destruct (hex_pair b) as (Hhi & Hlo & Hb).
  cbn [to_hex from_hex]. by rewrite Hhi, Hlo, Hb, IH.
Qed.

Section Crypto_properties.
Context `{Platform}.

Lemma decryptCredential_error (requester : string)
    (b : option EncryptedCredential) (e : exn) :
  decryptCredential requester b = Throw e →
  e = Error "Falha na descriptografia da credencial".
Proof.
  unfold decryptCredential, rethrow_as.
  destruct (match b with Some _ => _ | None => _ end); [done|].
  by intros [= <-].
Qed.

Lemma decryptCredential_ignores_checksum (requester : string)
    (b : EncryptedCredential) (c : string) :
  decryptCredential requester (Some (with_checksum b c))
  = decryptCredential requester (Some b).
Proof. reflexivity. Qed.

(** C9: for a non-empty identity and a truthy value (every object is) that
    the JSON serializer round-trips and whose serialization the cipher
    round-trips under the derived key, [encryptCredential] returns a blob
    and [decryptCredential] of that blob, as the same identity, returns the
    value. *)
Theorem C9_decrypt_after_encrypt
    (id : string) (X : value) (salt_bytes iv_bytes : list Byte.byte)
    (now : string) :
  id ≠ "" →
  truthy X = true →
  JSON_parse (JSON_stringify X) = Some X →
  createDecipher_utf8 algorithm (deriveKey id salt_bytes)
    (createCipher_hex algorithm (deriveKey id salt_bytes) (JSON_stringify X))
  = Some (JSON_stringify X) →
  ∃ blob,
    encryptCredential id X salt_bytes iv_bytes now = Return blob
    ∧ userDid blob = id
    ∧ decryptCredential id (Some blob) = Return X.
Proof.
  intros Hid HX Hjson Hcipher. apply truthy_str_Some in Hid.
  unfold encryptCredential. simpl truthy at 1.
  change (negb (String.eqb id "")) with (truthy_str (Some id)).
  rewrite Hid, HX. simpl.
  eexists. split; [reflexivity|]. split; [reflexivity|].
  unfold decryptCredential. simpl truthy.
  change (negb (String.eqb id "")) with (truthy_str (Some id)).
  rewrite Hid. simpl. rewrite String.eqb_refl. simpl.
  by rewrite from_hex_to_hex, Hcipher, Hjson.
Qed.

End Crypto_properties.

Lemma C9_witness :
  @decryptCredential Reference.platform "did:a" (Some Scenario.blob)
  = Return Scenario.credential.
Proof.
  destruct (@C9_decrypt_after_encrypt Reference.platform "did:a"
              Scenario.credential Scenario.salt_bytes Scenario.iv_bytes "t0")
    as (blob & Hblob & _ & Hback);
    [discriminate | reflexivity | vm_compute; reflexivity
    | vm_compute; reflexivity |].
  assert (blob = Scenario.blob) as <-; [|exact Hback].
  assert (@encryptCredential Reference.platform "did:a" Scenario.credential
            Scenario.salt_bytes Scenario.iv_bytes "t0" = Return Scenario.blob)
    as Hrun by (vm_compute; reflexivity).
  rewrite Hrun in Hblob. by injection Hblob.
Defined.

Section Integrity.
Context `{Platform}.

Lemma encryptCredential_Return (id : string) (X : value)
    (salt_bytes iv_bytes : list Byte.byte) (now : string)
    (blob : EncryptedCredential) :
  encryptCredential id X salt_bytes iv_bytes now = Return blob →
  id ≠ ""
  ∧ blob = {| enc_version := "1.0";
              enc_algorithm := algorithm;
              encrypted := createCipher_hex algorithm (deriveKey id salt_bytes)
                             (JSON_stringify X);
              salt := to_hex salt_bytes;
              iv := to_hex iv_bytes;
              createdAt := now;
              userDid := id;
              checksum := calculateChecksum
                            (createCipher_hex algorithm (deriveKey id salt_bytes)
                               (JSON_stringify X)) |}.
Proof.
  unfold encryptCredential. simpl truthy at 1.
  destruct (String.eqb_spec id "") as [->|Hne]; simpl; [done|].
  destruct (truthy X); simpl; [|done].
  by intros [= <-].
Qed.

(** Decrypting as another identity fails closed. *)
Lemma decryptCredential_other_identity
    (id otherId : string) (X : value) (salt_bytes iv_bytes : list Byte.byte)
    (now : string) (blob : EncryptedCredential) :
  encryptCredential id X salt_bytes iv_bytes now = Return blob →
  otherId ≠ id →
  decryptCredential otherId (Some blob)
  = Throw (Error "Falha na descriptografia da credencial").
Proof.
  intros Hblob Hother.
  apply encryptCredential_Return in Hblob as [Hid ->].
  unfold decryptCredential. simpl.
  destruct (String.eqb otherId ""); [done|]. simpl.
  destruct (String.eqb_spec id otherId) as [|_]; [congruence|done].
Qed.

(** On a copy of a blob with another ciphertext, [decryptCredential]
    returns whatever the cipher and the JSON parser make of it. *)
Lemma decryptCredential_other_ciphertext
    (id : string) (X : value) (salt_bytes iv_bytes : list Byte.byte)
    (now : string) (blob : EncryptedCredential) (e' : string) :
  encryptCredential id X salt_bytes iv_bytes now = Return blob →
  decryptCredential id (Some (with_encrypted blob e'))
  = match createDecipher_utf8 algorithm (deriveKey id salt_bytes) e'
          ≫= JSON_parse with
    | Some v => Return v
    | None => Throw (Error "Falha na descriptografia da credencial")
    end.
Proof.
  intros Hblob.
  apply encryptCredential_Return in Hblob as [Hid ->].
  unfold decryptCredential. simpl.
  apply truthy_str_Some in Hid. simpl in Hid. rewrite Hid. simpl.
  rewrite String.eqb_refl, from_hex_to_hex. simpl.
  destruct (createDecipher_utf8 _ _ e') as [decrypted|]; [|done]. simpl.
  by destruct (JSON_parse decrypted).
Qed.

End Integrity.

(** C10: [decryptCredential] never reads the stored checksum.  On every
    platform, replacing the checksum of a blob changes nothing in what
    [decryptCredential] does with it.  For the blob that
    [encryptCredential] returns for [did:a]: decrypting it as [did:b]
    fails, and decrypting as [did:a] a copy whose first ciphertext digit
    was changed fails with the very same error, which is the one error
    [decryptCredential] raises whatever the cause; a copy whose stored
    checksum was replaced, which [validateCredentialIntegrity] reports as
    invalid, is decrypted without any error. *)
Theorem C10_decrypt_never_checks_the_checksum :
  (∀ (platform : Platform) requester b c,
     @decryptCredential platform requester (Some (with_checksum b c))
     = @decryptCredential platform requester (Some b))
  ∧ @encryptCredential Reference.platform "did:a" Scenario.credential
      Scenario.salt_bytes Scenario.iv_bytes "t0" = Return Scenario.blob
  ∧ @decryptCredential Reference.platform "did:b" (Some Scenario.blob)
    = Throw (Error "Falha na descriptografia da credencial")
  ∧ @decryptCredential Reference.platform "did:a" (Some Scenario.mutated)
    = Throw (Error "Falha na descriptografia da credencial")
  ∧ valid (@validateCredentialIntegrity Reference.platform Scenario.mutated)
    = false
  ∧ valid (@validateCredentialIntegrity Reference.platform
             (with_checksum Scenario.blob "00000000")) = false
  ∧ @decryptCredential Reference.platform "did:a"
      (Some (with_checksum Scenario.blob "00000000"))
    = Return Scenario.credential.
Proof.
  split; [intros platform requester b c; reflexivity|].
  vm_compute. done.
Qed.

(** ** Credential backups *)

Section Backup_properties.
Context `{Platform} `{Buffers}.

(** On the object of a blob, [decryptCredential_value] is
    [decryptCredential]. *)
Lemma decryptCredential_value_blob (requester : string)
    (blob : EncryptedCredential) :
  decryptCredential_value requester (credential_value blob)
  = decryptCredential requester (Some blob).
Proof.
  unfold decryptCredential_value, decryptCredential. simpl.
  destruct (negb (negb (String.eqb requester ""))); [done|]. simpl.
  destruct (negb (String.eqb (userDid blob) requester)); [done|]. done.
Qed.

Lemma encrypt_each_decrypt_each (id : string) (draw : nat → Draw)
    (items : list value) :
  id ≠ "" →
  ∀ i,
    (∀ j c, items !! j = Some c →
            truthy c = true ∧ round_trips id (draw_salt (draw (i + j)%nat)) c) →
    ∃ blobs,
      encrypt_each id items draw i = Return blobs
      ∧ decrypt_each id (credential_value <$> blobs) = Return items.
Proof.
  intros Hid. induction items as [|c items IH]; intros i Hitems.
  - by exists [].
  - destruct (Hitems 0%nat c eq_refl) as [Hc [Hjson Hcipher]].
    rewrite Nat.add_0_r in Hcipher.
    destruct (IH (S i)) as (blobs & Hblobs & Hback).
    { intros j c' Hc'. specialize (Hitems (S j) c' Hc').
      by replace (S i + j)%nat with (i + S j)%nat by lia. }
    pose proof Hid as Htruthy. apply truthy_str_Some in Htruthy.
    simpl in Htruthy.
    eexists. split.
    + simpl. unfold encryptCredential at 1. simpl truthy at 1.
      rewrite Htruthy, Hc. simpl. rewrite Hblobs. reflexivity.
    + match goal with
      | |- decrypt_each id (credential_value <$> ?blob :: blobs) = _ =>
          assert (decryptCredential id (Some blob) = Return c) as Hdec
      end.
      { unfold decryptCredential. simpl. rewrite Htruthy. simpl.
        rewrite String.eqb_refl, from_hex_to_hex. simpl.
        by rewrite Hcipher, Hjson. }
      rewrite fmap_cons. cbn [decrypt_each].
      rewrite decryptCredential_value_blob, Hdec.
      change (decrypt_each id (credential_value <$> blobs)
                ≫= (fun rest => Return (c :: rest)) = Return (c :: items)).
      by rewrite Hback.
Qed.

Lemma encrypt_each_Return (id : string) (draw : nat → Draw)
    (items : list value) :
  ∀ i, (∃ blobs, encrypt_each id items draw i = Return blobs)
       ↔ items = [] ∨ (id ≠ "" ∧ Forall (fun c => truthy c = true) items).
Proof.
  induction items as [|c items IH]; intros i.
  - split; [by left|by exists []].
  - simpl. unfold encryptCredential at 1. simpl truthy at 1. split.
    + intros [blobs Hblobs]. right.
      destruct (String.eqb_spec id "") as [->|Hid]; simpl in Hblobs; [done|].
      destruct (truthy c) eqn:Hc; simpl in Hblobs; [|done].
      destruct (encrypt_each id items draw (S i)) as [rest|] eqn:Hrest;
        [|done].
      split; [done|]. constructor; [done|].
      destruct (proj1 (IH (S i)) (ex_intro _ rest Hrest)) as [->|[_ Hall]];
        [constructor|done].
    + intros [|[Hid Hall]]; [done|].
      apply Forall_cons in Hall as [Hc Hall].
      apply truthy_str_Some in Hid. simpl in Hid. rewrite Hid, Hc. simpl.
      destruct (proj2 (IH (S i))) as [rest ->].
      { right. split; [|done]. by apply truthy_str_Some. }
      by eexists.
Qed.

Lemma rethrow_as_Return {A} (msg : string) (body : completion A) (a : A) :
  body = Return a → rethrow_as msg body = Return a.
Proof. by intros ->. Qed.

Lemma rethrow_as_Throw {A} (msg : string) (body : completion A) (e : exn) :
  rethrow_as msg body = Throw e → e = Error msg.
Proof. unfold rethrow_as. destruct body; [done|]. by intros [= <-]. Qed.

(** X22: a backup restores to the credentials it was made from.  For a
    non-empty identity and truthy credentials, each of which the serializer
    and the cipher round-trip under its own derived key, and when the
    serializer and the cipher round-trip the backup document under the key
    derived from the password, [createEncryptedBackup] returns a backup and
    [restoreEncryptedBackup] of it, for the same identity and password,
    returns the credentials in order. *)
Theorem restore_after_backup (id : string) (items : list value)
    (password : string) (draw : nat → Draw) (salt_bytes : list Byte.byte)
    (now later : string) :
  id ≠ "" →
  (∀ j c, items !! j = Some c →
          truthy c = true ∧ round_trips id (draw_salt (draw j)) c) →
  (∀ blobs,
     encrypt_each id items draw 0 = Return blobs →
     JSON_parse (JSON_stringify (backupData id now (List.length items) blobs))
     = Some (backupData id now (List.length items) blobs)
     ∧ createDecipher_utf8 algorithm (deriveKeyFromPassword password salt_bytes)
         (createCipher_hex algorithm
            (deriveKeyFromPassword password salt_bytes)
            (JSON_stringify (backupData id now (List.length items) blobs)))
       = Some (JSON_stringify (backupData id now (List.length items) blobs))) →
  ∃ backup,
    createEncryptedBackup id (VArr items) password draw salt_bytes now later
    = Return backup
    ∧ restoreEncryptedBackup id backup password = Return items.
Proof.
  intros Hid Hitems Hdoc.
  destruct (encrypt_each_decrypt_each id draw items Hid 0%nat Hitems)
    as (blobs & Hblobs & Hback).
  destruct (Hdoc blobs Hblobs) as [Hjson Hcipher].
  eexists. split.
  - unfold createEncryptedBackup. rewrite Hblobs. reflexivity.
  - unfold restoreEncryptedBackup. apply rethrow_as_Return.
    cbn [bk_salt bk_encrypted].
    rewrite from_hex_to_hex, Hcipher, Hjson. simpl.
    rewrite String.eqb_refl. simpl. exact Hback.
Qed.

(** X23: a backup restores only for the identity it was made for, and a
    failed restore never says why.  For a backup made for [id] whose
    document the serializer and the cipher round-trip under the key derived
    from the password, restoring it as any other identity with the right
    password fails, and every failure of [restoreEncryptedBackup] is the one
    error "Falha na restauração do backup". *)
Theorem backup_restores_only_for_its_owner (id other : string)
    (items : list value) (password : string) (draw : nat → Draw)
    (salt_bytes : list Byte.byte) (now later : string)
    (backup : EncryptedBackup) :
  createEncryptedBackup id (VArr items) password draw salt_bytes now later
  = Return backup →
  (∀ blobs,
     encrypt_each id items draw 0 = Return blobs →
     JSON_parse (JSON_stringify (backupData id now (List.length items) blobs))
     = Some (backupData id now (List.length items) blobs)
     ∧ createDecipher_utf8 algorithm (deriveKeyFromPassword password salt_bytes)
         (createCipher_hex algorithm
            (deriveKeyFromPassword password salt_bytes)
            (JSON_stringify (backupData id now (List.length items) blobs)))
       = Some (JSON_stringify (backupData id now (List.length items) blobs))) →
  other ≠ id →
  restoreEncryptedBackup other backup password
  = Throw (Error "Falha na restauração do backup")
  ∧ ∀ requester b p e,
      restoreEncryptedBackup requester b p = Throw e →
      e = Error "Falha na restauração do backup".
Proof.
  intros Hbackup Hdoc Hother. split.
  - unfold createEncryptedBackup in Hbackup.
    destruct (encrypt_each id items draw 0) as [blobs|] eqn:Hblobs; [|done].
    simpl in Hbackup. injection Hbackup as <-.
    destruct (Hdoc blobs eq_refl) as [Hjson Hcipher].
    unfold restoreEncryptedBackup. cbn [bk_salt bk_encrypted].
    rewrite from_hex_to_hex, Hcipher, Hjson. simpl.
    destruct (String.eqb_spec id other) as [|_]; [congruence|done].
  - intros requester b p e. apply rethrow_as_Throw.
Qed.

(** X24: [createEncryptedBackup] is all or nothing.  It returns a backup
    exactly when the credentials are an array that is empty or, the
    identity being non-empty, holds only truthy values; one [null] among
    the credentials makes the whole backup fail.  Every failure is the one
    error "Falha na criação do backup". *)
Theorem createEncryptedBackup_all_or_nothing (id : string)
    (credentials : value) (password : string) (draw : nat → Draw)
    (salt_bytes : list Byte.byte) (now later : string) :
  ((∃ backup,
      createEncryptedBackup id credentials password draw salt_bytes now later
      = Return backup)
   ↔ ∃ items, credentials = VArr items
              ∧ (items = []
                 ∨ (id ≠ "" ∧ Forall (fun c => truthy c = true) items)))
  ∧ ∀ e,
      createEncryptedBackup id credentials password draw salt_bytes now later
      = Throw e →
      e = Error "Falha na criação do backup".
Proof.
  split; [|intros e; apply rethrow_as_Throw].
  unfold createEncryptedBackup. split.
  - intros [backup Hbackup].
    destruct credentials as [| | | | |items|]; try done.
    exists items. split; [done|]. apply (encrypt_each_Return id draw items 0%nat).
    destruct (encrypt_each id items draw 0) as [blobs|]; [by eexists|done].
  - intros (items & -> & Hitems).
    apply (encrypt_each_Return id draw items 0%nat) in Hitems as [blobs ->].
    by eexists.
Qed.

End Backup_properties.

Ltac wallet_round_trips :=
  intros j c Hc;
  destruct j as [|[|j]]; simpl in Hc; [| |done];
  injection Hc as <-;
  (split; [reflexivity|split; vm_compute; reflexivity]).

Ltac document_round_trips :=
  intros blobs Hblobs; vm_compute in Hblobs; injection Hblobs as <-;
  split; vm_compute; reflexivity.

Lemma restore_after_backup_witness :
  ∃ backup,
    @createEncryptedBackup Reference.platform "did:a" (VArr Scenario.wallet)
      "hunter2" Scenario.draws Scenario.backup_salt "t8" "t9"
    = Return backup
    ∧ @restoreEncryptedBackup Reference.platform Reference.buffers "did:a"
        backup "hunter2"
      = Return Scenario.wallet.
Proof.
  apply (@restore_after_backup Reference.platform Reference.buffers
           "did:a" Scenario.wallet "hunter2" Scenario.draws
           Scenario.backup_salt "t8" "t9").
  - discriminate.
  - wallet_round_trips.
  - document_round_trips.
Defined.

Lemma backup_restores_only_for_its_owner_witness :
  @restoreEncryptedBackup Reference.platform Reference.buffers "did:b"
    Scenario.vault "hunter2"
  = Throw (Error "Falha na restauração do backup").
Proof.
  destruct (@backup_restores_only_for_its_owner Reference.platform
              Reference.buffers "did:a" "did:b" Scenario.wallet "hunter2"
              Scenario.draws Scenario.backup_salt "t8" "t9" Scenario.vault)
    as [Hfails _].
  - vm_compute; reflexivity.
  - document_round_trips.
  - discriminate.
  - exact Hfails.
Defined.

(** ** WebhookManager: the table of webhooks *)

(** X4: whatever sequence of [registerWebhook] and [removeWebhook] calls is
    made on an empty manager, with whatever chat ids and identities, every
    stored configuration is stored under the key of its own [chatId], is
    active, and has [retryAttempts] and [timeout] different from 0: a
    registration asking for 0 gets the defaults 3 and 5000, and nothing
    ever stores an inactive webhook. *)
Theorem stored_configurations_well_formed (calls : list Call)
    (k : Key) (config : WebhookConfig) :
  foldl after_call ∅ calls !! k = Some config →
  well_formed k config.
Proof.
  revert k config. induction calls as [|c calls IH] using rev_ind;
    intros k config.
  - simpl. by rewrite lookup_empty.
  - rewrite foldl_app. simpl. set (w := foldl after_call ∅ calls) in *.
    destruct c as [chat owner [input|] now generated|chat requesting]; simpl.
    + destruct (decide (key chat = k)) as [<-|Hne].
      * rewrite lookup_insert_eq. intros [= <-].
        unfold well_formed, or_num. simpl. repeat split.
        -- destruct (in_retryAttempts input) as [z|]; [|done].
           destruct (z =? 0)%Z eqn:Ez; [done|]. by apply Z.eqb_neq.
        -- destruct (in_timeout input) as [z|]; [|done].
           destruct (z =? 0)%Z eqn:Ez; [done|]. by apply Z.eqb_neq.
      * rewrite lookup_insert_ne by done. apply IH.
    + apply IH.
    + unfold removeWebhook. destruct (w !! key chat) as [webhook|]; [|apply IH].
      destruct (negb _); [apply IH|]. simpl.
      intros [_ Hin]%lookup_delete_Some. by apply IH.
Qed.

Lemma stored_configurations_well_formed_witness :
  well_formed (KStr "c1")
    {| url := "http://hooks.example.com/in"; headers := ∅; chatId := str "c1";
       ownerDid := str "did:b"; WebhookManager.registeredAt := "t2";
       secret := "generated";
       active := true; retryAttempts := 3; timeout := 5000 |}.
Proof.
  apply (stored_configurations_well_formed
           [CallRegister (str "c1") (str "did:a") (Some Scenario.zeroes)
              "t1" "generated";
            CallRemove (str "c1") (str "did:a");
            CallRegister (str "c1") (str "did:b") (Some Scenario.zeroes)
              "t2" "generated"]).
  vm_compute; reflexivity.
Defined.

(** X5: registering a webhook for a chat and then removing it with the same
    identity leaves the chat without a webhook, whoever owned the webhook
    the chat had before: the earlier owner's entry is gone, not restored.
    Neither call refuses; each ends with its log line, which prints the
    chat id and the identity and returns when both can be printed. *)
Theorem register_then_remove_clears_the_chat (webhooks : webhooks_t)
    (chat did : Held) (input : WebhookInput) (now generated : string) :
  (registerWebhook webhooks chat did (Some input) now generated).2
  = (_ ← log [json chat; json did];
     Return {| url := in_url input;
               headers := in_headers input;
               chatId := chat;
               ownerDid := did;
               WebhookManager.registeredAt := now;
               secret := or_str (in_secret input) generated;
               active := true;
               retryAttempts := or_num (in_retryAttempts input) 3;
               timeout := or_num (in_timeout input) 5000 |})
  ∧ removeWebhook
      (registerWebhook webhooks chat did (Some input) now generated).1 chat did
    = (delete (key chat) webhooks,
       _ ← log [json chat; json did]; Return true).
Proof.
  split; [done|]. simpl. unfold removeWebhook. rewrite lookup_insert_eq. simpl.
  rewrite (proj2 (same_true did did)) by done. simpl.
  by rewrite delete_insert_eq.
Qed.

(** X6: [canConfigureWebhook] answers [false] exactly when [removeWebhook]
    refuses the same identity for not being the owner. *)
Theorem canConfigureWebhook_false_iff_removal_refused (webhooks : webhooks_t)
    (chat did : Held) :
  canConfigureWebhook webhooks chat did = false
  ↔ (removeWebhook webhooks chat did).2
    = Throw (Error "Apenas o dono da sala pode remover o webhook").
Proof.
  unfold canConfigureWebhook, removeWebhook.
  destruct (webhooks !! key chat) as [webhook|]; [|done].
  destruct (same (ownerDid webhook) did); simpl; [|done].
  by destruct (log_cases [json chat; json did]) as [-> | ->].
Qed.

(** X7: [listWebhooks] returns one summary for each chat that has a webhook
    and none for any other: a summary is listed exactly when it is the
    summary of the configuration stored for its chat, and no chat is listed
    twice. *)
Theorem listWebhooks_one_entry_per_chat (webhooks : webhooks_t) :
  NoDup (sum_chatId <$> listWebhooks webhooks)
  ∧ List.length (listWebhooks webhooks) = size webhooks
  ∧ ∀ s, s ∈ listWebhooks webhooks
         ↔ ∃ config, webhooks !! sum_chatId s = Some config
                     ∧ s = {| sum_chatId := sum_chatId s;
                              sum_url := url config;
                              sum_ownerDid := ownerDid config;
                              sum_active := active config;
                              sum_registeredAt := WebhookManager.registeredAt config |}.
Proof.
  unfold listWebhooks. split; [|split].
  - rewrite <- list_fmap_compose.
    rewrite (list_fmap_ext _ fst (map_to_list webhooks) ) by done.
    apply NoDup_fst_map_to_list.
  - rewrite length_fmap. apply length_map_to_list.
  - intros s. rewrite list_elem_of_fmap. split.
    + intros ([k config] & -> & Hin%elem_of_map_to_list). simpl. eauto.
    + intros (config & Hin & Hs). exists (sum_chatId s, config). split; [done|].
      by apply elem_of_map_to_list.
Qed.

(** ** DIDCommService: the queue of undelivered messages *)

Section Queue.
Context `{Platform} `{Encoders}.

Lemma queueMessage_lookup (svc : Service) (toDid : Held) (message : value) :
  messageQueue (queueMessage svc toDid message) !! key toDid
  = Some (let queue := default [] (messageQueue svc !! key toDid) ++ [message] in
          if (100 <? List.length queue)%nat then tail queue else queue).
Proof. unfold queueMessage. simpl. by rewrite lookup_insert_eq. Qed.

Lemma queueMessage_lookup_ne (svc : Service) (toDid : Held) (did : Key)
    (message : value) :
  key toDid ≠ did →
  messageQueue (queueMessage svc toDid message) !! did = messageQueue svc !! did.
Proof. intros Hne. unfold queueMessage. simpl. by rewrite lookup_insert_ne. Qed.

Lemma queueMessage_bounded (svc : Service) (toDid : Held) (message : value) :
  bounded svc → bounded (queueMessage svc toDid message).
Proof.
  intros Hb did queue. destruct (decide (key toDid = did)) as [<-|Hne].
  - rewrite queueMessage_lookup. intros [= <-].
    destruct (messageQueue svc !! key toDid) as [q0|] eqn:Hq0; simpl.
    + apply Hb in Hq0.
      destruct (Nat.ltb_spec 100 (List.length (q0 ++ [message]))) as [Hlt|Hge];
        [rewrite length_tl|]; rewrite length_app in *; simpl in *; lia.
    + lia.
  - rewrite queueMessage_lookup_ne by done. apply (Hb did queue).
Qed.

Lemma processQueuedMessages_bounded (svc : Service) (did : Held)
    (ready : conn → ReadyState) :
  bounded svc → bounded (processQueuedMessages svc did ready).1.1.
Proof.
  intros Hb. unfold processQueuedMessages.
  destruct (messageQueue svc !! key did) as [q|]; [|done].
  destruct (0 <? List.length q)%nat; [|done].
  destruct (connectedClients svc !! key did) as [client|]; [|done].
  destruct (bool_decide _); [|done].
  destruct (log [json did]); [|done].
  intros did' queue. simpl. intros [_ Hin]%lookup_delete_Some.
  exact (Hb _ _ Hin).
Qed.

Lemma after_operation_bounded (svc : Service) (c : Operation) :
  bounded svc → bounded (after_operation svc c).
Proof.
  intros Hb.
  destruct c as [pk|did socket now ready|did|from to message iv now uuid ready
                |did now|]; simpl.
  - done.
  - unfold registerClient. destruct socket as [socket|]; [|done].
    destruct (negb _); [done|].
    destruct (log [json did]); [|done].
    by apply (processQueuedMessages_bounded (set_connectedClients svc _)).
  - unfold unregisterClient. by destruct (connectedClients svc !! key did).
  - unfold sendEncryptedMessage. destruct (negb _); [done|].
    destruct message; try done;
      (destruct (connectedClients svc !! key to) as [client|];
       [destruct (bool_decide _); [done|]|]; by apply queueMessage_bounded).
  - unfold updateClientActivity. by destruct (connectedClients svc !! key did).
  - intros did queue. simpl. by rewrite lookup_empty.
Qed.

(** X8: whatever sequence of calls is made on a new service, with whatever
    identities, every queue of undelivered messages that exists holds at
    least one and at most 100 messages. *)
Theorem queues_hold_between_1_and_100 (operations : list Operation) (did : Key)
    (queue : list value) :
  messageQueue (foldl after_operation new operations) !! did = Some queue →
  (0 < List.length queue ≤ 100)%nat.
Proof.
  revert did queue. change (bounded (foldl after_operation new operations)).
  induction operations as [|c operations IH] using rev_ind.
  - intros did queue. simpl. by rewrite lookup_empty.
  - rewrite foldl_app. simpl. by apply after_operation_bounded.
Qed.

(** X9: when 100 messages wait for an identity, queueing one more drops the
    oldest and keeps the other 99 in order, followed by the new one. *)
Theorem full_queue_drops_the_oldest (svc : Service) (toDid : Held)
    (oldest : value) (others : list value) (message : value) :
  messageQueue svc !! key toDid = Some (oldest :: others) →
  List.length others = 99%nat →
  messageQueue (queueMessage svc toDid message) !! key toDid
  = Some (others ++ [message]).
Proof.
  intros Hq Hlen. rewrite queueMessage_lookup, Hq. simpl.
  rewrite length_app, Hlen. reflexivity.
Qed.

(** X10: a message sent to an identity that has no open socket is queued,
    and when that identity then registers with an open socket, everything
    that waited for it is written to the socket, oldest first and the new
    message last, and the queue is gone.  The identity is any value that is
    truthy and that a log line can print, a string for one. *)
Theorem queued_messages_are_delivered_on_registration
    (svc : Service) (fromDid : value) (toDid : Held) (message : value)
    (iv : list Byte.byte) (now uuid : string) (ready : conn → ReadyState)
    (socket : conn) (later : string) :
  initialized svc = true →
  message ≠ VUndefined →
  truthy (json toDid) = true →
  interpolates (json toDid) = true →
  isClientOnline svc toDid ready = false →
  ready socket = OPEN →
  (List.length (default [] (messageQueue svc !! key toDid)) < 100)%nat →
  ∃ queued encryptedMessage registered,
    sendEncryptedMessage svc fromDid toDid message iv now uuid ready
    = (queued, [], Return false)
    ∧ optional_prop encryptedMessage "content"
      = VStr (simpleEncrypt (JSON_stringify message) iv)
    ∧ registerClient queued toDid (Some socket) later ready
      = (registered,
         (fun m => (socket, didcomm_message m))
           <$> (default [] (messageQueue svc !! key toDid)
                ++ [encryptedMessage]),
         Return tt)
    ∧ messageQueue registered !! key toDid = None.
Proof.
  intros Hinit Hmsg Hto Hprint Hoff Hopen Hlen.
  assert (Hlog : log [json toDid] = Return tt)
    by (apply log_Return; simpl; by rewrite Hprint).
  set (em := VObj [("type", VStr "didcomm_encrypted");
                   ("from", fromDid);
                   ("to", json toDid);
                   ("content", VStr (simpleEncrypt (JSON_stringify message) iv));
                   ("timestamp", VStr now);
                   ("messageId", VStr uuid)]).
  assert (sendEncryptedMessage svc fromDid toDid message iv now uuid ready
          = (queueMessage svc toDid em, [], Return false)) as Hsend.
  { unfold sendEncryptedMessage. rewrite Hinit, Hlog. simpl negb. cbv iota.
    unfold isClientOnline in Hoff.
    destruct message; try done;
      (destruct (connectedClients svc !! key toDid) as [client|]; [|done];
       by rewrite Hoff). }
  eexists (queueMessage svc toDid em), em, _.
  split; [exact Hsend|]. split; [done|].
  unfold registerClient. rewrite Hto, Hlog. simpl negb.
  cbv iota. unfold processQueuedMessages.
  simpl messageQueue. simpl connectedClients.
  rewrite lookup_insert_eq, lookup_insert_eq, Hlog.
  set (waiting := default [] (messageQueue svc !! key toDid)) in *.
  assert ((100 <? List.length (waiting ++ [em]))%nat = false) as ->.
  { apply Nat.ltb_ge. rewrite length_app. simpl. lia. }
  assert ((0 <? List.length (waiting ++ [em]))%nat = true) as ->.
  { apply Nat.ltb_lt. rewrite length_app. simpl. lia. }
  simpl ws. rewrite bool_decide_eq_true_2 by done.
  split; [reflexivity|].
  simpl. by rewrite lookup_delete_eq.
Qed.

End Queue.

Lemma queues_hold_between_1_and_100_witness :
  (0 < List.length
         (default []
            (messageQueue
               (foldl (@after_operation Reference.platform Reference.encoders) new
                      Scenario.two_waiting) !! KStr "did:c")) ≤ 100)%nat.
Proof.
  apply (@queues_hold_between_1_and_100 Reference.platform Reference.encoders
           Scenario.two_waiting (KStr "did:c")).
  vm_compute; reflexivity.
Defined.

Lemma full_queue_drops_the_oldest_witness :
  messageQueue (queueMessage Scenario.full (str "did:c") (VStr "newest"))
    !! KStr "did:c"
  = Some (Scenario.numbered 1 99 ++ [VStr "newest"]).
Proof.
  apply (full_queue_drops_the_oldest Scenario.full (str "did:c") (VNum 0)).
  - vm_compute; reflexivity.
  - vm_compute; reflexivity.
Defined.

Lemma queued_messages_are_delivered_on_registration_witness :
  ∃ queued registered frames,
    @sendEncryptedMessage Reference.platform Reference.encoders
      Scenario.service (VStr "did:b") (str "did:c") Scenario.greeting
      Scenario.iv_bytes "t1" "u1" Scenario.all_open
    = (queued, [], Return false)
    ∧ registerClient queued (str "did:c") (Some 3%nat) "t2" Scenario.all_open
      = (registered, frames, Return tt)
    ∧ List.length frames = 1%nat
    ∧ messageQueue registered !! KStr "did:c" = None.
Proof.
  destruct (@queued_messages_are_delivered_on_registration
              Reference.platform Reference.encoders
              Scenario.service (VStr "did:b") (str "did:c") Scenario.greeting
              Scenario.iv_bytes "t1" "u1" Scenario.all_open 3%nat "t2")
    as (queued & encryptedMessage & registered & Hsend & _ & Hreg & Hgone).
  - reflexivity.
  - discriminate.
  - reflexivity.
  - reflexivity.
  - vm_compute; reflexivity.
  - reflexivity.
  - vm_compute; lia.
  - exists queued, registered. eexists.
    split; [exact Hsend|]. split; [exact Hreg|]. split; [reflexivity|exact Hgone].
Defined.

(** ** DIDCommService: encryption and decryption *)

Lemma hex_digits_not_colon (b : Byte.byte) :
  Ascii.eqb (hex_digit (Byte.to_N b / 16)) ":" = false
  ∧ Ascii.eqb (hex_digit (Byte.to_N b mod 16)) ":" = false.
Proof. destruct b; vm_compute; done. Qed.

Lemma split_on_to_hex (buf : list Byte.byte) (rest : string) :
  split_on ":" (to_hex buf +:+ ":" +:+ rest) = to_hex buf :: split_on ":" rest.
Proof.
  induction buf as [|b buf IH]; [done|].
  destruct (hex_digits_not_colon b) as [Hhi Hlo].
  cbn [to_hex].
  change (split_on ":"
            (String (hex_digit (Byte.to_N b / 16))
               (String (hex_digit (Byte.to_N b mod 16))
                  (to_hex buf +:+ ":" +:+ rest)))
          = String (hex_digit (Byte.to_N b / 16))
              (String (hex_digit (Byte.to_N b mod 16)) (to_hex buf))
            :: split_on ":" rest).
  cbn [split_on]. by rewrite Hhi, Hlo, IH.
Qed.

Lemma split_on_hex (buf : list Byte.byte) :
  split_on ":" (to_hex buf) = [to_hex buf].
Proof.
  induction buf as [|b buf IH]; [done|].
  destruct (hex_digits_not_colon b) as [Hhi Hlo].
  cbn [to_hex split_on]. by rewrite Hhi, Hlo, IH.
Qed.

Section Encryption.
Context `{Platform} `{Encoders}.

(** X11: [simpleDecrypt] does not use the initialization vector that
    [simpleEncrypt] draws and prepends: two encryptions of a text that
    differ in the vector decrypt alike. *)
Theorem simpleDecrypt_ignores_the_iv (text : string) (iv iv' : list Byte.byte) :
  simpleDecrypt (VStr (simpleEncrypt text iv))
  = simpleDecrypt (VStr (simpleEncrypt text iv')).
Proof.
  unfold simpleDecrypt, simpleEncrypt. by rewrite !split_on_to_hex.
Qed.

(** X12: called with its arguments in the declared order,
    [processReceivedMessage] undoes [sendEncryptedMessage]: for a recipient
    with an open socket the service writes one [didcomm_message] frame, and
    processing the encrypted message in it returns the message that was
    sent, with the sender, the timestamp and the message id - provided the
    log lines can print the two identities (strings, for one), the JSON
    serializer round-trips the message and the cipher round-trips its
    serialization into hex under the demo key. *)
Theorem processReceivedMessage_undoes_sendEncryptedMessage
    (svc : Service) (fromDid : value) (toDid : Held) (message : value)
    (iv : list Byte.byte) (now uuid : string) (ready : conn → ReadyState) :
  initialized svc = true →
  message ≠ VUndefined →
  interpolates fromDid = true →
  interpolates (json toDid) = true →
  isClientOnline svc toDid ready = true →
  JSON_parse (JSON_stringify message) = Some message →
  createDecipher_utf8 "aes-256-cbc" (scryptSync "didcomm-demo-key" "salt" 32)
    (createCipher_hex "aes-256-cbc" (scryptSync "didcomm-demo-key" "salt" 32)
       (JSON_stringify message))
  = Some (JSON_stringify message) →
  to_hex (from_hex (createCipher_hex "aes-256-cbc"
                      (scryptSync "didcomm-demo-key" "salt" 32)
                      (JSON_stringify message)))
  = createCipher_hex "aes-256-cbc" (scryptSync "didcomm-demo-key" "salt" 32)
      (JSON_stringify message) →
  ∃ socket encryptedMessage,
    sendEncryptedMessage svc fromDid toDid message iv now uuid ready
    = (svc, [(socket, didcomm_message encryptedMessage)], Return true)
    ∧ processReceivedMessage fromDid encryptedMessage
      = Return (VObj [("type", VStr "didcomm_decrypted");
                      ("fromDid", fromDid);
                      ("content", message);
                      ("timestamp", VStr now);
                      ("messageId", VStr uuid)]).
Proof.
  intros Hinit Hmsg Hfrom Hto Hon Hjson Hcipher Hhex.
  unfold isClientOnline in Hon.
  destruct (connectedClients svc !! key toDid) as [client|] eqn:Hclient; [|done].
  exists (ws client). eexists. split.
  - unfold sendEncryptedMessage. rewrite Hinit, Hclient, Hon.
    rewrite (log_Return [fromDid; json toDid])
      by (simpl; by rewrite Hfrom, Hto).
    simpl. by destruct message.
  - unfold processReceivedMessage. simpl.
    unfold simpleEncrypt. rewrite split_on_to_hex.
    rewrite <- Hhex at 1. rewrite split_on_hex, Hhex, Hcipher. simpl.
    rewrite Hjson.
    by rewrite (log_Return [fromDid]) by (simpl; by rewrite Hfrom).
Qed.

End Encryption.

Lemma processReceivedMessage_undoes_sendEncryptedMessage_witness :
  ∃ socket encryptedMessage,
    @sendEncryptedMessage Reference.platform Reference.encoders
      Scenario.service (VStr "did:a") (str "did:b") Scenario.greeting
      Scenario.iv_bytes "t1" "u1" Scenario.all_open
    = (Scenario.service, [(socket, didcomm_message encryptedMessage)],
       Return true)
    ∧ @processReceivedMessage Reference.platform Reference.encoders
        (VStr "did:a") encryptedMessage
      = Return (VObj [("type", VStr "didcomm_decrypted");
                      ("fromDid", VStr "did:a");
                      ("content", Scenario.greeting);
                      ("timestamp", VStr "t1");
                      ("messageId", VStr "u1")]).
Proof.
  apply (@processReceivedMessage_undoes_sendEncryptedMessage
           Reference.platform Reference.encoders
           Scenario.service (VStr "did:a") (str "did:b") Scenario.greeting
           Scenario.iv_bytes "t1" "u1" Scenario.all_open).
  - reflexivity.
  - discriminate.
  - reflexivity.
  - reflexivity.
  - vm_compute; reflexivity.
  - vm_compute; reflexivity.
  - vm_compute; reflexivity.
  - vm_compute; reflexivity.
Defined.

(** ** The server: handlers that miss their purpose *)

Lemma senderDid_of_None (st : State) (ws : conn) :
  clientDids st !! ws = None → senderDid_of st ws = None.
Proof. intros Hnone. unfold senderDid_of. by rewrite Hnone. Qed.

Lemma senderDid_of_truthy (st : State) (ws : conn) (d : Held) :
  senderDid_of st ws = Some d → truthy (json d) = true.
Proof.
  unfold senderDid_of. destruct (clientDids st !! ws) as [d'|]; [|done].
  destruct (truthy (json d')) eqn:E; [|done]. by intros [= <-].
Qed.

Section Dead_handlers.
Context `{Platform} `{Encoders}.

(** What has no string as its [content] cannot be processed as an
    encrypted message. *)
Lemma processReceivedMessage_without_content (fromDid v : value) :
  truthy v = true →
  (∀ text, optional_prop v "content" ≠ VStr text) →
  ∃ e, processReceivedMessage fromDid v = Throw e.
Proof.
  intros Ht Hc. unfold processReceivedMessage.
  destruct v as [| | | | | |fields]; try done; simpl; try by eexists.
  simpl in Hc. destruct (field fields "content") as [| | | |text| |];
    simpl; try by eexists.
  by destruct (Hc text).
Qed.

(** X13: [handleDIDCommMessage] treats the sender's identity as the
    encrypted message.  It passes [message.encryptedMessage] where
    [processReceivedMessage] expects the sender and the sender's identity
    where it expects the encrypted message.  The state is never changed.
    A sender whose identity has no string as its [content] - every string
    identity - is answered [didcomm_error], whatever the message.  A sender
    whose identity is an object with the [content] that the service's
    encryption makes of a text gets that text decrypted and parsed, and
    every open client receives it as a [didcomm_decrypted] object that
    names [message.encryptedMessage] as its sender. *)
Theorem didcomm_message_decrypts_the_senders_identity (st : State) (ws : conn)
    (message : Message) (clientId : string) :
  (handleDIDCommMessage st ws message clientId).1 = st
  ∧ (senderDid_of st ws = None →
     (handleDIDCommMessage st ws message clientId).2
     = sendToClient st ws (error "Cliente não autenticado"))
  ∧ (∀ senderDid,
       senderDid_of st ws = Some senderDid →
       (∀ text, optional_prop (json senderDid) "content" ≠ VStr text) →
       (handleDIDCommMessage st ws message clientId).2
       = sendToClient st ws
           (didcomm_error "Falha ao processar mensagem criptografada"))
  ∧ (∀ senderDid text iv content,
       senderDid_of st ws = Some senderDid →
       optional_prop (json senderDid) "content" = VStr (simpleEncrypt text iv) →
       to_hex (from_hex (createCipher_hex "aes-256-cbc"
                           (scryptSync "didcomm-demo-key" "salt" 32) text))
       = createCipher_hex "aes-256-cbc"
           (scryptSync "didcomm-demo-key" "salt" 32) text →
       createDecipher_utf8 "aes-256-cbc"
         (scryptSync "didcomm-demo-key" "salt" 32)
         (createCipher_hex "aes-256-cbc"
            (scryptSync "didcomm-demo-key" "salt" 32) text)
       = Some text →
       JSON_parse text = Some content →
       interpolates (m_encryptedMessage message) = true →
       interpolates (json senderDid) = true →
       (handleDIDCommMessage st ws message clientId).2
       = broadcastObject st
           (VObj (obj_set
                    (assign [("type", VStr "didcomm_decrypted")]
                       (VObj [("type", VStr "didcomm_decrypted");
                              ("fromDid", m_encryptedMessage message);
                              ("content", content);
                              ("timestamp",
                               optional_prop (json senderDid) "timestamp");
                              ("messageId",
                               optional_prop (json senderDid) "messageId")]))
                    "clientId" (VStr clientId)))).
Proof.
  split; [|split; [|split]].
  - unfold handleDIDCommMessage. destruct (senderDid_of st ws); [|done].
    by destruct (processReceivedMessage _ _).
  - intros Hnone. unfold handleDIDCommMessage. by rewrite Hnone.
  - intros senderDid Hsender Hcontent. unfold handleDIDCommMessage.
    rewrite Hsender.
    destruct (processReceivedMessage_without_content
                (m_encryptedMessage message) (json senderDid)) as [e ->];
      [by apply (senderDid_of_truthy st ws)|done|done].
  - intros senderDid text iv content Hsender Hcontent Hhex Hcipher Hjson
      Hfrom Hdid.
    unfold handleDIDCommMessage. rewrite Hsender.
    assert (processReceivedMessage (m_encryptedMessage message) (json senderDid)
            = Return (VObj [("type", VStr "didcomm_decrypted");
                            ("fromDid", m_encryptedMessage message);
                            ("content", content);
                            ("timestamp",
                             optional_prop (json senderDid) "timestamp");
                            ("messageId",
                             optional_prop (json senderDid) "messageId")]))
      as ->.
    { unfold processReceivedMessage.
      assert (prop (json senderDid) "content"
              = Return (VStr (simpleEncrypt text iv))) as ->.
      { destruct (json senderDid); try done. simpl in *. by rewrite Hcontent. }
      simpl. unfold simpleEncrypt. rewrite split_on_to_hex.
      rewrite <- Hhex at 1. rewrite split_on_hex, Hhex, Hcipher. simpl.
      rewrite Hjson.
      by rewrite (log_Return [m_encryptedMessage message])
        by (simpl; by rewrite Hfrom). }
    rewrite (log_Return [json senderDid]) by (simpl; by rewrite Hdid).
    simpl. by rewrite app_nil_r.
Qed.

(** X14: [configure_webhook] never configures a webhook.
    [handleConfigureWebhook] calls [registerWebhook] with two arguments, the
    manager throws on the missing third, and for every message the state is
    unchanged and whatever is sent is an [error] envelope to the sender;
    the only exception that can leave the handler is the one of the log
    line that prints the chat id. *)
Theorem configure_webhook_never_registers (st : State) (ws : conn)
    (message : Message) (clientId now generated : string) :
  (handleConfigureWebhook st ws message clientId now generated).1.1 = st
  ∧ Forall (fun a => ∃ text, a = Send ws (error text))
      (handleConfigureWebhook st ws message clientId now generated).1.2
  ∧ ((handleConfigureWebhook st ws message clientId now generated).2 = None
     ∨ (handleConfigureWebhook st ws message clientId now generated).2
       = Some cannot_convert).
Proof.
  assert (∀ text,
            Forall (fun a => ∃ text, a = Send ws (error text))
              (sendToClient st ws (error text))) as Herr.
  { intros text. apply Forall_sendToClient. eauto. }
  unfold handleConfigureWebhook.
  destruct (senderDid_of st ws) as [ownerDid|];
    [|split; [done|split; [apply Herr|by left]]].
  destruct (m_webhook message) as [webhook|];
    [|split; [done|split; [apply Herr|by left]]].
  destruct (negb (truthy (json (m_chatId message))));
    [split; [done|split; [apply Herr|by left]]|].
  destruct (log_cases [json (m_chatId message)]) as [-> | ->];
    [|split; [done|split; [done|by right]]].
  simpl. split; [apply set_webhooks_same|]. split; [apply Herr|by left].
Qed.

(** X15: a socket that has not authenticated can change nothing and reach
    nobody else.  Whatever it sends, other than an [authenticate] or [auth]
    message - unparsable data included -, the server state is unchanged and
    every output is an envelope written to that same socket: no broadcast,
    no relay, no webhook call. *)
Theorem unauthenticated_socket_is_confined (st : State) (ws : conn)
    (parsed : option Message) (clientId now generated : string)
    (endpoint : nat → Outcome) :
  clientDids st !! ws = None →
  (∀ message, parsed = Some message →
     m_type message ≠ VStr "authenticate" ∧ m_type message ≠ VStr "auth") →
  (handleMessage st ws parsed clientId now generated endpoint).1 = st
  ∧ Forall (to_socket ws)
      (handleMessage st ws parsed clientId now generated endpoint).2.
Proof.
  intros Hnone%senderDid_of_None Htype.
  assert (Hto : ∀ st' m, Forall (to_socket ws) (sendToClient st' ws m)).
  { intros st' m. apply Forall_sendToClient. by exists m. }
  unfold handleMessage. destruct parsed as [message|];
    [|split; [done|apply Hto]].
  destruct (Htype message eq_refl) as [Ha1 Ha2].
  assert (Hdispatch :
    (dispatch st ws message clientId now generated endpoint).1.1 = st
    ∧ Forall (to_socket ws)
        (dispatch st ws message clientId now generated endpoint).1.2).
  { unfold dispatch.
    destruct (m_type message) as [| | | |type| |]; try by split.
    assert (String.eqb type "authenticate" = false) as ->
      by (apply String.eqb_neq; congruence).
    assert (String.eqb type "auth" = false) as ->
      by (apply String.eqb_neq; congruence).
    simpl orb. cbv iota.
    repeat match goal with
           | |- context [if String.eqb ?t ?s then _ else _] =>
               destruct (String.eqb t s)
           end.
    - unfold handleChatMessage. rewrite Hnone. split; [done|apply Hto].
    - unfold handleDIDCommMessage. rewrite Hnone. split; [done|apply Hto].
    - unfold handleEncryptedChat. rewrite Hnone. split; [done|apply Hto].
    - unfold handleWebhookRegistration. rewrite Hnone. split; [done|apply Hto].
    - unfold handleWebhookRemoval. rewrite Hnone. split; [done|apply Hto].
    - unfold handleCreateInvite. rewrite Hnone. split; [done|apply Hto].
    - unfold handleUseInvite. destruct (_ || _); [split; [done|apply Hto]|].
      destruct (log _); split; try done; apply Hto.
    - unfold handleRevokeInvite. destruct (negb _); [split; [done|apply Hto]|].
      destruct (log _); split; try done; apply Hto.
    - unfold handleListInvites. destruct (negb _); [split; [done|apply Hto]|].
      destruct (log _); split; try done; apply Hto.
    - unfold handleConfigureWebhook. rewrite Hnone. split; [done|apply Hto].
    - unfold handleTestWebhook. rewrite Hnone. split; [done|apply Hto].
    - unfold handlePing. split; [done|apply Hto].
    - by split. }
  destruct Hdispatch as [Hstate Hout]. cbn [fst snd].
  split; [done|]. apply Forall_app_2; [done|].
  destruct (dispatch _ _ _ _ _ _ _).2; [apply Hto|done].
Qed.

End Dead_handlers.

Lemma didcomm_message_decrypts_the_senders_identity_witness :
  (@handleDIDCommMessage Reference.platform Reference.encoders
     Scenario.three_sockets 1%nat (Scenario.didcomm Scenario.greeting) "k1").2
  = [Send 1%nat (didcomm_error "Falha ao processar mensagem criptografada")]
  ∧ (@handleDIDCommMessage Reference.platform Reference.encoders
       Scenario.masked 1%nat (Scenario.didcomm (VStr "anyone")) "k1").2
    = [SendObject 1%nat
         (VObj [("type", VStr "didcomm_decrypted");
                ("fromDid", VStr "anyone");
                ("content", Scenario.greeting);
                ("timestamp", VStr "t0");
                ("messageId", VStr "u0");
                ("clientId", VStr "k1")]);
       SendObject 2%nat
         (VObj [("type", VStr "didcomm_decrypted");
                ("fromDid", VStr "anyone");
                ("content", Scenario.greeting);
                ("timestamp", VStr "t0");
                ("messageId", VStr "u0");
                ("clientId", VStr "k1")])].
Proof.
  destruct (@didcomm_message_decrypts_the_senders_identity Reference.platform
              Reference.encoders Scenario.three_sockets 1%nat
              (Scenario.didcomm Scenario.greeting) "k1")
    as (_ & _ & Hstring & _).
  destruct (@didcomm_message_decrypts_the_senders_identity Reference.platform
              Reference.encoders Scenario.masked 1%nat
              (Scenario.didcomm (VStr "anyone")) "k1")
    as (_ & _ & _ & Hobject).
  split.
  - rewrite (Hstring (str "did:a")); [vm_compute; reflexivity| |done].
    vm_compute; reflexivity.
  - rewrite (Hobject Scenario.envelope_did
               (@JSON_stringify Reference.platform Scenario.greeting)
               Scenario.iv_bytes Scenario.greeting);
      vm_compute; reflexivity.
Defined.

Lemma unauthenticated_socket_is_confined_witness :
  (@handleMessage Reference.platform Reference.encoders Scenario.relay 3%nat
     (Some Scenario.hi) "k3" "t6" "generated"
     (Scenario.always RequestTimeout)).1 = Scenario.relay
  ∧ Forall (to_socket 3%nat)
      (@handleMessage Reference.platform Reference.encoders Scenario.relay 3%nat
         (Some Scenario.hi) "k3" "t6" "generated"
         (Scenario.always RequestTimeout)).2.
Proof.
  apply (@unauthenticated_socket_is_confined Reference.platform
           Reference.encoders).
  - vm_compute; reflexivity.
  - intros message [= <-]. split; discriminate.
Defined.

(** ** The server: what reaches the DIDComm service *)

Ltac same_service :=
  repeat first
    [ reflexivity
    | progress cbn [fst snd returned didCommService set_webhooks]
    | match goal with
      | |- didCommService (let '(_, _) := ?x in _).1 = _ => destruct x
      | |- didCommService (let '(_, _) := ?x in _).1.1 = _ => destruct x
      | |- didCommService (match ?x with _ => _ end).1 = _ => destruct x
      | |- didCommService (match ?x with _ => _ end).1.1 = _ => destruct x
      | |- didCommService (if ?x then _ else _).1 = _ => destruct x
      | |- didCommService (if ?x then _ else _).1.1 = _ => destruct x
      end ].

Ltac no_object :=
  repeat first
    [ progress cbn [fst snd returned]
    | match goal with
      | |- Forall _ (let '(_, _) := ?x in _).2 => destruct x
      | |- Forall _ (let '(_, _) := ?x in _).1.2 => destruct x
      | |- Forall _ (match ?x with _ => _ end).2 => destruct x
      | |- Forall _ (match ?x with _ => _ end).1.2 => destruct x
      | |- Forall _ (if ?x then _ else _).2 => destruct x
      | |- Forall _ (if ?x then _ else _).1.2 => destruct x
      end
    | progress each_output ].

Section Silent.
Context `{Platform} `{Encoders}.

Lemma dispatch_same_service st ws message clientId now generated endpoint :
  is_authenticate (m_type message) = false →
  didCommService (dispatch st ws message clientId now generated endpoint).1.1
  = didCommService st.
Proof.
  intros Hna. unfold dispatch, is_authenticate in *.
  destruct (m_type message) as [| | | |type| |]; try reflexivity.
  rewrite Hna.
  repeat (match goal with
          | |- context [if String.eqb ?a ?b then _ else _] =>
              destruct (String.eqb a b)
          end);
    [unfold handleChatMessage | unfold handleDIDCommMessage
    | unfold handleEncryptedChat | unfold handleWebhookRegistration
    | unfold handleWebhookRemoval | unfold handleCreateInvite
    | unfold handleUseInvite | unfold handleRevokeInvite
    | unfold handleListInvites | unfold handleConfigureWebhook
    | unfold handleTestWebhook | unfold handlePing | ];
    same_service.
Qed.

Lemma registerClient_nothing_queued (svc : Service) (did : Held) (socket : conn)
    (now : string) (ready : conn → ReadyState) :
  messageQueue svc = ∅ →
  messageQueue (registerClient svc did (Some socket) now ready).1.1 = ∅
  ∧ (registerClient svc did (Some socket) now ready).1.2 = [].
Proof.
  intros Hq. unfold registerClient.
  destruct (negb (truthy (json did))); [done|].
  destruct (log [json did]); [|done].
  unfold processQueuedMessages. simpl. by rewrite Hq, lookup_empty.
Qed.

Lemma unregisterClient_queue (svc : Service) (did : Held) :
  messageQueue (unregisterClient svc did).1 = messageQueue svc.
Proof.
  unfold unregisterClient. by destruct (connectedClients svc !! key did).
Qed.

Lemma handleAuthentication_silent st ws message clientId now :
  messageQueue (didCommService st) = ∅ →
  messageQueue
    (didCommService (handleAuthentication st ws message clientId now).1) = ∅
  ∧ Forall (fun a => is_object a = false)
      (handleAuthentication st ws message clientId now).2
  ∧ (clientDids (handleAuthentication st ws message clientId now).1
     = clientDids st
     ∨ clientDids (handleAuthentication st ws message clientId now).1
       = <[ws := m_did message]> (clientDids st)).
Proof.
  intros Hq. unfold handleAuthentication.
  destruct (negb (truthy (json (m_did message)))).
  { split; [done|]. split; [each_output|by left]. }
  cbn [didCommService set_clientDids readyState].
  destruct (registerClient_nothing_queued (didCommService st) (m_did message)
              ws now (readyState st) Hq) as [Hq' Hframes].
  destruct (registerClient (didCommService st) (m_did message) (Some ws) now
              (readyState st)) as [[svc frames] registered].
  simpl in Hq', Hframes. subst frames.
  destruct registered; (split; [done|split; [|by right]]); simpl; each_output.
Qed.

Lemma handleDIDCommMessage_silent st ws message clientId :
  (∀ d, clientDids st !! ws = Some d →
        ∀ text, optional_prop (json d) "content" ≠ VStr text) →
  Forall (fun a => is_object a = false)
    (handleDIDCommMessage st ws message clientId).2.
Proof.
  intros Hplain. unfold handleDIDCommMessage.
  destruct (senderDid_of st ws) as [senderDid|] eqn:Hsender; [|each_output].
  destruct (processReceivedMessage_without_content
              (m_encryptedMessage message) (json senderDid)) as [e ->].
  - by apply (senderDid_of_truthy st ws).
  - apply Hplain. unfold senderDid_of in Hsender.
    destruct (clientDids st !! ws) as [d|]; [|done].
    destruct (truthy (json d)); [|done]. by injection Hsender as ->.
  - each_output.
Qed.

Lemma dispatch_silent st ws message clientId now generated endpoint :
  messageQueue (didCommService st) = ∅ →
  (∀ d, clientDids st !! ws = Some d →
        ∀ text, optional_prop (json d) "content" ≠ VStr text) →
  Forall (fun a => is_object a = false)
    (dispatch st ws message clientId now generated endpoint).1.2.
Proof.
  intros Hq Hplain. unfold dispatch.
  destruct (m_type message) as [| | | |type| |]; try apply Forall_nil_2.
  destruct (_ || _);
    [apply (handleAuthentication_silent st ws message clientId now Hq)|].
  destruct (String.eqb type "chat_message");
    [unfold handleChatMessage; no_object|].
  destruct (String.eqb type "didcomm_message");
    [by apply handleDIDCommMessage_silent|].
  repeat (match goal with
          | |- context [if ?b then _ else _] => destruct b
          end);
    [unfold handleEncryptedChat | unfold handleWebhookRegistration
    | unfold handleWebhookRemoval | unfold handleCreateInvite
    | unfold handleUseInvite | unfold handleRevokeInvite
    | unfold handleListInvites | unfold handleConfigureWebhook
    | unfold handleTestWebhook | unfold handlePing | ];
    no_object.
  unfold var, toDid. destruct (truthy (json (m_chatId message))); simpl;
    each_output.
Qed.

Lemma sweep_queue (visit : list conn) :
  ∀ st, messageQueue (didCommService (sweep st visit).1.1)
        = messageQueue (didCommService st)
        ∧ Forall (fun a => is_object a = false) (sweep st visit).1.2
        ∧ (∀ c d, clientDids (sweep st visit).1.1 !! c = Some d →
                  clientDids st !! c = Some d).
Proof.
  induction visit as [|client rest IH]; intros st; [done|]. simpl.
  destruct (bool_decide (readyState st client = CLOSED)).
  - assert (Hsvc : ∀ svc unregistered,
              (svc, unregistered)
              = match senderDid_of st client with
                | Some did => unregisterClient (didCommService st) did
                | None => (didCommService st, Return tt)
                end →
              messageQueue svc = messageQueue (didCommService st)).
    { intros svc unregistered Heq.
      destruct (senderDid_of st client) as [did|].
      - replace svc with (unregisterClient (didCommService st) did).1
          by (by rewrite <- Heq).
        apply unregisterClient_queue.
      - by injection Heq as -> _. }
    destruct (match senderDid_of st client with
              | Some did => unregisterClient (didCommService st) did
              | None => (didCommService st, Return tt)
              end) as [svc unregistered].
    specialize (Hsvc svc unregistered eq_refl).
    destruct unregistered as [[]|e]; [|by split].
    destruct (IH (set_clientDids
                    (set_clients (set_didCommService st svc)
                       (set_delete client (clients (set_didCommService st svc))))
                    (delete client
                       (clientDids
                          (set_clients (set_didCommService st svc)
                             (set_delete client
                                (clients (set_didCommService st svc))))))))
      as (Hq & Hout & Hdids).
    split; [etrans; [exact Hq|exact Hsvc]|]. split; [exact Hout|].
    intros c d Hc. apply Hdids in Hc. simpl in Hc.
    by apply lookup_delete_Some in Hc as [_ Hc].
  - destruct (bool_decide (readyState st client = CONNECTING)); [by split|].
    destruct (IH st) as (Hq & Hout & Hdids). simpl.
    split; [done|]. split; [by constructor|done].
Qed.

Lemma step_silent (st st' : State) (ev : Event) (out : list Action)
    (e : option exn) :
  messageQueue (didCommService st) = ∅ →
  step st ev = Some (st', out, e) →
  messageQueue (didCommService st') = ∅
  ∧ (plain st → without_content ev →
     plain st' ∧ Forall (fun a => is_object a = false) out).
Proof.
  intros Hq Hstep.
  destruct ev as [ws clientId now|ws parsed clientId now generated endpoint
                 |ws|ws clientId now|]; simpl in Hstep.
  - destruct (decide _); [done|]. injection Hstep as <- <- _.
    split; [done|]. intros Hplain _. split; [done|].
    unfold handleConnection. cbn [returned fst snd]. each_output.
  - destruct (decide _); [|done]. injection Hstep as <- <- _.
    cbn [returned fst snd]. unfold handleMessage.
    destruct parsed as [message|];
      [|split; [done|intros Hplain _; split; [done|each_output]]].
    cbn [fst snd].
    destruct (is_authenticate (m_type message)) eqn:Hauth.
    + assert (Hd : dispatch st ws message clientId now generated endpoint
                   = returned (handleAuthentication st ws message clientId now)).
      { unfold dispatch. unfold is_authenticate in Hauth.
        destruct (m_type message); try done. by rewrite Hauth. }
      rewrite Hd. cbn [returned fst snd]. rewrite app_nil_r.
      destruct (handleAuthentication_silent st ws message clientId now Hq)
        as (Hq' & Hout & Hdids).
      split; [done|]. intros Hplain Hev. split; [|done].
      simpl in Hev. specialize (Hev Hauth).
      intros c d Hc. destruct Hdids as [Hsame|Hset]; rewrite ?Hsame, ?Hset in Hc;
        [by apply (Hplain c)|].
      destruct (decide (c = ws)) as [->|Hne].
      * rewrite lookup_insert_eq in Hc. by injection Hc as <-.
      * rewrite lookup_insert_ne in Hc by done. by apply (Hplain c).
    + rewrite (dispatch_same_service st ws message clientId now generated
                 endpoint Hauth).
      split; [done|]. intros Hplain _.
      destruct (dispatch_same_connections st ws message clientId now generated
                  endpoint Hauth) as (_ & Hdids & _).
      split; [intros c d; rewrite Hdids; apply Hplain|].
      apply Forall_app_2.
      * apply dispatch_silent; [done|]. intros d. apply Hplain.
      * destruct (dispatch _ _ _ _ _ _ _).2; each_output.
  - destruct (decide _); [|done]. injection Hstep as <- <- _.
    split; [done|]. by intros Hplain _.
  - destruct (decide _); [|done]. apply (inj Some) in Hstep.
    assert (Hshape :
      messageQueue
        (didCommService
           (handleDisconnection (set_readyState st ws CLOSED) ws clientId now).1.1)
      = ∅
      ∧ (∀ c d,
           clientDids
             (handleDisconnection (set_readyState st ws CLOSED) ws clientId
                now).1.1 !! c = Some d →
           clientDids st !! c = Some d)
      ∧ Forall (fun a => is_object a = false)
          (handleDisconnection (set_readyState st ws CLOSED) ws clientId
             now).1.2).
    { unfold handleDisconnection.
      destruct (senderDid_of (set_readyState st ws CLOSED) ws) as [did|].
      - cbn [didCommService set_clientDids set_clients set_readyState].
        pose proof (unregisterClient_queue (didCommService st) did) as Hun.
        destruct (unregisterClient (didCommService st) did)
          as [svc unregistered].
        simpl in Hun.
        assert (Hoff : ∀ s, clientDids (setUserOffline s did ws) = clientDids s
                            ∧ didCommService (setUserOffline s did ws)
                              = didCommService s).
        { intros s. unfold setUserOffline.
          destruct (onlineUsers s !! key did); [|done]. by destruct (decide _). }
        destruct unregistered as [[]|e'].
        + cbn [fst snd].
          split; [by rewrite (proj2 (Hoff _)); simpl; rewrite Hun|].
          split.
          * intros c d. rewrite (proj1 (Hoff _)). simpl.
            by intros [_ Hc]%lookup_delete_Some.
          * unfold broadcastUserOffline. each_output.
        + cbn [fst snd]. split; [by simpl; rewrite Hun|]. split; [|done].
          intros c d. simpl. by intros [_ Hc]%lookup_delete_Some.
      - cbn [fst snd]. split; [done|]. split; [|done].
        intros c d. simpl. by intros [_ Hc]%lookup_delete_Some. }
    rewrite Hstep in Hshape. cbn [fst snd] in Hshape.
    destruct Hshape as (Hq' & Hdids & Hout).
    split; [done|]. intros Hplain _. split; [|done].
    intros c d Hc. apply (Hplain c). by apply Hdids.
  - apply (inj Some) in Hstep. unfold cleanupConnections in Hstep.
    destruct (sweep_queue (clients st) st) as (Hq' & Hout & Hdids).
    destruct (sweep st (clients st)) as [[st1 out1] [e1|]]; simpl in *.
    + injection Hstep as <- <- _. split; [by rewrite Hq'|].
      intros Hplain _. split; [|done].
      intros c d Hc. apply (Hplain c). by apply Hdids.
    + injection Hstep as <- <- _. split; [done|].
      intros Hplain _. split; [|done].
      intros c d Hc. apply (Hplain c). by apply Hdids.
Qed.

Lemma run_silent (trace : list Event) :
  ∀ (st st' : State) (out : list Action),
    messageQueue (didCommService st) = ∅ →
    run st trace = Some (st', out) →
    messageQueue (didCommService st') = ∅
    ∧ (plain st → Forall without_content trace →
       Forall (fun a => is_object a = false) out).
Proof.
  induction trace as [|ev trace IH]; intros st st' out Hq Hrun; simpl in Hrun.
  - injection Hrun as <- <-. by split.
  - destruct (step st ev) as [[[st1 out1] [e|]]|] eqn:Hstep; try done.
    destruct (run st1 trace) as [[st2 out2]|] eqn:Hrest; [|done].
    injection Hrun as <- <-.
    destruct (step_silent st st1 ev out1 None Hq Hstep) as [Hq1 Hplain1].
    destruct (IH st1 st2 out2 Hq1 Hrest) as [Hq2 Hout2].
    split; [done|]. intros Hplain [Hev Hevs]%Forall_cons.
    destruct (Hplain1 Hplain Hev) as [Hplain' Hout1].
    apply Forall_app. split; [done|by apply Hout2].
Qed.

(** X16: through the server the DIDComm service transmits nothing of its
    own.  Along every trace of server events from a started server the
    service's queue of undelivered messages stays empty, so no queued
    [didcomm_message] frame is ever flushed.  If moreover no
    authentication names an identity that has a string as its [content]
    - which takes an object -, then no output is an object written to a
    socket outside the envelopes: no [didcomm_decrypted] message is
    broadcast. *)
Theorem didcomm_service_stays_silent (publicKey : list Byte.byte)
    (trace : list Event) (st : State) (out : list Action) :
  run (start publicKey) trace = Some (st, out) →
  messageQueue (didCommService st) = ∅
  ∧ (Forall without_content trace →
     Forall (fun a => is_object a = false) out).
Proof.
  intros Hrun.
  destruct (run_silent trace (start publicKey) st out eq_refl Hrun)
    as [Hq Hout].
  split; [done|]. intros Hevs. apply Hout; [|done].
  intros c d Hc. unfold start in Hc. simpl in Hc. by rewrite lookup_empty in Hc.
Qed.

End Silent.

Lemma didcomm_service_stays_silent_witness :
  messageQueue (didCommService Scenario.final) = ∅
  ∧ Forall (fun a => is_object a = false) Scenario.transcript.
Proof.
  destruct (@didcomm_service_stays_silent Reference.platform Reference.encoders
              Scenario.public_key Scenario.session Scenario.final
              Scenario.transcript) as [Hq Hout].
  - vm_compute; reflexivity.
  - split; [exact Hq|]. apply Hout.
    repeat constructor; simpl; try done;
      intros _ text; vm_compute; discriminate.
Defined.

(** ** The server: two registries of who is connected *)

(** X18: the DIDComm registry is keyed by identity, the presence map by
    identity and socket.  When an identity has two authenticated sockets
    and one of them closes, the server still reports the identity online
    and the other socket stays authenticated, but the DIDComm service has no
    client for the identity any more: [isClientOnline] is false for it. *)
Theorem closing_one_socket_unregisters_the_identity
    (st : State) (ws ws' : conn) (did did' : Held) (info : UserInfo)
    (clientId now : string) (ready : conn → ReadyState) :
  ws' ≠ ws →
  truthy (json did) = true →
  clientDids st !! ws = Some did →
  clientDids st !! ws' = Some did' →
  key did' = key did →
  onlineUsers st !! key did = Some info →
  ws' ∈ clientIds info →
  isClientOnline
    (didCommService (handleDisconnection st ws clientId now).1.1) did ready
  = false
  ∧ online (handleDisconnection st ws clientId now).1.1 (key did) = true
  ∧ clientDids (handleDisconnection st ws clientId now).1.1 !! ws' = Some did'.
Proof.
  intros Hne Hdid Hws Hws' Hkey Hinfo Hin.
  assert (senderDid_of st ws = Some did) as Hsender.
  { unfold senderDid_of. by rewrite Hws, Hdid. }
  assert (Hgone : ∀ ready',
            isClientOnline (unregisterClient (didCommService st) did).1 did ready'
            = false).
  { intros ready'. unfold isClientOnline, unregisterClient.
    destruct (connectedClients (didCommService st) !! key did) eqn:Hc; simpl.
    - by rewrite lookup_delete_eq.
    - by rewrite Hc. }
  unfold handleDisconnection. rewrite Hsender.
  cbn [didCommService set_clientDids set_clients].
  destruct (unregisterClient (didCommService st) did) as [svc unregistered].
  simpl in Hgone.
  destruct unregistered as [[]|e]; cbn [fst snd].
  - assert (∀ s, clientDids (setUserOffline s did ws) = clientDids s
                 ∧ didCommService (setUserOffline s did ws) = didCommService s)
      as Hsame.
    { intros s. unfold setUserOffline.
      destruct (onlineUsers s !! key did); [|done]. by destruct (decide _). }
    split; [by rewrite (proj2 (Hsame _))|]. split.
    + unfold setUserOffline. simpl. rewrite Hinfo.
      destruct (decide (size (clientIds info ∖ {[ws]}) = 0)) as [Hz|_].
      * apply size_empty_inv in Hz.
        exfalso. apply (not_elem_of_empty (C := gset conn) ws').
        rewrite <- Hz. apply elem_of_difference. split; [done|].
        by rewrite elem_of_singleton.
      * unfold online. simpl. apply bool_decide_eq_true.
        rewrite lookup_insert_eq. eauto.
    + rewrite (proj1 (Hsame _)). simpl. by rewrite lookup_delete_ne.
  - split; [done|]. split.
    + unfold online. simpl. apply bool_decide_eq_true. by rewrite Hinfo.
    + simpl. by rewrite lookup_delete_ne.
Qed.

(** The pass of [cleanupConnections] over a list of sockets none of which
    is connecting, the closed ones having identities that a log line can
    print. *)
Lemma sweep_pass (visit : list conn) :
  ∀ st,
    (∀ c, c ∈ visit → readyState st c ≠ CONNECTING) →
    (∀ c d, c ∈ visit → kept st c = false → senderDid_of st c = Some d →
            interpolates (json d) = true) →
    (sweep st visit).2 = None
    ∧ onlineUsers (sweep st visit).1.1 = onlineUsers st
    ∧ webhooks (sweep st visit).1.1 = webhooks st
    ∧ readyState (sweep st visit).1.1 = readyState st
    ∧ (∀ c, c ∈ clients (sweep st visit).1.1
            ↔ c ∈ clients st ∧ (c ∈ visit → kept st c = true))
    ∧ (∀ c, clientDids (sweep st visit).1.1 !! c
            = if bool_decide (c ∈ visit) && negb (kept st c)
              then None else clientDids st !! c)
    ∧ (sweep st visit).1.2 = Ping <$> List.filter (kept st) visit.
Proof.
  induction visit as [|client rest IH]; intros st Hready Hprint.
  - simpl. split; [done|]. split; [done|]. split; [done|]. split; [done|].
    split; [|by split].
    intros c. split; [|by intros [? _]].
    intros Hc. by split; [|intros ?%elem_of_nil].
  - cbn [sweep]. unfold kept in *.
    destruct (bool_decide (readyState st client = CLOSED)) eqn:Hclosed.
    + set (reg := match senderDid_of st client with
                  | Some did => unregisterClient (didCommService st) did
                  | None => (didCommService st, Return tt)
                  end).
      assert (Hreg : reg.2 = Return tt).
      { unfold reg. destruct (senderDid_of st client) as [did|] eqn:Hsender;
          [|done].
        apply unregisterClient_Return.
        apply (Hprint client did); [left|by rewrite Hclosed|done]. }
      destruct reg as [svc unregistered]. simpl in Hreg. subst unregistered.
      set (st1 := set_clientDids
                    (set_clients (set_didCommService st svc)
                       (set_delete client (clients (set_didCommService st svc))))
                    (delete client
                       (clientDids
                          (set_clients (set_didCommService st svc)
                             (set_delete client
                                (clients (set_didCommService st svc))))))).
      destruct (IH st1) as (Hnone & Honline & Hhooks & Hrs & Hclients & Hdids & Hout).
      { intros c Hc. apply (Hready c). by right. }
      { intros c d Hc Hk Hs. apply (Hprint c d); [by right|done|].
        unfold senderDid_of in *. simpl in Hs.
        destruct (decide (c = client)) as [->|Hne];
          [by rewrite lookup_delete_eq in Hs|].
        by rewrite lookup_delete_ne in Hs. }
      split; [done|]. split; [done|]. split; [done|]. split; [done|].
      split; [|split].
      * intros c. rewrite Hclients. simpl. rewrite elem_of_set_delete.
        rewrite elem_of_cons. split.
        -- intros [[Hc Hne] Hkept]. split; [done|].
           intros [->|Hv]; [done|by apply Hkept].
        -- intros [Hc Hkept]. split; [split; [done|]|].
           ++ intros ->. specialize (Hkept (or_introl eq_refl)).
              by rewrite Hclosed in Hkept.
           ++ intros Hv. apply Hkept. by right.
      * intros c. rewrite Hdids. simpl.
        destruct (decide (c = client)) as [->|Hne].
        -- rewrite lookup_delete_eq, Hclosed. simpl.
           rewrite (bool_decide_eq_true_2 (client ∈ client :: rest)) by left.
           by destruct (bool_decide (client ∈ rest)).
        -- rewrite lookup_delete_ne by done.
           assert (bool_decide (c ∈ client :: rest) = bool_decide (c ∈ rest))
             as ->; [|done].
           apply bool_decide_ext. rewrite elem_of_cons.
           split; [intros [?|?]; [done|done]|by right].
      * rewrite Hout. simpl. by rewrite Hclosed.
    + assert (readyState st client ≠ CONNECTING) as Hnc
        by (apply Hready; left).
      rewrite bool_decide_eq_false_2 by done.
      destruct (IH st) as (Hnone & Honline & Hhooks & Hrs & Hclients & Hdids & Hout).
      { intros c Hc. apply (Hready c). by right. }
      { intros c d Hc. apply (Hprint c d). by right. }
      cbn [fst snd].
      split; [done|]. split; [done|]. split; [done|]. split; [done|].
      split; [|split].
      * intros c. rewrite Hclients, elem_of_cons. split.
        -- intros [Hc Hkept]. split; [done|].
           intros [->|Hv]; [by rewrite Hclosed|by apply Hkept].
        -- intros [Hc Hkept]. split; [done|]. intros Hv. apply Hkept. by right.
      * intros c. rewrite Hdids.
        destruct (decide (c = client)) as [->|Hne].
        -- rewrite Hclosed. simpl. by rewrite !andb_false_r.
        -- assert (bool_decide (c ∈ client :: rest) = bool_decide (c ∈ rest))
             as ->; [|done].
           apply bool_decide_ext. rewrite elem_of_cons.
           split; [intros [?|?]; [done|done]|by right].
      * rewrite Hout. simpl. by rewrite Hclosed.
Qed.

(** X19: the periodic cleanup sends no envelope and never changes who is
    reported online.  For a server none of whose sockets is [CONNECTING]
    (the state in which a ping throws) and whose closed sockets have
    identities that a log line can print, [cleanupConnections] throws
    nothing, drops the closed sockets from the clients and from the
    authenticated sockets, pings every other client in order, leaves
    [onlineUsers] and the webhooks as they were - an identity whose closed
    socket is dropped here stays online -, and empties the DIDComm service:
    afterwards [isClientOnline] is false for every identity, open sockets
    included. *)
Theorem cleanup_keeps_presence_and_forgets_registrations (st : State) :
  (∀ c, c ∈ clients st → readyState st c ≠ CONNECTING) →
  (∀ c d, c ∈ clients st → kept st c = false → senderDid_of st c = Some d →
          interpolates (json d) = true) →
  (cleanupConnections st).2 = None
  ∧ onlineUsers (cleanupConnections st).1.1 = onlineUsers st
  ∧ webhooks (cleanupConnections st).1.1 = webhooks st
  ∧ (∀ c, c ∈ clients (cleanupConnections st).1.1
          ↔ c ∈ clients st ∧ kept st c = true)
  ∧ (∀ c, c ∈ clients st → kept st c = false →
          clientDids (cleanupConnections st).1.1 !! c = None)
  ∧ (cleanupConnections st).1.2
    = Ping <$> List.filter (kept st) (clients st)
  ∧ (∀ did ready,
       isClientOnline (didCommService (cleanupConnections st).1.1) did ready
       = false)
  ∧ messageQueue (didCommService (cleanupConnections st).1.1) = ∅.
Proof.
  intros Hready Hprint.
  destruct (sweep_pass (clients st) st Hready Hprint)
    as (Hnone & Honline & Hhooks & _ & Hclients & Hdids & Hout).
  unfold cleanupConnections. rewrite Hnone. cbn [fst snd].
  split; [done|]. split; [done|]. split; [done|].
  split; [|split; [|split; [done|split]]].
  - intros c. simpl. rewrite Hclients. split; intros [Hc Hkept]; split; auto.
  - intros c Hc Hclosed. simpl. rewrite Hdids, Hclosed.
    by rewrite bool_decide_eq_true_2.
  - intros did ready. unfold isClientOnline. simpl. by rewrite lookup_empty.
  - done.
Qed.

Lemma closing_one_socket_unregisters_the_identity_witness :
  isClientOnline
    (didCommService (handleDisconnection Scenario.relay 1%nat "k1" "t9").1.1)
    (str "did:a") Scenario.all_open = false
  ∧ online (handleDisconnection Scenario.relay 1%nat "k1" "t9").1.1
      (KStr "did:a") = true
  ∧ clientDids (handleDisconnection Scenario.relay 1%nat "k1" "t9").1.1
      !! 2%nat = Some (str "did:a").
Proof.
  apply (closing_one_socket_unregisters_the_identity Scenario.relay 1%nat 2%nat
           (str "did:a") (str "did:a")
           (default {| lastSeen := ""; clientIds := ∅ |}
              (onlineUsers Scenario.relay !! KStr "did:a"))).
  - discriminate.
  - reflexivity.
  - vm_compute; reflexivity.
  - vm_compute; reflexivity.
  - reflexivity.
  - vm_compute; reflexivity.
  - refine (bool_decide_unpack _ _). vm_compute. exact I.
Defined.

Lemma cleanup_keeps_presence_and_forgets_registrations_witness :
  (cleanupConnections Scenario.relay).1.2 = [Ping 1%nat; Ping 2%nat; Ping 3%nat]
  ∧ onlineUsers (cleanupConnections Scenario.relay).1.1
    = onlineUsers Scenario.relay
  ∧ isClientOnline (didCommService (cleanupConnections Scenario.relay).1.1)
      (str "did:a") Scenario.all_open = false.
Proof.
  assert (clients Scenario.relay = [1; 2; 3]%nat) as Hclients
    by (vm_compute; reflexivity).
  destruct (cleanup_keeps_presence_and_forgets_registrations Scenario.relay)
    as (_ & Honline & _ & _ & _ & Hout & Hoff & _).
  - rewrite Hclients.
    intros c Hc. apply list_elem_of_In in Hc. simpl in Hc.
    destruct Hc as [<-|[<-|[<-|[]]]]; vm_compute; discriminate.
  - rewrite Hclients.
    intros c d Hc. apply list_elem_of_In in Hc. simpl in Hc.
    destruct Hc as [<-|[<-|[<-|[]]]]; vm_compute; discriminate.
  - split; [|split; [exact Honline|apply Hoff]].
    rewrite Hout. vm_compute. reflexivity.
Defined.

(** ** The server: invites *)

Lemma field_obj_set_eq (fields : list (string * value)) (k : string) (v : value) :
  field (obj_set fields k v) k = v.
Proof.
  induction fields as [|[k' v'] fields IH]; simpl.
  - by rewrite String.eqb_refl.
  - destruct (String.eqb k' k) eqn:E; simpl.
    + by rewrite String.eqb_refl.
    + by rewrite E.
Qed.

Lemma field_obj_set_ne (fields : list (string * value)) (k k' : string)
    (v : value) :
  k' ≠ k → field (obj_set fields k v) k' = field fields k'.
Proof.
  intros Hne. induction fields as [|[k0 v0] fields IH]; simpl.
  - apply String.eqb_neq in Hne. rewrite String.eqb_sym in Hne. by rewrite Hne.
  - destruct (String.eqb k0 k) eqn:E; simpl.
    + apply String.eqb_eq in E as ->.
      apply String.eqb_neq in Hne. rewrite String.eqb_sym in Hne.
      by rewrite Hne.
    + by rewrite IH.
Qed.

Section Invites.
Context `{Platform} `{Encoders}.

(** X25: an invite is signed with the sender's own identity as the key.
    On an initialized service, for a sender with an open socket that
    authenticated with a non-empty string, a chat id that is truthy and
    that a log line can print, and an invite that carries a credential,
    [create_invite] answers [invite_created] with the credential extended
    by a proof: its other properties are unchanged, the verification method
    is the identity the socket authenticated with, and the last part of
    the token is the HMAC of the credential's JSON keyed by that identity,
    so that it can be recomputed from the credential and the identity
    alone.  When the log line after the answer cannot print the invite id,
    an [error] envelope follows the answer; nothing else is sent. *)
Theorem create_invite_signs_with_the_senders_identity
    (st : State) (ws : conn) (message : Message) (clientId now : string)
    (issuer : Held) (issuerDid : string) :
  initialized (didCommService st) = true →
  clientDids st !! ws = Some issuer →
  json issuer = VStr issuerDid →
  issuerDid ≠ "" →
  truthy (json (m_chatId message)) = true →
  interpolates (json (m_chatId message)) = true →
  truthy (m_invite message) = true →
  optional_prop (m_invite message) "credential" ≠ VUndefined →
  readyState st ws = OPEN →
  ∃ signedCredential,
    handleCreateInvite st ws message clientId now
    = (st,
       Send ws (invite_created (optional_prop (m_invite message) "inviteId")
                               (json (m_chatId message)) signedCredential)
       :: (if interpolates (optional_prop (m_invite message) "inviteId")
           then []
           else [Send ws
                   (invite_error (optional_prop (m_invite message) "inviteId")
                      ("Erro ao criar convite: "
                       +:+ JS.message cannot_convert))]),
       None)
    ∧ optional_prop (optional_prop signedCredential "proof") "verificationMethod"
      = VStr issuerDid
    ∧ optional_prop (optional_prop signedCredential "proof") "jwt"
      = VStr ("eyJ0eXAiOiJKV1QiLCJhbGciOiJFZERTQSJ9."
              +:+ base64 (JSON_stringify
                            (optional_prop (m_invite message) "credential"))
              +:+ "."
              +:+ hmac_sha256_hex issuerDid
                    (JSON_stringify
                       (optional_prop (m_invite message) "credential")))
    ∧ ∀ k, k ≠ "proof" →
           optional_prop signedCredential k
           = field (spread (optional_prop (m_invite message) "credential")) k.
Proof.
  intros Hinit Hws Hjson Hissuer Hchat Hprint Hinvite Hcredential Hopen.
  assert (senderDid_of st ws = Some issuer) as Hsender.
  { unfold senderDid_of. rewrite Hws, Hjson.
    apply truthy_VStr in Hissuer. by rewrite Hissuer. }
  unfold handleCreateInvite. rewrite Hsender, Hchat, Hinvite.
  simpl negb. simpl orb. cbv iota.
  rewrite (log_Return [json (m_chatId message); json issuer])
    by (simpl; by rewrite Hprint, Hjson).
  unfold signCredential. rewrite Hinit. simpl negb. cbv iota.
  rewrite Hjson. rewrite (log_Return [VStr issuerDid]) by done.
  cbn [mbind completion_bind].
  unfold sendToClient, is_open. rewrite bool_decide_eq_true_2 by done.
  set (inviteId := optional_prop (m_invite message) "inviteId").
  assert (Hlog : try_catch (_ ← log [inviteId]; Return [])
                   (fun e => [Send ws
                                (invite_error inviteId
                                   ("Erro ao criar convite: " +:+ JS.message e))])
                 = if interpolates inviteId then []
                   else [Send ws
                           (invite_error inviteId
                              ("Erro ao criar convite: "
                               +:+ JS.message cannot_convert))]).
  { unfold log. simpl. by destruct (interpolates inviteId). }
  destruct (optional_prop (m_invite message) "credential") eqn:Hc; [done|..];
    (eexists; split; [cbv zeta iota; rewrite Hlog; reflexivity|];
     split; [|split]);
    try (cbn [optional_prop]; rewrite field_obj_set_eq; reflexivity);
    try (intros k Hk; cbn [optional_prop]; by rewrite field_obj_set_ne).
Qed.

End Invites.

Lemma create_invite_signs_with_the_senders_identity_witness :
  ∃ signedCredential,
    @handleCreateInvite Reference.platform Reference.encoders Scenario.relay
      1%nat (Scenario.create_invite_as Scenario.unprintable) "k1" "t6"
    = (Scenario.relay,
       [Send 1%nat (invite_created Scenario.unprintable (VStr "c1")
                      signedCredential);
        Send 1%nat (invite_error Scenario.unprintable
                      "Erro ao criar convite: Cannot convert object to primitive value")],
       None)
    ∧ optional_prop (optional_prop signedCredential "proof") "verificationMethod"
      = VStr "did:a"
    ∧ optional_prop signedCredential "level" = VNum 3.
Proof.
  destruct (@create_invite_signs_with_the_senders_identity
              Reference.platform Reference.encoders Scenario.relay 1%nat
              (Scenario.create_invite_as Scenario.unprintable) "k1" "t6"
              (str "did:a") "did:a")
    as (signed & Hreply & Hmethod & _ & Hrest).
  - reflexivity.
  - vm_compute; reflexivity.
  - reflexivity.
  - discriminate.
  - reflexivity.
  - reflexivity.
  - reflexivity.
  - discriminate.
  - vm_compute; reflexivity.
  - exists signed. split; [exact Hreply|]. split; [exact Hmethod|].
    rewrite Hrest by discriminate. reflexivity.
Defined.
